(** * TI-Nspire USB file protocol: a shallow embedding of the host client

    The development follows the two protocol modules of the repository,
    [tinspire_device.py] (upload and download of files) and
    [tinspire_list_files.py] (directory listing).  Both drive a PyUSB
    device handle through [device.write] and [device.read]; here the
    handle is a scripted transport that records every call, and the
    methods of the two [TINspireDevice] classes are functions in a small
    state-and-exception monad over it. *)

From Stdlib Require Import String Init.Byte Strings.Byte.
From Stdlib Require Import ZArith List Lia Bool.
Import ListNotations.
Open Scope Z_scope.

(* ================================================================== *)
(** * Python values: bytes, str, slices *)
(* ================================================================== *)

Definition bytes := list byte.

(** A Python [str] is a sequence of Unicode code points, each in
    [0 .. 0x10FFFF]. *)
Definition str := list Z.

Definition byte_of_Z (z : Z) : byte :=
  match Byte.of_N (Z.to_N (z mod 256)) with
  | Some b => b
  | None => x00
  end.

Definition Z_of_byte (b : byte) : Z := Z.of_N (Byte.to_N b).

Definition len {A} (l : list A) : Z := Z.of_nat (length l).

Fixpoint bytes_eqb (a b : bytes) : bool :=
  match a, b with
  | [], [] => true
  | x :: a', y :: b' => Byte.eqb x y && bytes_eqb a' b'
  | _, _ => false
  end.

(** Python exceptions that the protocol code can raise.  The three
    [Exception] messages of [tinspire_device.py] are kept verbatim. *)
Inductive exn : Type :=
| USBError
| IndexError
| StructError
| UnicodeEncodeError
| UnicodeDecodeError
| Exception (msg : string).

Definition result (A : Type) : Type := (exn + A)%type.

(** ** Slicing, [b[lo:hi]] with Python's clamping of both bounds *)

Definition clamp (n i : Z) : Z :=
  if i <? 0 then Z.max 0 (i + n) else Z.min i n.

Definition slice {A} (b : list A) (lo hi : Z) : list A :=
  let l := clamp (len b) lo in
  let h := clamp (len b) hi in
  firstn (Z.to_nat (h - l)) (skipn (Z.to_nat l) b).

(** [b[lo:]] *)
Definition slice_from {A} (b : list A) (lo : Z) : list A :=
  slice b lo (len b).

(** [b[:hi]] *)
Definition slice_to {A} (b : list A) (hi : Z) : list A :=
  slice b 0 hi.

(** [b[i]] for a non-negative index; [IndexError] out of range. *)
Definition index (b : bytes) (i : nat) : result byte :=
  match nth_error b i with
  | Some x => inr x
  | None => inl IndexError
  end.

(** [b.find(bytes([x]), start)] *)
Fixpoint find_in (x : byte) (b : bytes) (pos : Z) : Z :=
  match b with
  | [] => -1
  | y :: b' => if Byte.eqb y x then pos else find_in x b' (pos + 1)
  end.

Definition find (b : bytes) (x : byte) (start : Z) : Z :=
  let s := clamp (len b) start in
  find_in x (skipn (Z.to_nat s) b) s.

(** ** [struct.pack] and [struct.unpack], big-endian *)

Definition struct_pack_H (n : Z) : result bytes :=
  if (0 <=? n) && (n <=? 0xFFFF)
  then inr [byte_of_Z (Z.shiftr n 8); byte_of_Z n]
  else inl StructError.

Definition struct_pack_I (n : Z) : result bytes :=
  if (0 <=? n) && (n <=? 0xFFFFFFFF)
  then inr [byte_of_Z (Z.shiftr n 24); byte_of_Z (Z.shiftr n 16);
            byte_of_Z (Z.shiftr n 8); byte_of_Z n]
  else inl StructError.

Definition struct_unpack_I (b : bytes) : result Z :=
  match b with
  | [b0; b1; b2; b3] =>
      inr (Z.lor (Z.shiftl (Z_of_byte b0) 24)
          (Z.lor (Z.shiftl (Z_of_byte b1) 16)
          (Z.lor (Z.shiftl (Z_of_byte b2) 8) (Z_of_byte b3))))
  | _ => inl StructError
  end.

(** ** UTF-8, strict as in CPython *)

Definition cont (z : Z) : byte := byte_of_Z (Z.lor 0x80 (Z.land z 0x3F)).

Definition encode_point (c : Z) : result bytes :=
  if c <? 0 then inl UnicodeEncodeError
  else if c <? 0x80 then inr [byte_of_Z c]
  else if c <? 0x800 then
    inr [byte_of_Z (Z.lor 0xC0 (Z.shiftr c 6)); cont c]
  else if (0xD800 <=? c) && (c <=? 0xDFFF) then inl UnicodeEncodeError
  else if c <? 0x10000 then
    inr [byte_of_Z (Z.lor 0xE0 (Z.shiftr c 12)); cont (Z.shiftr c 6); cont c]
  else if c <=? 0x10FFFF then
    inr [byte_of_Z (Z.lor 0xF0 (Z.shiftr c 18)); cont (Z.shiftr c 12);
         cont (Z.shiftr c 6); cont c]
  else inl UnicodeEncodeError.

(** [s.encode('utf-8')] *)
Fixpoint encode_utf8 (s : str) : result bytes :=
  match s with
  | [] => inr []
  | c :: s' =>
      match encode_point c with
      | inl e => inl e
      | inr b =>
          match encode_utf8 s' with
          | inl e => inl e
          | inr bs => inr (b ++ bs)
          end
      end
  end.

Definition in_range (lo hi : Z) (b : byte) : bool :=
  (lo <=? Z_of_byte b) && (Z_of_byte b <=? hi).

Definition low6 (b : byte) : Z := Z.land (Z_of_byte b) 0x3F.

(** [b.decode('utf-8')]: the well-formed byte sequences of the Unicode
    standard; anything else is a [UnicodeDecodeError].  The fuel is the
    number of bytes, which bounds the number of code points. *)
Fixpoint decode_utf8_aux (fuel : nat) (b : bytes) : result str :=
  match fuel with
  | O => match b with [] => inr [] | _ => inl UnicodeDecodeError end
  | S fuel' =>
      let continue c rest :=
        match decode_utf8_aux fuel' rest with
        | inl e => inl e
        | inr s => inr (c :: s)
        end in
      match b with
      | [] => inr []
      | b0 :: r0 =>
          let z0 := Z_of_byte b0 in
          if z0 <? 0x80 then continue z0 r0
          else if in_range 0xC2 0xDF b0 then
            match r0 with
            | b1 :: r1 =>
                if in_range 0x80 0xBF b1
                then continue (Z.lor (Z.shiftl (Z.land z0 0x1F) 6) (low6 b1)) r1
                else inl UnicodeDecodeError
            | _ => inl UnicodeDecodeError
            end
          else if in_range 0xE0 0xEF b0 then
            match r0 with
            | b1 :: b2 :: r2 =>
                let lo1 := if Byte.eqb b0 xe0 then 0xA0 else 0x80 in
                let hi1 := if Byte.eqb b0 xed then 0x9F else 0xBF in
                if in_range lo1 hi1 b1 && in_range 0x80 0xBF b2
                then continue (Z.lor (Z.shiftl (Z.land z0 0x0F) 12)
                              (Z.lor (Z.shiftl (low6 b1) 6) (low6 b2))) r2
                else inl UnicodeDecodeError
            | _ => inl UnicodeDecodeError
            end
          else if in_range 0xF0 0xF4 b0 then
            match r0 with
            | b1 :: b2 :: b3 :: r3 =>
                let lo1 := if Byte.eqb b0 xf0 then 0x90 else 0x80 in
                let hi1 := if Byte.eqb b0 xf4 then 0x8F else 0xBF in
                if in_range lo1 hi1 b1 && in_range 0x80 0xBF b2
                   && in_range 0x80 0xBF b3
                then continue (Z.lor (Z.shiftl (Z.land z0 0x07) 18)
                              (Z.lor (Z.shiftl (low6 b1) 12)
                              (Z.lor (Z.shiftl (low6 b2) 6) (low6 b3)))) r3
                else inl UnicodeDecodeError
            | _ => inl UnicodeDecodeError
            end
          else inl UnicodeDecodeError
      end
  end.

Definition decode_utf8 (b : bytes) : result str :=
  decode_utf8_aux (length b) b.

(** ASCII literals as [str], for examples. *)
Fixpoint str_of_string (s : string) : str :=
  match s with
  | EmptyString => []
  | String a s' => Z.of_N (Ascii.N_of_ascii a) :: str_of_string s'
  end.

(* ================================================================== *)
(** * The transport: a scripted PyUSB device handle *)
(* ================================================================== *)

(** What one [device.read] call gives back: a frame of bytes, or a
    [usb.core.USBError] (a timeout, for instance). *)
Inductive reply : Type :=
| Frame (data : bytes)
| Fault.

(** One call on the handle: a [device.write(ENDPOINT_OUT, data)] that
    was accepted, a [device.read(ENDPOINT_IN, length)] with what it gave
    back, or a [device.write] that raised [usb.core.USBError]. *)
Inductive event : Type :=
| Wrote (data : bytes)
| Readn (length : Z) (r : reply)
| Refused (data : bytes).

(** The device answers its k-th read with [rx k] and accepts its k-th
    write when [tx k] is true, raising [usb.core.USBError] otherwise;
    [reads] and [writes] count the calls made so far and [trace] lists
    them, oldest first. *)
Record usb : Type := mk_usb {
  rx : nat -> reply;
  tx : nat -> bool;
  reads : nat;
  writes : nat;
  trace : list event
}.

(** A run ends with a value, with a raised exception, or is still inside
    a loop when the fuel given to that loop is used up ([Spin]). *)
Inductive outcome (A : Type) : Type :=
| Ok (a : A)
| Raise (e : exn)
| Spin.
Arguments Ok {A} a.
Arguments Raise {A} e.
Arguments Spin {A}.

Definition M (A : Type) : Type := usb -> outcome A * usb.

Definition ret {A} (a : A) : M A := fun d => (Ok a, d).

Definition bind {A B} (m : M A) (k : A -> M B) : M B :=
  fun d =>
    match m d with
    | (Ok a, d') => k a d'
    | (Raise e, d') => (Raise e, d')
    | (Spin, d') => (Spin, d')
    end.

Definition raise {A} (e : exn) : M A := fun d => (Raise e, d).

Definition spin {A} : M A := fun d => (Spin, d).

(** A pure computation that may raise. *)
Definition lift {A} (r : result A) : M A :=
  match r with
  | inl e => raise e
  | inr a => ret a
  end.

Declare Scope usb_scope.
Delimit Scope usb_scope with usb.
Notation "x <- m ;; k" := (bind m (fun x => k))
  (at level 61, m at next level, right associativity) : usb_scope.
Notation "m ;; k" := (bind m (fun _ => k))
  (at level 61, right associativity) : usb_scope.
Open Scope usb_scope.

(** [self.device.write(self.ENDPOINT_OUT, data, timeout=...)]: the
    write is accepted, or it raises [usb.core.USBError]. *)
Definition device_write (data : bytes) : M unit :=
  fun d =>
    if tx d (writes d) then
      (Ok tt, mk_usb (rx d) (tx d) (reads d) (S (writes d))
                (trace d ++ [Wrote data]))
    else
      (Raise USBError, mk_usb (rx d) (tx d) (reads d) (S (writes d))
                         (trace d ++ [Refused data])).

(** [self.device.read(self.ENDPOINT_IN, length, timeout=...)].  The
    scripted frame is handed over as it is, whatever length was asked
    for; the trace keeps the requested length next to the answer, and a
    statement that needs frames within that length says so. *)
Definition device_read (length : Z) : M bytes :=
  fun d =>
    let r := rx d (reads d) in
    let d' := mk_usb (rx d) (tx d) (S (reads d)) (writes d)
                (trace d ++ [Readn length r]) in
    match r with
    | Frame b => (Ok b, d')
    | Fault => (Raise USBError, d')
    end.

(** A device that answers its reads from a finite script and times out
    after it.  [scripted] accepts every write; [refusing] accepts every
    write but the one of index [k], counted from 0, which raises. *)
Definition script (frames : list bytes) (k : nat) : reply :=
  match nth_error frames k with
  | Some b => Frame b
  | None => Fault
  end.

Definition scripted (frames : list bytes) : usb :=
  mk_usb (script frames) (fun _ => true) 0 0 [].

Definition refusing (frames : list bytes) (k : nat) : usb :=
  mk_usb (script frames) (fun i => negb (Nat.eqb i k)) 0 0 [].

(** A device that accepts every write. *)
Definition accepts (d : usb) : Prop := forall k, tx d k = true.

(** The events a run added to the trace of [d]. *)
Definition added (d d' : usb) : list event :=
  skipn (length (trace d)) (trace d').

(** How many times exactly the frame [b] was written. *)
Fixpoint count_written (b : bytes) (t : list event) : nat :=
  match t with
  | [] => O
  | Wrote b' :: t' =>
      if bytes_eqb b' b then S (count_written b t') else count_written b t'
  | Readn _ _ :: t' => count_written b t'
  | Refused _ :: t' => count_written b t'
  end.

(* ================================================================== *)
(** * [tinspire_device.py]: class [TINspireDevice] *)
(* ================================================================== *)

Module Device.

Definition SERVICE_FILE : Z := 0x4060.

Definition write (data : bytes) : M unit := device_write data.

Definition read (length : Z) : M bytes := device_read length.

Definition build_packet (cmd : Z) (path : str) (payload : bytes) : result bytes :=
  match encode_utf8 path with
  | inl e => inl e
  | inr p =>
      let path_encoded := p ++ [x00] in
      match struct_pack_H cmd with
      | inl e => inl e
      | inr header => inr (header ++ path_encoded ++ payload)
      end
  end.

Definition connect_service (service_id : Z) : M unit :=
  service_packet <- lift (struct_pack_H service_id) ;;
  write service_packet ;;
  _ <- read 512 ;;
  ret tt.

Definition disconnect_service : M unit :=
  let disconnect_packet := [xff] in
  write disconnect_packet.

Definition close_service : M unit := device_write [x04].

(** The [while offset < len(file_content)] loop of [file_write]. *)
Fixpoint send_chunks (fuel : nat) (file_content : bytes) (offset : Z) : M unit :=
  if offset <? len file_content then
    match fuel with
    | O => spin
    | S fuel' =>
        let chunk := slice file_content offset (offset + 253) in
        let packet := [x05] ++ chunk in
        write packet ;;
        send_chunks fuel' file_content (offset + len chunk)
    end
  else ret tt.

(** Every round of the loop sends at least one byte, so the length of
    the content is fuel enough. *)
Definition file_write (remote_path : str) (file_content : bytes) : M unit :=
  connect_service SERVICE_FILE ;;
  size <- lift (struct_pack_I (len file_content)) ;;
  init_packet <- lift (build_packet 0x0301 remote_path size) ;;
  write init_packet ;;
  response <- read 512 ;;
  r0 <- lift (index response 0) ;;
  if negb (Byte.eqb r0 x04) then
    raise (Exception "Invalid response on file write initialization.")
  else
    send_chunks (length file_content) file_content 0 ;;
    final_response <- read 512 ;;
    if negb (bytes_eqb (slice_from final_response (-2)) [xff; x00]) then
      raise (Exception "File upload failed or not confirmed by device.")
    else
      close_service.

(** One round of the [while bytes_left > 0] loop of [file_read]: the new
    [bytes_left] and [data_received]. *)
Definition recv_chunk (bytes_left : Z) (data_received : bytes) : M (Z * bytes) :=
  let chunk_size := Z.min (bytes_left + 1) 254 in
  chunk <- read chunk_size ;;
  match chunk with
  | [] => raise (Exception "Unexpected timeout during file read.")
  | _ =>
      let data_chunk := slice_from chunk 1 in
      let data_len := len data_chunk in
      ret (bytes_left - data_len, data_received ++ data_chunk)
  end.

Fixpoint recv_loop (fuel : nat) (bytes_left : Z) (data_received : bytes) : M bytes :=
  if bytes_left >? 0 then
    match fuel with
    | O => spin
    | S fuel' =>
        st <- recv_chunk bytes_left data_received ;;
        recv_loop fuel' (fst st) (snd st)
    end
  else ret data_received.

(** [fuel] bounds the rounds of the receive loop, which has no bound of
    its own. *)
Definition file_read (fuel : nat) (remote_path : str) : M bytes :=
  connect_service SERVICE_FILE ;;
  header <- lift (struct_pack_H 0x0701) ;;
  path_encoded <- lift (encode_utf8 remote_path) ;;
  let read_packet := header ++ path_encoded ++ [x00] in
  write read_packet ;;
  header_response <- read 512 ;;
  if (len header_response <? 16)
     || negb (bytes_eqb (slice_to header_response 2) [x03; x01]) then
    close_service ;;
    raise (Exception "File doesn't exist or invalid response.")
  else
    file_size <- lift (struct_unpack_I (slice header_response 12 16)) ;;
    write [x04] ;;
    data_received <- recv_loop fuel file_size [] ;;
    ack <- lift (struct_pack_H 0xFF00) ;;
    write ack ;;
    close_service ;;
    ret data_received.

End Device.

(* ================================================================== *)
(** * [tinspire_list_files.py]: class [TINspireDevice] *)
(* ================================================================== *)

Module ListFiles.

Definition SERVICE_FILE : Z := 0x4060.

Definition write (data : bytes) : M unit := device_write data.

Definition read (length : Z) : M bytes := device_read length.

Definition connect_service : M unit :=
  packet <- lift (struct_pack_H SERVICE_FILE) ;;
  write packet ;;
  _ <- read 512 ;;
  ret tt.

Definition disconnect_service : M unit := write [x04].

(** The value of the ['type'] key. *)
Inductive entry_type : Type := dir | file.

(** The dictionary appended to [files]. *)
Record entry : Type := mk_entry {
  name : str;
  size : Z;
  type : entry_type
}.

(** The decoding part of the loop body of [list_directory], from
    [entry_type = entry[1]] to the dictionary. *)
Definition decode_entry (buf : bytes) : result entry :=
  match index buf 1 with
  | inl e => inl e
  | inr entry_type =>
      match struct_unpack_I (slice buf 4 8) with
      | inl e => inl e
      | inr size =>
          match struct_unpack_I (slice buf 8 12) with
          | inl e => inl e
          | inr date =>
              let name_end := find buf x00 12 in
              match decode_utf8 (slice buf 12 name_end) with
              | inl e => inl e
              | inr filename =>
                  inr (mk_entry filename size
                         (if Byte.eqb entry_type x00 then file else dir))
              end
          end
      end
  end.

(** The [while True] loop of [list_directory]. *)
Fixpoint next_entries (fuel : nat) (files : list entry) : M (list entry) :=
  match fuel with
  | O => spin
  | S fuel' =>
      write [x0e] ;;
      buf <- read 512 ;;
      e0 <- lift (index buf 0) ;;
      if Byte.eqb e0 xff then ret files
      else
        e <- lift (decode_entry buf) ;;
        next_entries fuel' (files ++ [e])
  end.

Definition list_directory (fuel : nat) (path : str) : M (list entry) :=
  connect_service ;;
  path_encoded <- lift (encode_utf8 path) ;;
  let packet := [x0d] ++ path_encoded ++ [x00] in
  write packet ;;
  response <- read 512 ;;
  files <- next_entries fuel [] ;;
  disconnect_service ;;
  ret files.

End ListFiles.

(* ================================================================== *)
(** * Vocabulary of the statements *)
(* ================================================================== *)

(** The device after one more call. *)
Definition wrote (d : usb) (data : bytes) : usb :=
  mk_usb (rx d) (tx d) (reads d) (S (writes d)) (trace d ++ [Wrote data]).

Definition refused (d : usb) (data : bytes) : usb :=
  mk_usb (rx d) (tx d) (reads d) (S (writes d)) (trace d ++ [Refused data]).

Definition answered (d : usb) (n : Z) : usb :=
  mk_usb (rx d) (tx d) (S (reads d)) (writes d)
    (trace d ++ [Readn n (rx d (reads d))]).

(** The outcome of a run and the calls it made on a fresh handle. *)
Definition observe {A} (r : outcome A * usb) : outcome A * list event :=
  (fst r, trace (snd r)).

(** A read that returned a non-empty frame no longer than requested. *)
Definition within_request (e : event) : Prop :=
  match e with
  | Wrote _ => True
  | Readn n (Frame b) => 0 < len b <= n
  | Readn _ Fault => False
  | Refused _ => True
  end.

(** The reads of the receive loop of [file_read] when the device sends
    [frames]: each asks for [min(bytes_left + 1, 254)] bytes and lowers
    [bytes_left] by the frame without its marker byte. *)
Fixpoint loop_reads (bytes_left : Z) (frames : list bytes) : list event :=
  match frames with
  | [] => []
  | f :: fs =>
      Readn (Z.min (bytes_left + 1) 254) (Frame f)
        :: loop_reads (bytes_left - len (tl f)) fs
  end.

(** The i-th chunk frame of an upload of [file_content]. *)
Definition chunk_write (file_content : bytes) (i : nat) : event :=
  Wrote (x05 :: slice file_content (253 * Z.of_nat i) (253 * Z.of_nat i + 253)).

(** A device that answers every read with a frame holding the marker
    byte and no data. *)
Definition marker_only : usb :=
  mk_usb (fun _ => Frame [x05]) (fun _ => true) 0 0 [].

(** A 16-byte header response announcing [n] bytes, for [n < 256]. *)
Definition header_for (n : Z) : bytes :=
  [x03; x01; x00; x00; x00; x00; x00; x00; x00; x00; x00; x00;
   x00; x00; x00; byte_of_Z n].

(** A directory-entry frame without its name: type byte at offset 1,
    size 7 at offsets 4..8, date 0 at offsets 8..12. *)
Definition entry_head (t : byte) : bytes :=
  [x00; t; x00; x00; x00; x00; x00; x07; x00; x00; x00; x00].

(** [file_read] up to the header response: the service is connected,
    the read request is sent and the header has arrived. *)
Definition header_read (d : usb) (p : bytes) : usb :=
  answered (wrote (answered (wrote d [x40; x60]) 512) ([x07; x01] ++ p ++ [x00])) 512.

(** The calls of [file_read] up to the header response [h]. *)
Definition header_events (c p h : bytes) : list event :=
  [Wrote [x40; x60]; Readn 512 (Frame c);
   Wrote ([x07; x01] ++ p ++ [x00]); Readn 512 (Frame h)].

(** A frame that [list_directory] takes for a directory entry and
    decodes to [e]: its first byte is not the end marker FF. *)
Definition entry_frame (f : bytes) (e : ListFiles.entry) : Prop :=
  (exists b r, f = b :: r /\ b <> xff) /\ ListFiles.decode_entry f = inr e.

(** The calls of a listing that receives three entries and the end
    marker. *)
Definition listing_events (c p a f1 f2 f3 fin : bytes) : list event :=
  [Wrote [x40; x60]; Readn 512 (Frame c);
   Wrote ([x0d] ++ p ++ [x00]); Readn 512 (Frame a);
   Wrote [x0e]; Readn 512 (Frame f1);
   Wrote [x0e]; Readn 512 (Frame f2);
   Wrote [x0e]; Readn 512 (Frame f3);
   Wrote [x0e]; Readn 512 (Frame (xff :: fin));
   Wrote [x04]].

(** A code point that [str.encode('utf-8')] accepts: in range and not a
    surrogate. *)
Definition encodable (c : Z) : Prop :=
  0 <= c <= 0x10FFFF /\ ~ (0xD800 <= c <= 0xDFFF).

(** The value of four bytes read as a big-endian unsigned integer. *)
Definition be32 (b0 b1 b2 b3 : byte) : Z :=
  Z_of_byte b0 * 2 ^ 24 + Z_of_byte b1 * 2 ^ 16 + Z_of_byte b2 * 2 ^ 8
  + Z_of_byte b3.

(** The data bytes of the i-th chunk of an upload and the number of
    chunks of an upload. *)
Definition chunk_payload (file_content : bytes) (i : nat) : bytes :=
  slice file_content (253 * Z.of_nat i) (253 * Z.of_nat i + 253).

Definition n_chunks (file_content : bytes) : nat :=
  Z.to_nat ((len file_content + 252) / 253).

(** The calls of [file_write] up to the response to the init frame. *)
Definition init_events (c init r : bytes) : list event :=
  [Wrote [x40; x60]; Readn 512 (Frame c); Wrote init; Readn 512 (Frame r)].

(** A read of the receive loop asks for 2 to 254 bytes. *)
Definition loop_request (e : event) : Prop :=
  match e with
  | Wrote _ => False
  | Readn n _ => 2 <= n <= 254
  | Refused _ => False
  end.

(** The calls of the listing loop for the entry frames [fs]. *)
Definition entry_reads (fs : list bytes) : list event :=
  flat_map (fun f => [Wrote [x0e]; Readn 512 (Frame f)]) fs.

(** A frame on which the listing loop raises [e]: it is empty, or it
    does not start with FF and its decoding fails. *)
Definition bad_frame (f : bytes) (e : exn) : Prop :=
  (f = [] /\ e = IndexError)
  \/ (exists b r, f = b :: r /\ b <> xff /\ ListFiles.decode_entry f = inl e).

(** What the decoder returns when the code point [c] is followed by the
    decoding [r] of the remaining bytes. *)
Definition prepend (c : Z) (r : result str) : result str :=
  match r with
  | inl e => inl e
  | inr s => inr (c :: s)
  end.

(** How a read of the receive loop can fail, and the exception that
    [file_read] raises for it. *)
Definition failed_read (r : reply) (e : exn) : Prop :=
  (r = Fault /\ e = USBError)
  \/ (r = Frame [] /\ e = Exception "Unexpected timeout during file read.").

(** A write is accepted after any run on a handle that accepts every
    write. *)
Ltac by_accepts :=
  match goal with
  | H : accepts _ |- tx _ ?k = true => exact (H k)
  end.

(** Closes a goal that says the next write is accepted. *)
Ltac accepted :=
  cbn [tx writes wrote answered];
  first [ assumption
        | match goal with H : accepts _ |- _ => apply H end ].

(** A device that answers the connection, announces one byte and then
    sends the marker byte alone for ever. *)
Definition stalling : usb :=
  mk_usb (fun k => match k with
                   | O => Frame [x00]
                   | S O => Frame (header_for 1)
                   | _ => Frame [x05]
                   end) (fun _ => true) 0 0 [].

(** What [file_read] does after the begin-transfer byte, by the outcome
    of the receive loop, on a handle that accepts the two writes. *)
Definition finish_read (r : outcome bytes * usb) : outcome bytes * usb :=
  match r with
  | (Ok data, d) => (Ok data, wrote (wrote d [xff; x00]) [x04])
  | (Raise e, d) => (Raise e, d)
  | (Spin, d) => (Spin, d)
  end.

(** The device after [nr] more reads and [nw] more writes that added
    the calls [evs] to the trace. *)
Definition after (d : usb) (nr nw : nat) (evs : list event) : usb :=
  mk_usb (rx d) (tx d) (reads d + nr) (writes d + nw) (trace d ++ evs).

(* ================================================================== *)
(** * Checks of the embedding on concrete values *)
(* ================================================================== *)

Example slice_negative : slice [x01; x02; x03] (-2) 3 = [x02; x03].
Proof. reflexivity. Qed.

Example slice_clamped : slice [x01] (-2) 1 = [x01] /\ slice [x01; x02] 12 (-1) = [].
Proof. split; reflexivity. Qed.

Example find_missing : find [x41; x00; x42] x00 2 = -1 /\ find [x41; x00; x42] x00 0 = 1.
Proof. split; reflexivity. Qed.

Example pack_service : struct_pack_H 0x4060 = inr [x40; x60].
Proof. reflexivity. Qed.

Example unpack_size : struct_unpack_I [x00; x00; x01; x02] = inr 258.
Proof. reflexivity. Qed.

Example utf8_euro :
  encode_utf8 [0x20AC] = inr [xe2; x82; xac] /\ decode_utf8 [xe2; x82; xac] = inr [0x20AC].
Proof. split; reflexivity. Qed.

Example utf8_rejects : decode_utf8 [xc0; x80] = inl UnicodeDecodeError
  /\ encode_utf8 [0xD800] = inl UnicodeEncodeError.
Proof. split; reflexivity. Qed.

(* ================================================================== *)
(** * Bytes, slices and UTF-8 *)
(* ================================================================== *)

Lemma bytes_eqb_eq (a b : bytes) : bytes_eqb a b = true <-> a = b.
Proof.
  revert b; induction a as [|x a IH]; intros [|y b]; simpl; split;
    try congruence; try discriminate; auto.
  - intros H. apply andb_true_iff in H as [Hx Hab].
    apply Byte.byte_dec_bl in Hx. apply IH in Hab. congruence.
  - intros H. injection H as -> ->. apply andb_true_iff. split.
    + now apply Byte.byte_dec_lb.
    + now apply IH.
Qed.

Lemma bytes_eqb_neq (a b : bytes) : bytes_eqb a b = false <-> a <> b.
Proof.
  split.
  - intros H E. apply bytes_eqb_eq in E. congruence.
  - intros H. destruct (bytes_eqb a b) eqn:E; [|reflexivity].
    apply bytes_eqb_eq in E. contradiction.
Qed.

Lemma len_nonneg {A} (l : list A) : 0 <= len l.
Proof. unfold len. lia. Qed.

Lemma len_app {A} (l l' : list A) : len (l ++ l') = len l + len l'.
Proof. unfold len. rewrite length_app. lia. Qed.

Lemma len_cons {A} (x : A) (l : list A) : len (x :: l) = 1 + len l.
Proof. unfold len. simpl length. lia. Qed.

Lemma clamp_inside (n i : Z) : 0 <= i <= n -> clamp n i = i.
Proof.
  intros H. unfold clamp. destruct (i <? 0) eqn:E.
  - apply Z.ltb_lt in E. lia.
  - lia.
Qed.

Lemma slice_len {A} (b : list A) (lo hi : Z) :
  0 <= lo -> 0 <= hi ->
  len (slice b lo hi) = Z.max 0 (Z.min hi (len b) - Z.min lo (len b)).
Proof.
  intros Hlo Hhi. pose proof (len_nonneg b) as Hb.
  unfold slice, clamp.
  destruct (lo <? 0) eqn:E1; [apply Z.ltb_lt in E1; lia|].
  destruct (hi <? 0) eqn:E2; [apply Z.ltb_lt in E2; lia|].
  unfold len in *. rewrite length_firstn, length_skipn. lia.
Qed.

(** [chunk[1:]] drops exactly the first byte. *)
Lemma slice_from_1 {A} (b : list A) : slice_from b 1 = tl b.
Proof.
  unfold slice_from, slice. destruct b as [|x b]; [reflexivity|].
  rewrite len_cons. pose proof (len_nonneg b) as Hb.
  rewrite clamp_inside, clamp_inside by lia.
  change (Z.to_nat 1) with 1%nat. simpl skipn. simpl tl.
  replace (Z.to_nat (1 + len b - 1)) with (length b) by (unfold len; lia).
  apply firstn_all.
Qed.

Lemma decode_utf8_aux_error (fuel : nat) :
  forall b e, decode_utf8_aux fuel b = inl e -> e = UnicodeDecodeError.
Proof.
  induction fuel as [|fuel IH]; intros b e; simpl.
  - destruct b; congruence.
  - destruct b as [|b0 r0]; [congruence|].
    repeat match goal with
    | |- context [decode_utf8_aux fuel ?r] =>
        let E := fresh "E" in
        destruct (decode_utf8_aux fuel r) eqn:E; [apply IH in E; subst|]
    | |- context [if ?c then _ else _] => destruct c
    | |- context [match ?r with [] => _ | _ :: _ => _ end] => destruct r
    end; congruence.
Qed.

Lemma encode_point_ok (c : Z) :
  0 <= c <= 0x10FFFF -> ~ (0xD800 <= c <= 0xDFFF) ->
  exists b, encode_point c = inr b /\ (c = 0 -> b = [x00]).
Proof.
  intros Hr Hs. unfold encode_point.
  destruct (c <? 0) eqn:E0; [apply Z.ltb_lt in E0; lia|].
  destruct (c <? 128) eqn:E1.
  { eexists; split; [reflexivity|]. intros ->. reflexivity. }
  apply Z.ltb_ge in E1.
  destruct (c <? 2048); [eexists; split; [reflexivity|lia]|].
  destruct ((55296 <=? c) && (c <=? 57343)) eqn:E2.
  { apply andb_true_iff in E2 as [Ha Hb].
    apply Z.leb_le in Ha, Hb. lia. }
  destruct (c <? 65536); [eexists; split; [reflexivity|lia]|].
  destruct (c <=? 1114111) eqn:E3; [eexists; split; [reflexivity|lia]|].
  apply Z.leb_gt in E3. lia.
Qed.

(* ================================================================== *)
(** * Running the monad *)
(* ================================================================== *)

Lemma bind_ok {A B} (m : M A) (k : A -> M B) (d d' : usb) (a : A) :
  m d = (Ok a, d') -> bind m k d = k a d'.
Proof. intros H. unfold bind. now rewrite H. Qed.

Lemma bind_raise {A B} (m : M A) (k : A -> M B) (d d' : usb) (e : exn) :
  m d = (Raise e, d') -> bind m k d = (Raise e, d').
Proof. intros H. unfold bind. now rewrite H. Qed.

Lemma bind_spin {A B} (m : M A) (k : A -> M B) (d d' : usb) :
  m d = (Spin, d') -> bind m k d = (Spin, d').
Proof. intros H. unfold bind. now rewrite H. Qed.

(** A sequence that returns has returned from its first part. *)
Lemma bind_ok_inv {A B} (m : M A) (k : A -> M B) (d d' : usb) (b : B) :
  bind m k d = (Ok b, d') ->
  exists a d1, m d = (Ok a, d1) /\ k a d1 = (Ok b, d').
Proof.
  unfold bind. destruct (m d) as [[a| |] d1]; intros H; try discriminate.
  exists a, d1. split; [reflexivity | exact H].
Qed.

Lemma device_write_run (data : bytes) (d : usb) :
  tx d (writes d) = true -> device_write data d = (Ok tt, wrote d data).
Proof. intros H. unfold device_write, wrote. now rewrite H. Qed.

Lemma device_write_refused (data : bytes) (d : usb) :
  tx d (writes d) = false ->
  device_write data d = (Raise USBError, refused d data).
Proof. intros H. unfold device_write, refused. now rewrite H. Qed.

Lemma device_read_frame (n : Z) (d : usb) (b : bytes) :
  rx d (reads d) = Frame b -> device_read n d = (Ok b, answered d n).
Proof. intros H. unfold device_read, answered. now rewrite H. Qed.

Lemma device_read_fault (n : Z) (d : usb) :
  rx d (reads d) = Fault -> device_read n d = (Raise USBError, answered d n).
Proof. intros H. unfold device_read, answered. now rewrite H. Qed.

(** The two kinds of call seen through the fields of the handle. *)
Lemma rx_wrote (d : usb) (b : bytes) : rx (wrote d b) = rx d.
Proof. reflexivity. Qed.

Lemma tx_wrote (d : usb) (b : bytes) : tx (wrote d b) = tx d.
Proof. reflexivity. Qed.

Lemma writes_wrote (d : usb) (b : bytes) : writes (wrote d b) = S (writes d).
Proof. reflexivity. Qed.

Lemma tx_answered (d : usb) (n : Z) : tx (answered d n) = tx d.
Proof. reflexivity. Qed.

Lemma writes_answered (d : usb) (n : Z) : writes (answered d n) = writes d.
Proof. reflexivity. Qed.

Lemma trace_refused (d : usb) (b : bytes) :
  trace (refused d b) = trace d ++ [Refused b].
Proof. reflexivity. Qed.

Lemma accepts_wrote (d : usb) (b : bytes) : accepts d -> accepts (wrote d b).
Proof. intros H k. apply H. Qed.

Lemma accepts_answered (d : usb) (n : Z) : accepts d -> accepts (answered d n).
Proof. intros H k. apply H. Qed.

Lemma accepts_scripted (frames : list bytes) : accepts (scripted frames).
Proof. intros k. reflexivity. Qed.

Lemma reads_wrote (d : usb) (b : bytes) : reads (wrote d b) = reads d.
Proof. reflexivity. Qed.

Lemma trace_wrote (d : usb) (b : bytes) : trace (wrote d b) = trace d ++ [Wrote b].
Proof. reflexivity. Qed.

Lemma rx_answered (d : usb) (n : Z) : rx (answered d n) = rx d.
Proof. reflexivity. Qed.

Lemma reads_answered (d : usb) (n : Z) : reads (answered d n) = S (reads d).
Proof. reflexivity. Qed.

Lemma trace_answered (d : usb) (n : Z) :
  trace (answered d n) = trace d ++ [Readn n (rx d (reads d))].
Proof. reflexivity. Qed.

Lemma rx_after (d : usb) (nr nw : nat) (evs : list event) :
  rx (after d nr nw evs) = rx d.
Proof. reflexivity. Qed.

Lemma tx_after (d : usb) (nr nw : nat) (evs : list event) :
  tx (after d nr nw evs) = tx d.
Proof. reflexivity. Qed.

Lemma reads_after (d : usb) (nr nw : nat) (evs : list event) :
  reads (after d nr nw evs) = (reads d + nr)%nat.
Proof. reflexivity. Qed.

Lemma writes_after (d : usb) (nr nw : nat) (evs : list event) :
  writes (after d nr nw evs) = (writes d + nw)%nat.
Proof. reflexivity. Qed.

Lemma trace_after (d : usb) (nr nw : nat) (evs : list event) :
  trace (after d nr nw evs) = trace d ++ evs.
Proof. reflexivity. Qed.

Lemma accepts_after (d : usb) (nr nw : nat) (evs : list event) :
  accepts d -> accepts (after d nr nw evs).
Proof. intros H k. apply H. Qed.

Lemma after_nil (d : usb) : after d 0 0 [] = d.
Proof.
  destruct d. unfold after. cbn [rx tx reads writes trace].
  now rewrite !Nat.add_0_r, app_nil_r.
Qed.

(** Two states of one device are equal when their counters and traces
    are. *)
Lemma after_eq (d : usb) (nr nw nr' nw' : nat) (evs evs' : list event) :
  nr = nr' -> nw = nw' -> evs = evs' ->
  after d nr nw evs = after d nr' nw' evs'.
Proof. now intros -> -> ->. Qed.

Lemma wrote_after (d : usb) (nr nw : nat) (evs : list event) (b : bytes) :
  wrote (after d nr nw evs) b = after d nr (S nw) (evs ++ [Wrote b]).
Proof.
  unfold wrote, after. cbn [rx tx reads writes trace].
  now rewrite Nat.add_succ_r, app_assoc.
Qed.

Lemma answered_after (d : usb) (nr nw : nat) (evs : list event) (n : Z) :
  answered (after d nr nw evs) n
  = after d (S nr) nw (evs ++ [Readn n (rx d (reads d + nr))]).
Proof.
  unfold answered, after. cbn [rx tx reads writes trace].
  now rewrite Nat.add_succ_r, app_assoc.
Qed.

Lemma after_after (d : usb) (nr nw nr' nw' : nat) (evs evs' : list event) :
  after (after d nr nw evs) nr' nw' evs'
  = after d (nr + nr') (nw + nw') (evs ++ evs').
Proof.
  unfold after. cbn [rx tx reads writes trace].
  now rewrite !Nat.add_assoc, app_assoc.
Qed.

Lemma wrote_is_after (d : usb) (b : bytes) : wrote d b = after d 0 1 [Wrote b].
Proof.
  unfold wrote, after. now rewrite Nat.add_0_r, Nat.add_1_r.
Qed.

Lemma answered_is_after (d : usb) (n : Z) :
  answered d n = after d 1 0 [Readn n (rx d (reads d))].
Proof.
  unfold answered, after. now rewrite Nat.add_0_r, Nat.add_1_r.
Qed.

Create Rewrite HintDb usb.
#[local] Hint Rewrite rx_wrote reads_wrote trace_wrote
  rx_answered reads_answered trace_answered
  tx_wrote writes_wrote tx_answered writes_answered trace_refused
  rx_after tx_after reads_after writes_after trace_after : usb.

Lemma added_app (d d' : usb) (evs : list event) :
  trace d' = trace d ++ evs -> added d d' = evs.
Proof.
  intros H. unfold added. rewrite H, skipn_app, skipn_all, Nat.sub_diag.
  reflexivity.
Qed.

(* ================================================================== *)
(** * Service session *)
(* ================================================================== *)

(** C9.  The disconnect marker is the single byte 0x04: on a handle
    that accepts the write, [disconnect_service] of
    [tinspire_list_files.py] and [close_service] of [tinspire_device.py]
    write exactly that frame, but [disconnect_service] of
    [tinspire_device.py] writes the single byte 0xFF instead. *)
Theorem disconnect_marker (d : usb) :
  tx d (writes d) = true ->
  Device.disconnect_service d = (Ok tt, wrote d [xff])
  /\ Device.close_service d = (Ok tt, wrote d [x04])
  /\ ListFiles.disconnect_service d = (Ok tt, wrote d [x04])
  /\ added d (wrote d [xff]) = [Wrote [xff]]
  /\ [xff] <> [x04].
Proof.
  intros H. repeat split.
  - now apply device_write_run.
  - now apply device_write_run.
  - now apply device_write_run.
  - apply added_app. reflexivity.
  - discriminate.
Qed.

Lemma disconnect_marker_witness :
  tx (scripted []) (writes (scripted [])) = true
  /\ Device.disconnect_service (scripted []) = (Ok tt, wrote (scripted []) [xff])
  /\ Device.close_service (scripted []) = (Ok tt, wrote (scripted []) [x04])
  /\ ListFiles.disconnect_service (scripted []) = (Ok tt, wrote (scripted []) [x04])
  /\ added (scripted []) (wrote (scripted []) [xff]) = [Wrote [xff]]
  /\ [xff] <> [x04].
Proof.
  split; [reflexivity|]. apply (disconnect_marker (scripted [])). reflexivity.
Defined.

(** C1.  Three protocol errors inside a connected session reach the
    caller with no disconnect marker written after them: a rejected
    upload init, a wrong upload completion marker and a zero-length read
    in the middle of a download.  In each run the last call on the
    handle is the read that revealed the error. *)
Theorem protocol_error_without_disconnect :
  observe (Device.file_write (str_of_string "/a") [x41; x42]
             (scripted [[x00]; [x00]]))
  = (Raise (Exception "Invalid response on file write initialization."),
     [Wrote [x40; x60]; Readn 512 (Frame [x00]);
      Wrote [x03; x01; x2f; x61; x00; x00; x00; x00; x02];
      Readn 512 (Frame [x00])])
  /\ observe (Device.file_write (str_of_string "/a") [x41; x42]
                (scripted [[x00]; [x04]; [xff; x01]]))
  = (Raise (Exception "File upload failed or not confirmed by device."),
     [Wrote [x40; x60]; Readn 512 (Frame [x00]);
      Wrote [x03; x01; x2f; x61; x00; x00; x00; x00; x02];
      Readn 512 (Frame [x04]); Wrote [x05; x41; x42];
      Readn 512 (Frame [xff; x01])])
  /\ observe (Device.file_read 5 (str_of_string "/a")
                (scripted [[x00]; header_for 3; [x05; x41; x42]; []]))
  = (Raise (Exception "Unexpected timeout during file read."),
     [Wrote [x40; x60]; Readn 512 (Frame [x00]);
      Wrote [x07; x01; x2f; x61; x00];
      Readn 512 (Frame (header_for 3)); Wrote [x04];
      Readn 4 (Frame [x05; x41; x42]); Readn 2 (Frame [])]).
Proof. repeat split; vm_compute; reflexivity. Qed.

(* ================================================================== *)
(** * Packet codec *)
(* ================================================================== *)

Lemma encode_utf8_ok (path : str) :
  Forall (fun c => 0 <= c <= 0x10FFFF /\ ~ (0xD800 <= c <= 0xDFFF)) path ->
  exists p, encode_utf8 path = inr p /\ (In 0 path -> In x00 p).
Proof.
  induction 1 as [|c path [Hr Hs] _ (p & Hp & Hin)].
  - exists []. split; [reflexivity|]. intros [].
  - destruct (encode_point_ok c Hr Hs) as (b & Hb & Hz).
    exists (b ++ p). simpl. rewrite Hb, Hp. split; [reflexivity|].
    intros [->|H]; apply in_or_app.
    + left. rewrite Hz by reflexivity. now left.
    + right. auto.
Qed.

(** C7, counterexample.  A path with an embedded NUL is encoded, not
    rejected: the packet carries the zero byte in the middle of the
    path. *)
Lemma build_packet_accepts_nul :
  In 0 [0x61; 0; 0x62]
  /\ Device.build_packet 0x0301 [0x61; 0; 0x62] [x09]
     = inr [x03; x01; x61; x00; x62; x00; x09].
Proof. split; [simpl; auto | reflexivity]. Qed.

(** C7, as amended.  For a path of encodable code points that contains
    an embedded NUL and a command code that fits 16 bits, [build_packet]
    does not fail: it returns the big-endian command, the UTF-8 bytes of
    the path, among them the zero byte of the NUL, one terminator and
    the payload. *)
Theorem build_packet_with_nul (cmd : Z) (path : str) (payload : bytes) :
  In 0 path ->
  Forall (fun c => 0 <= c <= 0x10FFFF /\ ~ (0xD800 <= c <= 0xDFFF)) path ->
  0 <= cmd <= 0xFFFF ->
  exists p,
    encode_utf8 path = inr p
    /\ In x00 p
    /\ Device.build_packet cmd path payload
       = inr ([byte_of_Z (Z.shiftr cmd 8); byte_of_Z cmd] ++ (p ++ [x00]) ++ payload).
Proof.
  intros Hnul Hpath Hcmd.
  destruct (encode_utf8_ok path Hpath) as (p & Hp & Hin).
  exists p. split; [exact Hp|]. split; [auto|].
  unfold Device.build_packet, struct_pack_H. rewrite Hp.
  replace ((0 <=? cmd) && (cmd <=? 65535)) with true; [reflexivity|].
  symmetry. apply andb_true_iff. split; apply Z.leb_le; lia.
Qed.

Lemma build_packet_with_nul_witness :
  In 0 [0x61; 0; 0x62]
  /\ exists p,
       encode_utf8 [0x61; 0; 0x62] = inr p
       /\ In x00 p
       /\ Device.build_packet 0x0301 [0x61; 0; 0x62] [x09]
          = inr ([byte_of_Z (Z.shiftr 0x0301 8); byte_of_Z 0x0301]
                   ++ (p ++ [x00]) ++ [x09]).
Proof.
  split; [simpl; auto|].
  apply (build_packet_with_nul 0x0301 [0x61; 0; 0x62] [x09]).
  - simpl; auto.
  - repeat constructor; lia.
  - lia.
Defined.

Lemma struct_unpack_I_four (b : bytes) :
  length b = 4%nat -> exists z, struct_unpack_I b = inr z.
Proof.
  destruct b as [|b0 [|b1 [|b2 [|b3 [|b4 r]]]]]; try discriminate.
  intros _. eexists. reflexivity.
Qed.

Lemma slice_length_inside {A} (b : list A) (lo hi : Z) :
  0 <= lo <= hi -> hi <= len b -> length (slice b lo hi) = Z.to_nat (hi - lo).
Proof.
  intros H1 H2. pose proof (slice_len b lo hi) as H.
  unfold len in *. lia.
Qed.

(** C8, counterexample.  A 12-byte buffer, shorter than the 13-byte
    minimum, and a 14-byte buffer with no NUL at or after offset 12 are
    both decoded into an entry. *)
Lemma decode_entry_accepts_malformed :
  len (entry_head x01) < 13
  /\ ListFiles.decode_entry (entry_head x01)
     = inr (ListFiles.mk_entry [] 7 ListFiles.dir)
  /\ find (entry_head x00 ++ [x41; x42]) x00 12 = -1
  /\ ListFiles.decode_entry (entry_head x00 ++ [x41; x42])
     = inr (ListFiles.mk_entry [0x41] 7 ListFiles.file).
Proof. repeat split. Qed.

(** C8, as amended.  A buffer shorter than 12 bytes is never decoded
    into an entry: below 2 bytes reading the type byte raises
    [IndexError], below 12 bytes unpacking the size or the date raises
    [struct.error].  From 12 bytes on there is no check of the length
    or of the terminator, and the only error left is that of the UTF-8
    decoding of the name. *)
Theorem decode_entry_errors (buf : bytes) :
  (len buf < 2 -> ListFiles.decode_entry buf = inl IndexError)
  /\ (2 <= len buf < 12 -> ListFiles.decode_entry buf = inl StructError)
  /\ (12 <= len buf ->
      forall e, ListFiles.decode_entry buf = inl e -> e = UnicodeDecodeError).
Proof.
  split; [|split].
  - destruct buf as [|b0 [|b1 r]]; [reflexivity | reflexivity |].
    rewrite !len_cons. pose proof (len_nonneg r). lia.
  - intros H.
    do 12 (destruct buf as [|? buf];
           [try (exfalso; unfold len in H; simpl in H; lia); reflexivity|]).
    exfalso. unfold len in H. simpl in H. lia.
  - intros H e. unfold ListFiles.decode_entry.
    assert (H1 : exists t, index buf 1 = inr t).
    { destruct buf as [|b0 [|b1 r]];
        [unfold len in H; simpl in H; lia | unfold len in H; simpl in H; lia |].
      eexists. reflexivity. }
    destruct H1 as (t & ->).
    destruct (struct_unpack_I_four (slice buf 4 8)) as (sz & ->).
    { rewrite slice_length_inside by lia. reflexivity. }
    destruct (struct_unpack_I_four (slice buf 8 12)) as (dt & ->).
    { rewrite slice_length_inside by lia. reflexivity. }
    destruct (decode_utf8 (slice buf 12 (find buf x00 12))) as [e'|s] eqn:E.
    + intros [= <-]. unfold decode_utf8 in E.
      eapply decode_utf8_aux_error; eauto.
    + discriminate.
Qed.

Lemma decode_entry_errors_witness :
  len [x00] < 2
  /\ 2 <= len [x00; x01; x00; x00; x00; x00; x00; x07] < 12
  /\ 12 <= len (entry_head x00 ++ [xc0; x80; x00])
  /\ ListFiles.decode_entry [x00] = inl IndexError
  /\ ListFiles.decode_entry [x00; x01; x00; x00; x00; x00; x00; x07]
     = inl StructError
  /\ exists e, ListFiles.decode_entry (entry_head x00 ++ [xc0; x80; x00]) = inl e
               /\ e = UnicodeDecodeError.
Proof.
  assert (H1 : len [x00] < 2) by (vm_compute; reflexivity).
  assert (H2 : 2 <= len [x00; x01; x00; x00; x00; x00; x00; x07] < 12)
    by (vm_compute; split; congruence).
  assert (H3 : 12 <= len (entry_head x00 ++ [xc0; x80; x00]))
    by (vm_compute; congruence).
  split; [exact H1|]. split; [exact H2|]. split; [exact H3|].
  split; [|split].
  - apply (proj1 (decode_entry_errors [x00])). exact H1.
  - apply (proj1 (proj2 (decode_entry_errors _))). exact H2.
  - exists UnicodeDecodeError. split; [reflexivity|].
    apply (proj2 (proj2 (decode_entry_errors (entry_head x00 ++ [xc0; x80; x00]))) H3).
    reflexivity.
Defined.

(* ================================================================== *)
(** * File download *)
(* ================================================================== *)

Lemma lift_ok {A} (r : result A) (a : A) (d : usb) :
  r = inr a -> lift r d = (Ok a, d).
Proof. intros ->. reflexivity. Qed.

Lemma lift_ok_inv {A} (r : result A) (a : A) (d d' : usb) :
  lift r d = (Ok a, d') -> r = inr a /\ d' = d.
Proof.
  unfold lift. destruct r as [e|x]; intros H; [discriminate|].
  injection H as -> ->. split; reflexivity.
Qed.

Lemma connect_service_run (d : usb) (c : bytes) :
  tx d (writes d) = true ->
  rx d (reads d) = Frame c ->
  Device.connect_service Device.SERVICE_FILE d
  = (Ok tt, answered (wrote d [x40; x60]) 512).
Proof.
  intros Hw H. unfold Device.connect_service.
  erewrite bind_ok by (apply lift_ok; reflexivity).
  erewrite bind_ok by (apply device_write_run; exact Hw).
  erewrite bind_ok by (apply device_read_frame; simpl; exact H).
  reflexivity.
Qed.

Lemma connect_service_refused (d : usb) :
  tx d (writes d) = false ->
  Device.connect_service Device.SERVICE_FILE d
  = (Raise USBError, refused d [x40; x60]).
Proof.
  intros Hw. unfold Device.connect_service.
  erewrite bind_ok by (apply lift_ok; reflexivity).
  erewrite bind_raise by (apply device_write_refused; exact Hw).
  reflexivity.
Qed.

Lemma file_read_header (fuel : nat) (path : str) (d : usb) (c p h : bytes) :
  tx d (writes d) = true ->
  tx d (S (writes d)) = true ->
  rx d (reads d) = Frame c ->
  encode_utf8 path = inr p ->
  rx d (S (reads d)) = Frame h ->
  trace (header_read d p) = trace d ++ header_events c p h
  /\ Device.file_read fuel path d
     = (if (len h <? 16) || negb (bytes_eqb (slice_to h 2) [x03; x01]) then
          (Device.close_service ;;
           raise (Exception "File doesn't exist or invalid response."))
        else
          (file_size <- lift (struct_unpack_I (slice h 12 16)) ;;
           Device.write [x04] ;;
           data_received <- Device.recv_loop fuel file_size [] ;;
           ack <- lift (struct_pack_H 0xFF00) ;;
           Device.write ack ;;
           Device.close_service ;;
           ret data_received)) (header_read d p).
Proof.
  intros Hw0 Hw1 Hc Hp Hh. split.
  - unfold header_read, header_events. autorewrite with usb.
    rewrite Hc, Hh, <- !app_assoc. reflexivity.
  - unfold Device.file_read.
    erewrite bind_ok by (eapply connect_service_run; eauto).
    erewrite bind_ok by (apply lift_ok; reflexivity).
    erewrite bind_ok by (apply lift_ok; exact Hp).
    erewrite bind_ok by (apply device_write_run; accepted).
    erewrite bind_ok by (apply device_read_frame; simpl; exact Hh).
    reflexivity.
Qed.

(** C5, counterexample.  A download with a header that is too short,
    over a handle that refuses its third write: the write of the
    disconnect marker raises [USBError], and that error reaches the
    caller in place of "File doesn't exist or invalid response.". *)
Lemma file_read_bad_header_masked :
  len [x03; x01; x00] < 16
  /\ observe (Device.file_read 0 (str_of_string "/a")
                (refusing [[x00]; [x03; x01; x00]] 2))
     = (Raise USBError,
        [Wrote [x40; x60]; Readn 512 (Frame [x00]);
         Wrote [x07; x01; x2f; x61; x00];
         Readn 512 (Frame [x03; x01; x00]); Refused [x04]]).
Proof. split; reflexivity. Qed.

(** C5, as amended.  A download whose header response is shorter than
    16 bytes, or does not start with the tag 03 01, issues the write of
    the disconnect marker 0x04 before any error reaches the caller.
    When the handle accepts that write, the error is the exception
    "File doesn't exist or invalid response."; when the write itself
    fails, its [USBError] is raised instead. *)
Theorem file_read_bad_header (fuel : nat) (path : str) (d : usb) (c p h : bytes) :
  tx d (writes d) = true ->
  tx d (S (writes d)) = true ->
  rx d (reads d) = Frame c ->
  encode_utf8 path = inr p ->
  rx d (S (reads d)) = Frame h ->
  len h < 16 \/ slice_to h 2 <> [x03; x01] ->
  (tx d (S (S (writes d))) = true ->
   exists d',
     Device.file_read fuel path d
     = (Raise (Exception "File doesn't exist or invalid response."), d')
     /\ added d d' = header_events c p h ++ [Wrote [x04]])
  /\ (tx d (S (S (writes d))) = false ->
      exists d',
        Device.file_read fuel path d = (Raise USBError, d')
        /\ added d d' = header_events c p h ++ [Refused [x04]]).
Proof.
  intros Hw0 Hw1 Hc Hp Hh Hbad.
  destruct (file_read_header fuel path d c p h Hw0 Hw1 Hc Hp Hh) as [Ht ->].
  replace ((len h <? 16) || negb (bytes_eqb (slice_to h 2) [x03; x01]))
    with true.
  2:{ symmetry. apply orb_true_iff. destruct Hbad as [H|H].
      - left. now apply Z.ltb_lt.
      - right. apply negb_true_iff. now apply bytes_eqb_neq. }
  unfold Device.close_service. split; intros Hw2.
  - exists (wrote (header_read d p) [x04]). split.
    + erewrite bind_ok by (apply device_write_run; exact Hw2). reflexivity.
    + apply added_app. rewrite trace_wrote, Ht, <- app_assoc. reflexivity.
  - exists (refused (header_read d p) [x04]). split.
    + erewrite bind_raise by (apply device_write_refused; exact Hw2).
      reflexivity.
    + apply added_app. rewrite trace_refused, Ht, <- app_assoc. reflexivity.
Qed.

Lemma file_read_bad_header_witness :
  (len [x03; x01; x00] < 16 \/ slice_to [x03; x01; x00] 2 <> [x03; x01])
  /\ (exists d',
        Device.file_read 0 (str_of_string "/a") (scripted [[x00]; [x03; x01; x00]])
        = (Raise (Exception "File doesn't exist or invalid response."), d')
        /\ added (scripted [[x00]; [x03; x01; x00]]) d'
           = header_events [x00] [x2f; x61] [x03; x01; x00] ++ [Wrote [x04]])
  /\ (exists d',
        Device.file_read 0 (str_of_string "/a") (refusing [[x00]; [x03; x01; x00]] 2)
        = (Raise USBError, d')
        /\ added (refusing [[x00]; [x03; x01; x00]] 2) d'
           = header_events [x00] [x2f; x61] [x03; x01; x00] ++ [Refused [x04]]).
Proof.
  assert (H : len [x03; x01; x00] < 16 \/ slice_to [x03; x01; x00] 2 <> [x03; x01])
    by (left; reflexivity).
  split; [exact H|]. split.
  - apply (file_read_bad_header 0 (str_of_string "/a")
             (scripted [[x00]; [x03; x01; x00]]) [x00] [x2f; x61] [x03; x01; x00]
             eq_refl eq_refl eq_refl eq_refl eq_refl H).
    reflexivity.
  - apply (file_read_bad_header 0 (str_of_string "/a")
             (refusing [[x00]; [x03; x01; x00]] 2) [x00] [x2f; x61] [x03; x01; x00]
             eq_refl eq_refl eq_refl eq_refl eq_refl H).
    reflexivity.
Defined.

Lemma Z_of_byte_nonneg (b : byte) : 0 <= Z_of_byte b.
Proof. unfold Z_of_byte. lia. Qed.

Lemma struct_unpack_I_nonneg (b : bytes) (z : Z) :
  struct_unpack_I b = inr z -> 0 <= z.
Proof.
  destruct b as [|b0 [|b1 [|b2 [|b3 [|b4 r]]]]]; try discriminate.
  intros H. cbv [struct_unpack_I] in H.
  assert (Hz : z = Z.lor (Z.shiftl (Z_of_byte b0) 24)
                 (Z.lor (Z.shiftl (Z_of_byte b1) 16)
                 (Z.lor (Z.shiftl (Z_of_byte b2) 8) (Z_of_byte b3))))
    by congruence.
  rewrite Hz.
  repeat (apply Z.lor_nonneg; split);
    try apply Z.shiftl_nonneg; apply Z_of_byte_nonneg.
Qed.

(** One round of the receive loop, by what the device answers. *)
Lemma recv_chunk_run (bl : Z) (acc : bytes) (d : usb) :
  Device.recv_chunk bl acc d
  = (match rx d (reads d) with
     | Frame [] => Raise (Exception "Unexpected timeout during file read.")
     | Frame (_ :: r) => Ok (bl - len r, acc ++ r)
     | Fault => Raise USBError
     end, answered d (Z.min (bl + 1) 254)).
Proof.
  unfold Device.recv_chunk, bind, Device.read, device_read, answered.
  destruct (rx d (reads d)) as [[|x r]|]; try reflexivity.
  rewrite slice_from_1. reflexivity.
Qed.

(** The receive loop only adds calls to the trace. *)
Lemma recv_loop_trace (fuel : nat) :
  forall bl acc d,
    exists evs, trace (snd (Device.recv_loop fuel bl acc d)) = trace d ++ evs.
Proof.
  induction fuel as [|fuel IH]; intros bl acc d; simpl.
  - exists []. rewrite app_nil_r. destruct (bl >? 0); reflexivity.
  - destruct (bl >? 0); [|exists []; now rewrite app_nil_r].
    unfold bind. rewrite recv_chunk_run.
    destruct (rx d (reads d)) as [[|x r]|] eqn:E;
      try (eexists; unfold answered; cbn [snd trace]; reflexivity).
    cbn [fst snd].
    destruct (IH (bl - len r) (acc ++ r) (answered d (Z.min (bl + 1) 254)))
      as (evs & Hevs).
    eexists. rewrite Hevs. unfold answered. cbn [trace].
    rewrite <- app_assoc. reflexivity.
Qed.

(** When every read of the loop returns a non-empty frame no longer
    than requested, the loop can only end normally, with [bytes_left]
    at zero and the frames without their marker bytes as data. *)
Lemma recv_loop_within (fuel : nat) :
  forall bl acc d out d',
    0 <= bl ->
    Device.recv_loop fuel bl acc d = (out, d') ->
    out <> Spin ->
    Forall within_request (added d d') ->
    exists frames,
      out = Ok (acc ++ concat (map (@tl byte) frames))
      /\ len (concat (map (@tl byte) frames)) = bl
      /\ Forall (fun f => f <> []) frames
      /\ trace d' = trace d ++ loop_reads bl frames.
Proof.
  induction fuel as [|fuel IH]; intros bl acc d out d' Hbl Hrun Hout Hall;
    simpl in Hrun; destruct (bl >? 0) eqn:Epos.
  - injection Hrun as <- <-. congruence.
  - injection Hrun as <- <-. exists []. simpl. rewrite !app_nil_r.
    repeat split; auto. pose proof (Zgt_cases bl 0) as H. rewrite Epos in H.
    unfold len. simpl. lia.
  - unfold bind in Hrun. rewrite recv_chunk_run in Hrun.
    set (n := Z.min (bl + 1) 254) in *.
    destruct (rx d (reads d)) as [[|x r]|] eqn:E.
    + injection Hrun as <- <-. exfalso.
      rewrite (added_app d (answered d n) [Readn n (rx d (reads d))]) in Hall
        by reflexivity.
      rewrite E in Hall. inversion Hall as [|? ? Hw _]; subst.
      simpl in Hw. unfold len in Hw. simpl in Hw. lia.
    + cbn [fst snd] in Hrun.
      destruct (recv_loop_trace fuel (bl - len r) (acc ++ r) (answered d n))
        as (evs & Hevs).
      rewrite Hrun in Hevs. cbn [snd] in Hevs.
      assert (Hd' : trace d' = trace d ++ Readn n (Frame (x :: r)) :: evs).
      { rewrite Hevs. unfold answered. cbn [trace].
        rewrite E, <- app_assoc. reflexivity. }
      rewrite (added_app _ _ _ Hd') in Hall.
      inversion Hall as [|? ? Hw Hrest]; subst.
      simpl in Hw. rewrite len_cons in Hw.
      pose proof (len_nonneg r) as Hr.
      destruct (IH (bl - len r) (acc ++ r) (answered d n) out d')
        as (frames & Ho & Hlen & Hne & Htr); auto.
      { unfold n in Hw. lia. }
      { rewrite (added_app _ _ _ Hevs). exact Hrest. }
      exists ((x :: r) :: frames). simpl. repeat split.
      * rewrite Ho, <- app_assoc. reflexivity.
      * rewrite len_app. lia.
      * constructor; [discriminate | exact Hne].
      * rewrite Htr. unfold answered. cbn [trace].
        rewrite E, <- app_assoc. reflexivity.
    + injection Hrun as <- <-. exfalso.
      rewrite (added_app d (answered d n) [Readn n (rx d (reads d))]) in Hall
        by reflexivity.
      rewrite E in Hall. inversion Hall as [|? ? Hw _]; subst.
      exact Hw.
  - injection Hrun as <- <-. exists []. simpl. rewrite !app_nil_r.
    repeat split; auto. pose proof (Zgt_cases bl 0) as H. rewrite Epos in H.
    unfold len. simpl. lia.
Qed.

(** The receive loop keeps the write side of the handle as it is. *)
Lemma recv_loop_tx (fuel : nat) :
  forall bl acc d,
    tx (snd (Device.recv_loop fuel bl acc d)) = tx d
    /\ writes (snd (Device.recv_loop fuel bl acc d)) = writes d.
Proof.
  induction fuel as [|fuel IH]; intros bl acc d; simpl.
  - destruct (bl >? 0); split; reflexivity.
  - destruct (bl >? 0); [|split; reflexivity].
    unfold bind. rewrite recv_chunk_run.
    destruct (rx d (reads d)) as [[|x r]|]; try (split; reflexivity).
    cbn [fst snd].
    destruct (IH (bl - len r) (acc ++ r) (answered d (Z.min (bl + 1) 254)))
      as [H1 H2].
    rewrite H1, H2. split; reflexivity.
Qed.

(** When no frame from the current read on holds the marker byte alone,
    fuel for [bytes_left] rounds is enough for the loop to end. *)
Lemma recv_loop_ends (fuel : nat) :
  forall bl acc d,
    (forall k b, (reads d <= k)%nat -> rx d k = Frame b -> length b <> 1%nat) ->
    (Z.to_nat bl <= fuel)%nat ->
    fst (Device.recv_loop fuel bl acc d) <> Spin.
Proof.
  induction fuel as [|fuel IH]; intros bl acc d Hrx Hfuel; simpl;
    destruct (bl >? 0) eqn:Epos;
    pose proof (Zgt_cases bl 0) as Hcmp; rewrite Epos in Hcmp;
    try lia; try discriminate.
  unfold bind. rewrite recv_chunk_run.
  destruct (rx d (reads d)) as [[|x r]|] eqn:E; try discriminate.
  cbn [fst snd]. pose proof (len_nonneg r) as Hr.
  assert (Hne : 1 <= len r).
  { apply Hrx in E; [|lia]. unfold len. destruct r; simpl in *; [congruence | lia]. }
  apply IH; [|lia].
  intros k b Hk. apply Hrx. rewrite reads_answered in Hk. lia.
Qed.

(** [file_read] after an accepted header, on a handle that accepts
    every write. *)
Lemma file_read_run (fuel : nat) (path : str) (d : usb)
    (c p h : bytes) (total : Z) :
  accepts d ->
  rx d (reads d) = Frame c ->
  encode_utf8 path = inr p ->
  rx d (S (reads d)) = Frame h ->
  16 <= len h ->
  slice_to h 2 = [x03; x01] ->
  struct_unpack_I (slice h 12 16) = inr total ->
  exists d5,
    trace d5 = trace d ++ header_events c p h ++ [Wrote [x04]]
    /\ rx d5 = rx d
    /\ reads d5 = S (S (reads d))
    /\ Device.file_read fuel path d
       = finish_read (Device.recv_loop fuel total [] d5).
Proof.
  intros Hacc Hc Hp Hh Hlen Htag Htot.
  destruct (file_read_header fuel path d c p h (Hacc _) (Hacc _) Hc Hp Hh)
    as [Ht Hfr].
  exists (wrote (header_read d p) [x04]).
  split; [|split; [reflexivity|split; [reflexivity|]]].
  - rewrite trace_wrote, Ht, <- app_assoc. reflexivity.
  - rewrite Hfr.
    replace ((len h <? 16) || negb (bytes_eqb (slice_to h 2) [x03; x01]))
      with false.
    2:{ symmetry. apply orb_false_iff. split.
        - apply Z.ltb_ge. lia.
        - apply negb_false_iff. now apply bytes_eqb_eq. }
    erewrite bind_ok by (apply lift_ok; exact Htot).
    erewrite bind_ok by (apply device_write_run; unfold header_read; accepted).
    set (d5 := wrote (header_read d p) [x04]).
    pose proof (recv_loop_tx fuel total [] d5) as [Htx Hwr].
    unfold bind at 1.
    destruct (Device.recv_loop fuel total [] d5) as [[data|e|] d6];
      cbn [snd] in Htx, Hwr; cbn [finish_read]; try reflexivity.
    erewrite (bind_ok _ _ _ _ [xff; x00]) by (apply lift_ok; reflexivity).
    erewrite bind_ok
      by (apply device_write_run; rewrite Htx; unfold d5, header_read; accepted).
    erewrite bind_ok
      by (unfold Device.close_service; apply device_write_run;
          rewrite tx_wrote, Htx; unfold d5, header_read; accepted).
    reflexivity.
Qed.

Lemma recv_loop_marker_from (fuel : nat) :
  forall acc d,
    (forall k, (reads d <= k)%nat -> rx d k = Frame [x05]) ->
    fst (Device.recv_loop fuel 1 acc d) = Spin.
Proof.
  induction fuel as [|fuel IH]; intros acc d Hrx; simpl; [reflexivity|].
  unfold bind. rewrite recv_chunk_run, (Hrx _ (le_n _)). cbn [fst snd].
  change (1 - len (@nil byte)) with 1. apply IH.
  intros k Hk. apply Hrx. rewrite reads_answered in Hk. lia.
Qed.

(** C2, counterexample.  Every frame of the loop is non-empty and no
    longer than requested, and the loop ends with all three bytes
    received, but the handle refuses its fourth write: the
    acknowledgment FF 00 raises [USBError], no disconnect marker follows
    and nothing is returned.  And against a device that, on a handle
    that accepts every write, keeps sending the marker byte alone, again
    non-empty and within the two bytes asked for, the loop does not end
    at any fuel. *)
Lemma file_read_no_completion :
  observe (Device.file_read 2 (str_of_string "/a")
             (refusing [[x00]; header_for 3; [x05; x41; x42]; [x05; x43]] 3))
  = (Raise USBError,
     [Wrote [x40; x60]; Readn 512 (Frame [x00]);
      Wrote [x07; x01; x2f; x61; x00];
      Readn 512 (Frame (header_for 3)); Wrote [x04];
      Readn 4 (Frame [x05; x41; x42]); Readn 2 (Frame [x05; x43]);
      Refused [xff; x00]])
  /\ ~ (exists fuel,
          fst (Device.file_read fuel (str_of_string "/a") stalling) <> Spin).
Proof.
  split; [reflexivity|].
  intros (fuel & H). apply H.
  assert (Hacc : accepts stalling) by (intros k; reflexivity).
  assert (Hlen : 16 <= len (header_for 1)) by (vm_compute; discriminate).
  destruct (file_read_run fuel (str_of_string "/a") stalling
              [x00] [x2f; x61] (header_for 1) 1
              Hacc eq_refl eq_refl eq_refl Hlen eq_refl eq_refl)
    as (d5 & _ & Hrx5 & Hreads5 & Hrun).
  rewrite Hrun.
  pose proof (recv_loop_marker_from fuel [] d5) as Hspin.
  destruct (Device.recv_loop fuel 1 [] d5) as [o d6]. cbn [fst] in Hspin.
  rewrite Hspin; [reflexivity|].
  intros k Hk. rewrite Hrx5. rewrite Hreads5 in Hk.
  destruct k as [|[|k]]; [simpl in Hk; lia | simpl in Hk; lia | reflexivity].
Qed.

(** C2, as amended.  In a download over a handle that accepts every
    write, whose header is accepted and announces [total] bytes, if
    every read of the receive loop returns a non-empty frame no longer
    than the [min(bytes_left + 1, 254)] bytes it asked for, then once
    the loop has ended the result is the frames without their first
    byte, in order; its length is [total], so [bytes_left] ended at
    exactly zero; and the calls after the last frame are the write of
    FF 00 and the write of the disconnect marker 04.  The loop does end,
    with fuel for [total] rounds, when in addition no frame of the loop
    holds the marker byte alone: the download then returns that result.
    The reads of the loop are the calls after the first five of the run
    (connection write and read, request, header, begin-transfer byte). *)
Theorem file_read_complete (path : str) (d : usb) (c p h : bytes) (total : Z) :
  accepts d ->
  rx d (reads d) = Frame c ->
  encode_utf8 path = inr p ->
  rx d (S (reads d)) = Frame h ->
  16 <= len h ->
  slice_to h 2 = [x03; x01] ->
  struct_unpack_I (slice h 12 16) = inr total ->
  (forall fuel out d',
     Device.file_read fuel path d = (out, d') ->
     out <> Spin ->
     Forall within_request (skipn 5 (added d d')) ->
     exists frames,
       out = Ok (concat (map (@tl byte) frames))
       /\ Forall (fun f => f <> []) frames
       /\ len (concat (map (@tl byte) frames)) = total
       /\ added d d'
          = header_events c p h ++ [Wrote [x04]] ++ loop_reads total frames
              ++ [Wrote [xff; x00]; Wrote [x04]])
  /\ (forall fuel,
        (Z.to_nat total <= fuel)%nat ->
        (forall k b, (2 + reads d <= k)%nat -> rx d k = Frame b ->
                     length b <> 1%nat) ->
        Forall within_request
          (skipn 5 (added d (snd (Device.file_read fuel path d)))) ->
        exists frames d',
          Device.file_read fuel path d = (Ok (concat (map (@tl byte) frames)), d')
          /\ Forall (fun f => f <> []) frames
          /\ len (concat (map (@tl byte) frames)) = total
          /\ added d d'
             = header_events c p h ++ [Wrote [x04]] ++ loop_reads total frames
                 ++ [Wrote [xff; x00]; Wrote [x04]]).
Proof.
  intros Hacc Hc Hp Hh Hlen Htag Htot.
  assert (Hpart : forall fuel out d',
     Device.file_read fuel path d = (out, d') ->
     out <> Spin ->
     Forall within_request (skipn 5 (added d d')) ->
     exists frames,
       out = Ok (concat (map (@tl byte) frames))
       /\ Forall (fun f => f <> []) frames
       /\ len (concat (map (@tl byte) frames)) = total
       /\ added d d'
          = header_events c p h ++ [Wrote [x04]] ++ loop_reads total frames
              ++ [Wrote [xff; x00]; Wrote [x04]]).
  { intros fuel out d' Hrun Hout Hall.
    destruct (file_read_run fuel path d c p h total Hacc Hc Hp Hh Hlen Htag Htot)
      as (d5 & Ht5 & _ & _ & Hfr).
    rewrite Hfr in Hrun. clear Hfr.
    destruct (recv_loop_trace fuel total [] d5) as (evs & Hevs).
    destruct (Device.recv_loop fuel total [] d5) as [o d6] eqn:Eloop.
    cbn [snd] in Hevs.
    assert (Hloop : o <> Spin ->
                    Forall within_request evs ->
                    exists frames,
                      o = Ok (concat (map (@tl byte) frames))
                      /\ len (concat (map (@tl byte) frames)) = total
                      /\ Forall (fun f => f <> []) frames
                      /\ evs = loop_reads total frames).
    { intros Ho Hev.
      destruct (recv_loop_within fuel total [] d5 o d6) as (fs & H1 & H2 & H3 & H4);
        auto.
      - eapply struct_unpack_I_nonneg; eauto.
      - rewrite (added_app _ _ _ Hevs). exact Hev.
      - exists fs. repeat split; auto.
        rewrite Hevs in H4. now apply app_inv_head in H4. }
    destruct o as [data|e|]; cbn [finish_read] in Hrun.
    - injection Hrun as <- <-.
      assert (Hd' : added d (wrote (wrote d6 [xff; x00]) [x04])
                    = header_events c p h ++ [Wrote [x04]] ++ evs
                        ++ [Wrote [xff; x00]; Wrote [x04]]).
      { apply added_app. rewrite !trace_wrote, Hevs, Ht5, <- !app_assoc.
        reflexivity. }
      rewrite Hd' in Hall |- *.
      change (skipn 5 (header_events c p h ++ [Wrote [x04]] ++ evs
                         ++ [Wrote [xff; x00]; Wrote [x04]]))
        with (evs ++ [Wrote [xff; x00]; Wrote [x04]]) in Hall.
      apply Forall_app in Hall as [Hev _].
      destruct Hloop as (fs & H1 & H2 & H3 & H4); [discriminate | exact Hev |].
      exists fs. rewrite <- H4. repeat split; auto.
    - injection Hrun as <- <-. exfalso.
      assert (Hd' : added d d6 = header_events c p h ++ [Wrote [x04]] ++ evs).
      { apply added_app. rewrite Hevs, Ht5, <- !app_assoc. reflexivity. }
      rewrite Hd' in Hall.
      change (skipn 5 (header_events c p h ++ [Wrote [x04]] ++ evs))
        with evs in Hall.
      destruct Hloop as (fs & H1 & _); [discriminate | exact Hall | discriminate].
    - injection Hrun as <- <-. congruence. }
  split; [exact Hpart|].
  intros fuel Hfuel Hdata Hall.
  destruct (Device.file_read fuel path d) as [out d'] eqn:Hrun.
  cbn [snd] in Hall.
  assert (Hout : out <> Spin).
  { destruct (file_read_run fuel path d c p h total Hacc Hc Hp Hh Hlen Htag Htot)
      as (d5 & _ & Hrx5 & Hreads5 & Hfr).
    rewrite Hfr in Hrun.
    pose proof (recv_loop_ends fuel total [] d5) as Hend.
    destruct (Device.recv_loop fuel total [] d5) as [[data|e|] d6];
      cbn [finish_read] in Hrun; injection Hrun as <- _; try discriminate.
    exfalso. apply Hend; [|exact Hfuel|reflexivity].
    intros k b Hk. rewrite Hrx5. rewrite Hreads5 in Hk. apply Hdata. lia. }
  destruct (Hpart fuel out d' Hrun Hout Hall) as (frames & -> & H1 & H2 & H3).
  exists frames, d'. repeat split; auto.
Qed.

Lemma file_read_complete_witness :
  accepts (scripted [[x00]; header_for 3; [x05; x41; x42]; [x05; x43]])
  /\ 16 <= len (header_for 3)
  /\ (Z.to_nat 3 <= 3)%nat
  /\ Forall within_request
       (skipn 5 (added (scripted [[x00]; header_for 3; [x05; x41; x42]; [x05; x43]])
                   (snd (Device.file_read 3 (str_of_string "/a")
                           (scripted [[x00]; header_for 3; [x05; x41; x42]; [x05; x43]])))))
  /\ exists frames d',
       Device.file_read 3 (str_of_string "/a")
         (scripted [[x00]; header_for 3; [x05; x41; x42]; [x05; x43]])
       = (Ok (concat (map (@tl byte) frames)), d')
       /\ Forall (fun f => f <> []) frames
       /\ len (concat (map (@tl byte) frames)) = 3
       /\ added (scripted [[x00]; header_for 3; [x05; x41; x42]; [x05; x43]]) d'
          = header_events [x00] [x2f; x61] (header_for 3) ++ [Wrote [x04]]
              ++ loop_reads 3 frames ++ [Wrote [xff; x00]; Wrote [x04]].
Proof.
  assert (Hacc : accepts (scripted [[x00]; header_for 3; [x05; x41; x42]; [x05; x43]]))
    by apply accepts_scripted.
  assert (Hlen : 16 <= len (header_for 3)) by (vm_compute; discriminate).
  assert (Hfuel : (Z.to_nat 3 <= 3)%nat) by (vm_compute; repeat constructor).
  assert (Hall : Forall within_request
    (skipn 5 (added (scripted [[x00]; header_for 3; [x05; x41; x42]; [x05; x43]])
                (snd (Device.file_read 3 (str_of_string "/a")
                        (scripted [[x00]; header_for 3; [x05; x41; x42]; [x05; x43]])))))).
  { vm_compute. repeat constructor; discriminate. }
  split; [exact Hacc|]. split; [exact Hlen|]. split; [exact Hfuel|].
  split; [exact Hall|].
  destruct (file_read_complete (str_of_string "/a")
              (scripted [[x00]; header_for 3; [x05; x41; x42]; [x05; x43]])
              [x00] [x2f; x61] (header_for 3) 3
              Hacc eq_refl eq_refl eq_refl Hlen eq_refl eq_refl) as [_ Htotal].
  apply (Htotal 3%nat Hfuel); [|exact Hall].
  intros [|[|[|[|[|k]]]]] b Hk; unfold scripted, script in *; simpl in *;
    try lia; try discriminate; intros [= <-]; simpl; discriminate.
Defined.

(** C6, counterexample.  A frame that holds only the marker byte is a
    chunk step at which the count of transferred bytes does not grow:
    one byte was received before the step and one after it. *)
Lemma recv_chunk_no_progress :
  fst (Device.recv_chunk 3 [x41] marker_only) = Ok (3, [x41])
  /\ ~ (forall st, fst (Device.recv_chunk 3 [x41] marker_only) = Ok st ->
                   len [x41] < len (snd st)).
Proof.
  split; [reflexivity|].
  intros H. specialize (H (3, [x41]) eq_refl). vm_compute in H. discriminate.
Qed.

(** One round of the chunk loop of [file_write]: a chunk of at least
    one byte is written and, when the write is accepted, [offset] moves
    forward by its length, never past the end of the content, where the
    loop ends; a refused write ends the upload with its [USBError]. *)
Lemma send_chunks_step (fuel : nat) (file_content : bytes) (offset : Z) (d : usb) :
  0 <= offset < len file_content ->
  (tx d (writes d) = true ->
   Device.send_chunks (S fuel) file_content offset d
   = Device.send_chunks fuel file_content
       (offset + len (slice file_content offset (offset + 253)))
       (wrote d (x05 :: slice file_content offset (offset + 253))))
  /\ (tx d (writes d) = false ->
      Device.send_chunks (S fuel) file_content offset d
      = (Raise USBError,
         refused d (x05 :: slice file_content offset (offset + 253))))
  /\ offset < offset + len (slice file_content offset (offset + 253))
             <= len file_content
  /\ Device.send_chunks fuel file_content (len file_content) d = (Ok tt, d).
Proof.
  intros H. split; [|split; [|split]].
  - intros Hw. cbn [Device.send_chunks].
    replace (offset <? len file_content) with true
      by (symmetry; apply Z.ltb_lt; lia).
    erewrite bind_ok by (apply device_write_run; exact Hw). reflexivity.
  - intros Hw. cbn [Device.send_chunks].
    replace (offset <? len file_content) with true
      by (symmetry; apply Z.ltb_lt; lia).
    erewrite bind_raise by (apply device_write_refused; exact Hw). reflexivity.
  - rewrite slice_len by lia. lia.
  - assert (E : (len file_content <? len file_content) = false)
      by apply Z.ltb_irrefl.
    destruct fuel; simpl; rewrite E; reflexivity.
Qed.

(** C6, as amended.  At a chunk step of a download the count of
    transferred bytes grows by the length of the frame without its
    marker byte: it never decreases, and it strictly increases exactly
    when the frame carries at least one data byte.  When the loop
    completes and no frame was longer than requested, the count equals
    the announced total.  A zero-length read while bytes remain raises
    "Unexpected timeout during file read." and no data is returned.
    At a chunk step of an upload the chunk holds at least one byte and
    does not pass the length of the content, at which the loop ends;
    when its write is accepted the offset strictly increases by the
    length of the chunk, and when its write is refused the upload ends
    with the [USBError] of that write. *)
Theorem transferred_progress (fuel : nat) (bl : Z) (acc : bytes) (d : usb)
    (file_content : bytes) (offset : Z) :
  0 <= bl ->
  (forall st d1,
      Device.recv_chunk bl acc d = (Ok st, d1) ->
      exists f,
        rx d (reads d) = Frame f
        /\ len (snd st) = len acc + (len f - 1)
        /\ fst st = bl - (len f - 1)
        /\ len acc <= len (snd st)
        /\ (len acc < len (snd st) <-> 2 <= len f))
  /\ (forall data d',
         Device.recv_loop fuel bl acc d = (Ok data, d') ->
         Forall within_request (added d d') ->
         len data = len acc + bl)
  /\ (0 < bl -> rx d (reads d) = Frame [] ->
      fst (Device.recv_loop (S fuel) bl acc d)
      = Raise (Exception "Unexpected timeout during file read."))
  /\ (0 <= offset < len file_content ->
      (tx d (writes d) = true ->
       Device.send_chunks (S fuel) file_content offset d
       = Device.send_chunks fuel file_content
           (offset + len (slice file_content offset (offset + 253)))
           (wrote d (x05 :: slice file_content offset (offset + 253))))
      /\ (tx d (writes d) = false ->
          Device.send_chunks (S fuel) file_content offset d
          = (Raise USBError,
             refused d (x05 :: slice file_content offset (offset + 253))))
      /\ offset < offset + len (slice file_content offset (offset + 253))
                 <= len file_content
      /\ Device.send_chunks fuel file_content (len file_content) d = (Ok tt, d)).
Proof.
  intros Hbl. split; [|split; [|split]].
  - intros st d1 Hrun. rewrite recv_chunk_run in Hrun.
    destruct (rx d (reads d)) as [[|x r]|]; try discriminate.
    injection Hrun as <- _. exists (x :: r). cbn [fst snd].
    rewrite len_app, len_cons. pose proof (len_nonneg r).
    repeat split; lia.
  - intros data d' Hrun Hall.
    destruct (recv_loop_within fuel bl acc d (Ok data) d' Hbl Hrun)
      as (fs & Ho & Hlen & _); [discriminate | exact Hall |].
    injection Ho as ->. rewrite len_app. lia.
  - intros Hpos Hempty. simpl.
    replace (bl >? 0) with true by (symmetry; apply Z.gtb_lt; lia).
    unfold bind. rewrite recv_chunk_run, Hempty. reflexivity.
  - apply send_chunks_step.
Qed.

Lemma transferred_progress_witness :
  0 <= 3
  /\ (exists f,
        rx (scripted [[x05; x41; x42]; [x05; x43]]) 0%nat = Frame f
        /\ len [x41; x42] = len (@nil byte) + (len f - 1)
        /\ 1 = 3 - (len f - 1)
        /\ len (@nil byte) <= len [x41; x42]
        /\ (len (@nil byte) < len [x41; x42] <-> 2 <= len f))
  /\ len [x41; x42; x43] = len (@nil byte) + 3
  /\ fst (Device.recv_loop 1 3 [] (scripted [[]]))
     = Raise (Exception "Unexpected timeout during file read.")
  /\ 0 < 0 + len (slice [x41; x42] 0 (0 + 253)) <= len [x41; x42].
Proof.
  assert (H0 : 0 <= 3) by lia.
  split; [exact H0|].
  destruct (transferred_progress 2 3 [] (scripted [[x05; x41; x42]; [x05; x43]])
              [x41; x42] 0 H0)
    as (Hstep & Hdone & _ & Hup).
  destruct (transferred_progress 0 3 [] (scripted [[]]) [] 0 H0)
    as (_ & _ & Hstall & _).
  split; [|split; [|split]].
  - apply (Hstep (1, [x41; x42]) _ eq_refl).
  - eapply (Hdone [x41; x42; x43]); [reflexivity|].
    vm_compute. repeat constructor; discriminate.
  - apply Hstall; [lia | reflexivity].
  - apply Hup. vm_compute. split; [discriminate | reflexivity].
Defined.

(* ------------------------------------------------------------------ *)
(** ** Termination of the receive loop *)

Lemma recv_loop_marker_only (fuel : nat) :
  forall acc d,
    (forall k, rx d k = Frame [x05]) ->
    fst (Device.recv_loop fuel 1 acc d) = Spin.
Proof.
  induction fuel as [|fuel IH]; intros acc d Hrx; simpl; [reflexivity|].
  unfold bind. rewrite recv_chunk_run, Hrx. cbn [fst snd].
  change (1 - len (@nil byte)) with 1. apply IH.
  intros k. apply Hrx.
Qed.

(** C10, counterexample.  Against a device that answers every read with
    the non-empty one-byte frame 05, the receive loop with one byte left
    is still running after any number of rounds. *)
Lemma recv_loop_nonterminating :
  (forall k, exists b, rx marker_only k = Frame b /\ b <> [])
  /\ ~ (exists fuel, fst (Device.recv_loop fuel 1 [] marker_only) <> Spin).
Proof.
  split.
  - intros k. exists [x05]. split; [reflexivity | discriminate].
  - intros (fuel & H). apply H. apply recv_loop_marker_only. reflexivity.
Qed.

(** C10, as amended.  For every transport in which no receive call
    returns a one-byte frame, so that every frame carries at least one
    data byte, the receive loop terminates: after at most [bytes_left]
    reads it has left the loop or raised an error. *)
Theorem recv_loop_terminates (fuel : nat) (bl : Z) (acc : bytes) (d : usb) :
  (forall k b, rx d k = Frame b -> length b <> 1%nat) ->
  (Z.to_nat bl <= fuel)%nat ->
  exists out d',
    Device.recv_loop fuel bl acc d = (out, d')
    /\ out <> Spin
    /\ (reads d' <= reads d + Z.to_nat bl)%nat.
Proof.
  revert bl acc d.
  induction fuel as [|fuel IH]; intros bl acc d Hrx Hfuel; simpl;
    destruct (bl >? 0) eqn:Epos;
    pose proof (Zgt_cases bl 0) as Hcmp; rewrite Epos in Hcmp;
    try lia;
    try (exists (Ok acc), d; repeat split; [discriminate | lia]).
  unfold bind. rewrite recv_chunk_run.
  destruct (rx d (reads d)) as [[|x r]|] eqn:E.
  - eexists _, _. repeat split; [discriminate | simpl; lia].
  - cbn [fst snd]. pose proof (len_nonneg r) as Hr.
    assert (Hne : 1 <= len r).
    { apply Hrx in E. unfold len. destruct r; simpl in *; [congruence | lia]. }
    destruct (IH (bl - len r) (acc ++ r) (answered d (Z.min (bl + 1) 254)))
      as (out & d' & Hrun & Hout & Hreads).
    + intros k b. apply Hrx.
    + lia.
    + exists out, d'. repeat split; auto. simpl in Hreads. lia.
  - eexists _, _. repeat split; [discriminate | simpl; lia].
Qed.

Lemma recv_loop_terminates_witness :
  (forall k b, rx (scripted [[x05; x41; x42]; [x05; x43]]) k = Frame b ->
               length b <> 1%nat)
  /\ (Z.to_nat 3 <= 3)%nat
  /\ exists out d',
       Device.recv_loop 3 3 [] (scripted [[x05; x41; x42]; [x05; x43]]) = (out, d')
       /\ out <> Spin
       /\ (reads d' <= reads (scripted [[x05; x41; x42]; [x05; x43]]) + Z.to_nat 3)%nat.
Proof.
  assert (Hrx : forall k b,
             rx (scripted [[x05; x41; x42]; [x05; x43]]) k = Frame b ->
             length b <> 1%nat).
  { intros [|[|[|k]]] b; simpl; try discriminate;
      intros [= <-]; simpl; discriminate. }
  assert (Hfuel : (Z.to_nat 3 <= 3)%nat) by (vm_compute; repeat constructor).
  split; [exact Hrx|]. split; [exact Hfuel|].
  apply (recv_loop_terminates 3 3 [] _ Hrx Hfuel).
Defined.

(* ================================================================== *)
(** * File upload *)
(* ================================================================== *)

Lemma struct_pack_I_ok (n : Z) :
  0 <= n <= 0xFFFFFFFF -> exists s, struct_pack_I n = inr s.
Proof.
  intros H. unfold struct_pack_I.
  replace ((0 <=? n) && (n <=? 4294967295)) with true.
  - eexists. reflexivity.
  - symmetry. apply andb_true_iff. split; apply Z.leb_le; lia.
Qed.

(** The chunk loop from chunk [i] on, when [n] chunks remain: it writes
    the chunks [i], [i+1], ..., [i+n-1], each behind the marker 05, and
    nothing else. *)
Lemma send_chunks_run (n : nat) :
  forall fuel i file_content d,
    accepts d ->
    (n <= fuel)%nat ->
    len file_content <= 253 * Z.of_nat (i + n) ->
    (n <> 0%nat -> 253 * Z.of_nat (i + n) - 253 < len file_content) ->
    Device.send_chunks fuel file_content
      (Z.min (253 * Z.of_nat i) (len file_content)) d
    = (Ok tt, after d 0 n (map (chunk_write file_content) (seq i n))).
Proof.
  induction n as [|n IH]; intros fuel i content d Hacc Hfuel Hup Hlow.
  - rewrite Nat.add_0_r in Hup. rewrite Z.min_r by lia.
    assert (E : (len content <? len content) = false) by apply Z.ltb_irrefl.
    cbn [seq map]. rewrite after_nil.
    destruct fuel; simpl; rewrite E; reflexivity.
  - destruct fuel as [|fuel]; [lia|].
    specialize (Hlow ltac:(discriminate)).
    rewrite Z.min_l by lia. cbn [Device.send_chunks].
    replace (253 * Z.of_nat i <? len content) with true
      by (symmetry; apply Z.ltb_lt; lia).
    erewrite bind_ok by (apply device_write_run; apply Hacc).
    replace (253 * Z.of_nat i
             + len (slice content (253 * Z.of_nat i) (253 * Z.of_nat i + 253)))
      with (Z.min (253 * Z.of_nat (S i)) (len content))
      by (rewrite slice_len by lia; lia).
    rewrite IH.
    + rewrite wrote_is_after, after_after. reflexivity.
    + now apply accepts_wrote.
    + lia.
    + lia.
    + intros _. lia.
Qed.

(** The fuel that [file_write] gives the chunk loop is always enough:
    on a handle that accepts the writes, the loop ends after the chunks
    of the whole content. *)
Lemma send_chunks_total (file_content : bytes) (d : usb) :
  accepts d ->
  Device.send_chunks (length file_content) file_content 0 d
  = (Ok tt, after d 0 (Z.to_nat ((len file_content + 252) / 253))
              (map (chunk_write file_content)
                 (seq 0 (Z.to_nat ((len file_content + 252) / 253))))).
Proof.
  intros Hacc. pose proof (len_nonneg file_content) as Hnn.
  replace 0 with (Z.min (253 * Z.of_nat 0) (len file_content)) at 1
    by (simpl; lia).
  apply send_chunks_run; [exact Hacc | unfold len in *..].
  - apply Nat2Z.inj_le. rewrite Z2Nat.id by (apply Z.div_pos; lia).
    apply Z.lt_succ_r. apply Z.div_lt_upper_bound; lia.
  - rewrite Nat.add_0_l, Z2Nat.id by (apply Z.div_pos; lia).
    pose proof (Z.mul_succ_div_gt (Z.of_nat (length file_content) + 252) 253).
    lia.
  - intros _. rewrite Nat.add_0_l, Z2Nat.id by (apply Z.div_pos; lia).
    pose proof (Z.mul_div_le (Z.of_nat (length file_content) + 252) 253).
    lia.
Qed.

(** [file_write] up to the response to the init frame. *)
Lemma file_write_init (path : str) (file_content : bytes) (d : usb)
    (c p resp size : bytes) :
  tx d (writes d) = true ->
  tx d (S (writes d)) = true ->
  encode_utf8 path = inr p ->
  struct_pack_I (len file_content) = inr size ->
  rx d (reads d) = Frame c ->
  rx d (S (reads d)) = Frame resp ->
  exists d4,
    d4 = after d 2 2 (init_events c ([x03; x01] ++ (p ++ [x00]) ++ size) resp)
    /\ Device.file_write path file_content d
       = (r0 <- lift (index resp 0) ;;
          if negb (Byte.eqb r0 x04) then
            raise (Exception "Invalid response on file write initialization.")
          else
            Device.send_chunks (length file_content) file_content 0 ;;
            final_response <- Device.read 512 ;;
            if negb (bytes_eqb (slice_from final_response (-2)) [xff; x00]) then
              raise (Exception "File upload failed or not confirmed by device.")
            else
              Device.close_service) d4.
Proof.
  intros Hw0 Hw1 Hp Hsize Hc Hr.
  eexists. split; [reflexivity|].
  unfold Device.file_write.
  erewrite bind_ok by (eapply connect_service_run; eauto).
  erewrite bind_ok by (apply lift_ok; exact Hsize).
  erewrite bind_ok.
  2:{ apply lift_ok. unfold Device.build_packet. rewrite Hp. reflexivity. }
  erewrite bind_ok by (apply device_write_run; accepted).
  erewrite bind_ok by (apply device_read_frame; simpl; exact Hr).
  f_equal.
  rewrite (wrote_is_after d), answered_after, wrote_after, answered_after.
  apply after_eq; [reflexivity | reflexivity |].
  rewrite Nat.add_0_r, Nat.add_1_r, Hc, Hr. reflexivity.
Qed.

(** [file_write] up to the read of the final response, when the init
    frame was accepted and the handle accepts every write. *)
Lemma file_write_sent (path : str) (file_content : bytes) (d : usb)
    (c p r : bytes) :
  accepts d ->
  encode_utf8 path = inr p ->
  len file_content <= 0xFFFFFFFF ->
  rx d (reads d) = Frame c ->
  rx d (S (reads d)) = Frame (x04 :: r) ->
  exists size d5,
    struct_pack_I (len file_content) = inr size
    /\ d5 = after d 2 (2 + n_chunks file_content)
              (init_events c ([x03; x01] ++ (p ++ [x00]) ++ size) (x04 :: r)
               ++ map (fun i => Wrote (x05 :: chunk_payload file_content i))
                    (seq 0 (n_chunks file_content)))
    /\ Device.file_write path file_content d
       = (final_response <- Device.read 512 ;;
          if negb (bytes_eqb (slice_from final_response (-2)) [xff; x00]) then
            raise (Exception "File upload failed or not confirmed by device.")
          else
            Device.close_service) d5.
Proof.
  intros Hacc Hp Hmax Hc Hr. pose proof (len_nonneg file_content).
  destruct (struct_pack_I_ok (len file_content)) as (size & Hsize); [lia|].
  destruct (file_write_init path file_content d c p (x04 :: r) size
              (Hacc _) (Hacc _) Hp Hsize Hc Hr)
    as (d4 & Hd4 & Hrun).
  exists size. eexists. split; [exact Hsize|]. split; [reflexivity|].
  rewrite Hrun.
  erewrite (bind_ok _ _ _ _ x04) by (apply lift_ok; reflexivity).
  change (negb (Byte.eqb x04 x04)) with false. cbv iota.
  erewrite bind_ok
    by (apply send_chunks_total; rewrite Hd4; now apply accepts_after).
  rewrite Hd4, after_after. reflexivity.
Qed.

(** The final response of [file_write] on a handle that accepts every
    write. *)
Lemma file_write_final (d5 : usb) :
  accepts d5 ->
  (final_response <- Device.read 512 ;;
   if negb (bytes_eqb (slice_from final_response (-2)) [xff; x00]) then
     raise (Exception "File upload failed or not confirmed by device.")
   else
     Device.close_service) d5
  = match rx d5 (reads d5) with
    | Frame fin =>
        if negb (bytes_eqb (slice_from fin (-2)) [xff; x00]) then
          (Raise (Exception "File upload failed or not confirmed by device."),
           answered d5 512)
        else (Ok tt, wrote (answered d5 512) [x04])
    | Fault => (Raise USBError, answered d5 512)
    end.
Proof.
  intros Hacc. unfold bind, Device.read, device_read.
  fold (answered d5 512).
  destruct (rx d5 (reads d5)) as [fin|]; [|reflexivity].
  destruct (negb (bytes_eqb (slice_from fin (-2)) [xff; x00])); [reflexivity|].
  unfold Device.close_service. apply device_write_run. accepted.
Qed.

Lemma n_chunks_exact (file_content : bytes) (k : nat) (t : Z) :
  t = 0 \/ t = 1 ->
  len file_content = 253 * Z.of_nat k + t ->
  n_chunks file_content = (k + Z.to_nat t)%nat.
Proof.
  intros Ht Hlen. unfold n_chunks. rewrite Hlen.
  replace (253 * Z.of_nat k + t + 252) with (t + 252 + Z.of_nat k * 253) by lia.
  rewrite Z.div_add by lia.
  assert (Hq : (t + 252) / 253 = t)
    by (destruct Ht as [-> | ->]; reflexivity).
  rewrite Hq. lia.
Qed.

(** C3.  On a handle that accepts every write, an upload of 253k
    bytes sends exactly k chunk frames, each the marker 05 followed by
    the next 253 bytes of the content, in order, and the next call is
    the read of the final response; an upload of 253k+1 bytes sends
    those k frames and one more with the single last byte; an upload of
    no bytes sends no chunk frame between the read of the init response
    and the read of the final response. *)
Theorem file_write_chunks (k : nat) (t : Z) (path : str) (file_content : bytes)
    (d : usb) (c r p : bytes) :
  accepts d ->
  t = 0 \/ t = 1 ->
  len file_content = 253 * Z.of_nat k + t ->
  len file_content <= 0xFFFFFFFF ->
  encode_utf8 path = inr p ->
  rx d (reads d) = Frame c ->
  rx d (S (reads d)) = Frame (x04 :: r) ->
  exists size rest,
    struct_pack_I (len file_content) = inr size
    /\ added d (snd (Device.file_write path file_content d))
       = [Wrote [x40; x60]; Readn 512 (Frame c);
          Wrote ([x03; x01] ++ (p ++ [x00]) ++ size);
          Readn 512 (Frame (x04 :: r))]
         ++ map (chunk_write file_content) (seq 0 (k + Z.to_nat t))
         ++ Readn 512 (rx d (S (S (reads d)))) :: rest
    /\ (rest = [] \/ rest = [Wrote [x04]])
    /\ (forall i, (i < k)%nat ->
          len (slice file_content (253 * Z.of_nat i) (253 * Z.of_nat i + 253)) = 253)
    /\ (t = 1 ->
          len (slice file_content (253 * Z.of_nat k) (253 * Z.of_nat k + 253)) = 1).
Proof.
  intros Hacc Ht Hlen Hmax Hp Hc Hr.
  pose proof (len_nonneg file_content) as Hnn.
  destruct (file_write_sent path file_content d c p r Hacc Hp Hmax Hc Hr)
    as (size & d5 & Hsize & Hd5 & Hrun).
  rewrite (n_chunks_exact file_content k t Ht Hlen) in Hd5.
  assert (Hread : rx d5 (reads d5) = rx d (S (S (reads d))))
    by (rewrite Hd5, rx_after, reads_after; f_equal; lia).
  exists size.
  assert (Hrest : exists rest,
             added d (snd (Device.file_write path file_content d))
             = ([Wrote [x40; x60]; Readn 512 (Frame c);
                 Wrote ([x03; x01] ++ (p ++ [x00]) ++ size);
                 Readn 512 (Frame (x04 :: r))]
                ++ map (chunk_write file_content) (seq 0 (k + Z.to_nat t)))
               ++ Readn 512 (rx d (S (S (reads d)))) :: rest
             /\ (rest = [] \/ rest = [Wrote [x04]])).
  { rewrite Hrun, file_write_final by (rewrite Hd5; now apply accepts_after).
    rewrite Hread.
    destruct (rx d (S (S (reads d)))) as [fin|].
    - destruct (negb (bytes_eqb (slice_from fin (-2)) [xff; x00])).
      + exists []. split; [|now left]. apply added_app.
        cbn [snd]. rewrite trace_answered, Hread, Hd5, trace_after.
        rewrite <- !app_assoc. reflexivity.
      + exists [Wrote [x04]]. split; [|now right]. apply added_app.
        cbn [snd]. rewrite trace_wrote, trace_answered, Hread, Hd5, trace_after.
        rewrite <- !app_assoc. reflexivity.
    - exists []. split; [|now left]. apply added_app.
      cbn [snd]. rewrite trace_answered, Hread, Hd5, trace_after.
      rewrite <- !app_assoc. reflexivity. }
  destruct Hrest as (rest & Hadd & Hcases).
  exists rest. split; [exact Hsize|]. split.
  { rewrite Hadd, <- app_assoc. reflexivity. }
  split; [exact Hcases|]. split.
  - intros i Hi. rewrite slice_len by lia. lia.
  - intros ->. rewrite slice_len by lia. lia.
Qed.

Lemma file_write_chunks_witness :
  accepts (scripted [[x00]; [x04]; [xff; x00]])
  /\ (1 = 0 \/ 1 = 1)
  /\ len (repeat x41 253 ++ [x42]) = 253 * Z.of_nat 1 + 1
  /\ (exists size rest,
        struct_pack_I (len (repeat x41 253 ++ [x42])) = inr size
        /\ added (scripted [[x00]; [x04]; [xff; x00]])
             (snd (Device.file_write (str_of_string "/a") (repeat x41 253 ++ [x42])
                     (scripted [[x00]; [x04]; [xff; x00]])))
           = [Wrote [x40; x60]; Readn 512 (Frame [x00]);
              Wrote ([x03; x01] ++ ([x2f; x61] ++ [x00]) ++ size);
              Readn 512 (Frame [x04])]
             ++ map (chunk_write (repeat x41 253 ++ [x42])) (seq 0 (1 + Z.to_nat 1))
             ++ Readn 512 (rx (scripted [[x00]; [x04]; [xff; x00]]) 2%nat) :: rest
        /\ (rest = [] \/ rest = [Wrote [x04]])
        /\ (forall i, (i < 1)%nat ->
              len (slice (repeat x41 253 ++ [x42])
                     (253 * Z.of_nat i) (253 * Z.of_nat i + 253)) = 253)
        /\ (1 = 1 ->
              len (slice (repeat x41 253 ++ [x42])
                     (253 * Z.of_nat 1) (253 * Z.of_nat 1 + 253)) = 1))
  /\ (exists size rest,
        struct_pack_I (len (@nil byte)) = inr size
        /\ added (scripted [[x00]; [x04]; [xff; x00]])
             (snd (Device.file_write (str_of_string "/a") []
                     (scripted [[x00]; [x04]; [xff; x00]])))
           = [Wrote [x40; x60]; Readn 512 (Frame [x00]);
              Wrote ([x03; x01] ++ ([x2f; x61] ++ [x00]) ++ size);
              Readn 512 (Frame [x04])]
             ++ map (chunk_write []) (seq 0 (0 + Z.to_nat 0))
             ++ Readn 512 (rx (scripted [[x00]; [x04]; [xff; x00]]) 2%nat) :: rest
        /\ (rest = [] \/ rest = [Wrote [x04]])
        /\ (forall i, (i < 0)%nat ->
              len (slice (@nil byte) (253 * Z.of_nat i) (253 * Z.of_nat i + 253)) = 253)
        /\ (0 = 1 ->
              len (slice (@nil byte) (253 * Z.of_nat 0) (253 * Z.of_nat 0 + 253)) = 1)).
Proof.
  assert (Hacc : accepts (scripted [[x00]; [x04]; [xff; x00]]))
    by apply accepts_scripted.
  split; [exact Hacc|].
  split; [right; reflexivity|]. split; [reflexivity|]. split.
  - eapply (file_write_chunks 1 1 (str_of_string "/a") (repeat x41 253 ++ [x42])
              (scripted [[x00]; [x04]; [xff; x00]]) [x00] [] [x2f; x61] Hacc);
      [ right; reflexivity | reflexivity | vm_compute; discriminate
      | reflexivity | reflexivity | reflexivity ].
  - eapply (file_write_chunks 0 0 (str_of_string "/a") []
              (scripted [[x00]; [x04]; [xff; x00]]) [x00] [] [x2f; x61] Hacc);
      [ left; reflexivity | reflexivity | vm_compute; discriminate
      | reflexivity | reflexivity | reflexivity ].
Defined.

(* ================================================================== *)
(** * Directory listing *)
(* ================================================================== *)

Lemma list_connect_service_run (d : usb) (c : bytes) :
  tx d (writes d) = true ->
  rx d (reads d) = Frame c ->
  ListFiles.connect_service d = (Ok tt, answered (wrote d [x40; x60]) 512).
Proof.
  intros Hw H. unfold ListFiles.connect_service.
  erewrite bind_ok by (apply lift_ok; reflexivity).
  erewrite bind_ok by (apply device_write_run; exact Hw).
  erewrite bind_ok by (apply device_read_frame; simpl; exact H).
  reflexivity.
Qed.

(** A round of the listing loop that receives an entry. *)
Lemma next_entries_entry (fuel : nat) (files : list ListFiles.entry)
    (d : usb) (f : bytes) (e : ListFiles.entry) :
  tx d (writes d) = true ->
  rx d (reads d) = Frame f ->
  entry_frame f e ->
  ListFiles.next_entries (S fuel) files d
  = ListFiles.next_entries fuel (files ++ [e]) (answered (wrote d [x0e]) 512).
Proof.
  intros Hw Hrx [(b & r & -> & Hb) Hdec]. cbn [ListFiles.next_entries].
  erewrite bind_ok by (apply device_write_run; exact Hw).
  erewrite bind_ok by (apply device_read_frame; simpl; exact Hrx).
  erewrite (bind_ok _ _ _ _ b) by (apply lift_ok; reflexivity).
  replace (Byte.eqb b xff) with false.
  - erewrite bind_ok by (apply lift_ok; exact Hdec). reflexivity.
  - symmetry. destruct (Byte.eqb b xff) eqn:E; [|reflexivity].
    apply Byte.byte_dec_bl in E. contradiction.
Qed.

(** The round of the listing loop that receives the end marker. *)
Lemma next_entries_end (fuel : nat) (files : list ListFiles.entry)
    (d : usb) (fin : bytes) :
  tx d (writes d) = true ->
  rx d (reads d) = Frame (xff :: fin) ->
  ListFiles.next_entries (S fuel) files d
  = (Ok files, answered (wrote d [x0e]) 512).
Proof.
  intros Hw Hrx. cbn [ListFiles.next_entries].
  erewrite bind_ok by (apply device_write_run; exact Hw).
  erewrite bind_ok by (apply device_read_frame; simpl; exact Hrx).
  erewrite (bind_ok _ _ _ _ xff) by (apply lift_ok; reflexivity).
  reflexivity.
Qed.

(** C4.  On a handle that accepts every write, when the device, after
    the answer to the connection and the acknowledgment of the list
    command, sends three frames that decode to entries and then a frame
    that starts with FF, [list_directory] returns exactly those three
    entries in the order received, and the next-entry request 0E was
    written exactly four times. *)
Theorem list_directory_three (fuel : nat) (path : str) (d : usb)
    (p c a f1 f2 f3 fin : bytes) (e1 e2 e3 : ListFiles.entry) :
  accepts d ->
  encode_utf8 path = inr p ->
  rx d (reads d) = Frame c ->
  rx d (1 + reads d)%nat = Frame a ->
  rx d (2 + reads d)%nat = Frame f1 ->
  rx d (3 + reads d)%nat = Frame f2 ->
  rx d (4 + reads d)%nat = Frame f3 ->
  rx d (5 + reads d)%nat = Frame (xff :: fin) ->
  entry_frame f1 e1 -> entry_frame f2 e2 -> entry_frame f3 e3 ->
  (4 <= fuel)%nat ->
  exists d',
    ListFiles.list_directory fuel path d = (Ok [e1; e2; e3], d')
    /\ added d d' = listing_events c p a f1 f2 f3 fin
    /\ count_written [x0e] (added d d') = 4%nat.
Proof.
  intros Hacc Hp Hc Ha H1 H2 H3 Hend E1 E2 E3 Hfuel.
  destruct fuel as [|[|[|[|fuel]]]]; try lia.
  unfold ListFiles.list_directory.
  erewrite bind_ok by (eapply list_connect_service_run; [apply Hacc | eauto]).
  erewrite bind_ok by (apply lift_ok; exact Hp).
  erewrite bind_ok by (apply device_write_run; by_accepts).
  erewrite bind_ok by (apply device_read_frame; simpl; exact Ha).
  erewrite bind_ok.
  2:{ erewrite next_entries_entry by (first [by_accepts | simpl; eauto]).
      erewrite next_entries_entry by (first [by_accepts | simpl; eauto]).
      erewrite next_entries_entry by (first [by_accepts | simpl; eauto]).
      erewrite next_entries_end by (first [by_accepts | simpl; eauto]).
      reflexivity. }
  erewrite bind_ok
    by (unfold ListFiles.disconnect_service; apply device_write_run; by_accepts).
  eexists. split; [reflexivity|].
  assert (Hadd : forall d', trace d' = trace d ++ listing_events c p a f1 f2 f3 fin ->
                            added d d' = listing_events c p a f1 f2 f3 fin)
    by (intros; now apply added_app).
  rewrite Hadd.
  - split; [reflexivity|]. simpl. destruct p; reflexivity.
  - autorewrite with usb. simpl plus in *.
    rewrite Hc, Ha, H1, H2, H3, Hend, <- !app_assoc. reflexivity.
Qed.

Lemma list_directory_three_witness :
  entry_frame (entry_head x00 ++ [x41; x00]) (ListFiles.mk_entry [0x41] 7 ListFiles.file)
  /\ entry_frame (entry_head x01 ++ [x42; x00]) (ListFiles.mk_entry [0x42] 7 ListFiles.dir)
  /\ entry_frame (entry_head x00 ++ [x43; x00]) (ListFiles.mk_entry [0x43] 7 ListFiles.file)
  /\ accepts (scripted [[x00]; [x00; x00]; entry_head x00 ++ [x41; x00];
                        entry_head x01 ++ [x42; x00]; entry_head x00 ++ [x43; x00]; [xff]])
  /\ exists d',
       ListFiles.list_directory 4 (str_of_string "/")
         (scripted [[x00]; [x00; x00]; entry_head x00 ++ [x41; x00];
                    entry_head x01 ++ [x42; x00]; entry_head x00 ++ [x43; x00]; [xff]])
       = (Ok [ListFiles.mk_entry [0x41] 7 ListFiles.file;
              ListFiles.mk_entry [0x42] 7 ListFiles.dir;
              ListFiles.mk_entry [0x43] 7 ListFiles.file], d')
       /\ added (scripted [[x00]; [x00; x00]; entry_head x00 ++ [x41; x00];
                           entry_head x01 ++ [x42; x00]; entry_head x00 ++ [x43; x00]; [xff]]) d'
          = listing_events [x00] [x2f] [x00; x00] (entry_head x00 ++ [x41; x00])
              (entry_head x01 ++ [x42; x00]) (entry_head x00 ++ [x43; x00]) []
       /\ count_written [x0e]
            (added (scripted [[x00]; [x00; x00]; entry_head x00 ++ [x41; x00];
                              entry_head x01 ++ [x42; x00]; entry_head x00 ++ [x43; x00]; [xff]]) d')
          = 4%nat.
Proof.
  assert (E1 : entry_frame (entry_head x00 ++ [x41; x00])
                 (ListFiles.mk_entry [0x41] 7 ListFiles.file)).
  { split; [exists x00; eexists; split; [reflexivity | discriminate] | reflexivity]. }
  assert (E2 : entry_frame (entry_head x01 ++ [x42; x00])
                 (ListFiles.mk_entry [0x42] 7 ListFiles.dir)).
  { split; [exists x00; eexists; split; [reflexivity | discriminate] | reflexivity]. }
  assert (E3 : entry_frame (entry_head x00 ++ [x43; x00])
                 (ListFiles.mk_entry [0x43] 7 ListFiles.file)).
  { split; [exists x00; eexists; split; [reflexivity | discriminate] | reflexivity]. }
  split; [exact E1|]. split; [exact E2|]. split; [exact E3|].
  split; [apply accepts_scripted|].
  apply (list_directory_three 4 (str_of_string "/") _ [x2f] [x00] [x00; x00]
           _ _ _ [] _ _ _);
    [ apply accepts_scripted
    | reflexivity | reflexivity | reflexivity | reflexivity | reflexivity
    | reflexivity | reflexivity | exact E1 | exact E2 | exact E3
    | repeat constructor ].
Defined.

(* ================================================================== *)
(** * Further properties of the packet codec *)
(* ================================================================== *)

Lemma Z_of_byte_range (b : byte) : 0 <= Z_of_byte b < 256.
Proof.
  unfold Z_of_byte. pose proof (Byte.to_N_bounded b) as H.
  lia.
Qed.

Lemma Z_of_byte_of_Z (z : Z) : Z_of_byte (byte_of_Z z) = z mod 256.
Proof.
  unfold Z_of_byte, byte_of_Z.
  pose proof (Z.mod_pos_bound z 256 ltac:(lia)) as Hm.
  destruct (Byte.of_N (Z.to_N (z mod 256))) as [b|] eqn:E.
  - apply Byte.to_of_N in E. rewrite E. lia.
  - apply Byte.of_N_None_iff in E. lia.
Qed.

Lemma byte_of_Z_nonzero (z : Z) : z mod 256 <> 0 -> byte_of_Z z <> x00.
Proof.
  intros H E. apply H. rewrite <- Z_of_byte_of_Z, E. reflexivity.
Qed.

(** A value with bit 7 set is not a multiple of 256. *)
Lemma lor_high_mod (k m : Z) :
  Z.testbit k 7 = true -> Z.lor k m mod 256 <> 0.
Proof.
  intros Hk E.
  assert (H : Z.testbit (Z.lor k m mod 2 ^ 8) 7 = true).
  { rewrite Z.mod_pow2_bits_low by lia. rewrite Z.lor_spec, Hk. reflexivity. }
  change (2 ^ 8) with 256 in H. rewrite E in H. discriminate.
Qed.

Lemma land_shiftl_low (a b k : Z) :
  0 <= k -> 0 <= b < 2 ^ k -> Z.land (Z.shiftl a k) b = 0.
Proof.
  intros Hk Hb. apply Z.bits_inj'. intros n Hn.
  rewrite Z.land_spec, Z.bits_0.
  destruct (Z.lt_ge_cases n k) as [Hlt|Hge].
  - rewrite Z.shiftl_spec_low by lia. reflexivity.
  - replace b with (b mod 2 ^ k) by (apply Z.mod_small; lia).
    rewrite Z.mod_pow2_bits_high by lia. apply andb_false_r.
Qed.

Lemma lor_shiftl_add (a b k : Z) :
  0 <= k -> 0 <= b < 2 ^ k -> Z.lor (Z.shiftl a k) b = a * 2 ^ k + b.
Proof.
  intros Hk Hb. pose proof (Z.add_lor_land (Z.shiftl a k) b) as H.
  rewrite land_shiftl_low in H by assumption.
  rewrite Z.shiftl_mul_pow2 in * by assumption. lia.
Qed.

(** [struct.unpack('>I', ...)] of four bytes is their big-endian value. *)
Lemma struct_unpack_I_be32 (b0 b1 b2 b3 : byte) :
  struct_unpack_I [b0; b1; b2; b3] = inr (be32 b0 b1 b2 b3).
Proof.
  pose proof (Z_of_byte_range b0). pose proof (Z_of_byte_range b1).
  pose proof (Z_of_byte_range b2). pose proof (Z_of_byte_range b3).
  cbv [struct_unpack_I be32]. f_equal.
  rewrite (lor_shiftl_add (Z_of_byte b2) (Z_of_byte b3) 8) by lia.
  rewrite (lor_shiftl_add (Z_of_byte b1) _ 16) by lia.
  rewrite (lor_shiftl_add (Z_of_byte b0) _ 24) by lia.
  lia.
Qed.

Lemma be32_range (b0 b1 b2 b3 : byte) : 0 <= be32 b0 b1 b2 b3 <= 0xFFFFFFFF.
Proof.
  pose proof (Z_of_byte_range b0). pose proof (Z_of_byte_range b1).
  pose proof (Z_of_byte_range b2). pose proof (Z_of_byte_range b3).
  unfold be32. lia.
Qed.

(** Packing a length and unpacking the four bytes gives it back. *)
Lemma struct_pack_unpack_I (n : Z) :
  0 <= n <= 0xFFFFFFFF ->
  exists s, struct_pack_I n = inr s /\ length s = 4%nat
            /\ struct_unpack_I s = inr n.
Proof.
  intros Hn. unfold struct_pack_I.
  replace ((0 <=? n) && (n <=? 4294967295)) with true
    by (symmetry; apply andb_true_iff; split; apply Z.leb_le; lia).
  eexists. split; [reflexivity|]. split; [reflexivity|].
  rewrite struct_unpack_I_be32. f_equal. unfold be32.
  rewrite !Z_of_byte_of_Z, !Z.shiftr_div_pow2 by lia.
  change (2 ^ 24) with 16777216. change (2 ^ 16) with 65536.
  change (2 ^ 8) with 256.
  pose proof (Z.div_mod n 256 ltac:(lia)).
  pose proof (Z.div_mod (n / 256) 256 ltac:(lia)).
  pose proof (Z.div_mod (n / 65536) 256 ltac:(lia)).
  pose proof (Z.mod_pos_bound n 256 ltac:(lia)).
  pose proof (Z.mod_pos_bound (n / 256) 256 ltac:(lia)).
  pose proof (Z.mod_pos_bound (n / 65536) 256 ltac:(lia)).
  assert (E1 : n / 65536 = n / 256 / 256)
    by (rewrite Z.div_div by lia; reflexivity).
  assert (E2 : n / 16777216 = n / 65536 / 256)
    by (rewrite Z.div_div by lia; reflexivity).
  assert (Hs : 0 <= n / 16777216 < 256).
  { split; [apply Z.div_pos; lia | apply Z.div_lt_upper_bound; lia]. }
  rewrite (Z.mod_small (n / 16777216)) by lia.
  lia.
Qed.

Lemma slice_mid {A} (pre a rest : list A) :
  slice (pre ++ a ++ rest) (len pre) (len pre + len a) = a.
Proof.
  pose proof (len_nonneg pre). pose proof (len_nonneg a).
  pose proof (len_nonneg rest).
  unfold slice. rewrite !len_app, !clamp_inside by lia.
  replace (Z.to_nat (len pre)) with (length pre) by (unfold len; lia).
  replace (Z.to_nat (len pre + len a - len pre)) with (length a)
    by (unfold len; lia).
  rewrite skipn_app, skipn_all, Nat.sub_diag. simpl.
  rewrite firstn_app, firstn_all, Nat.sub_diag. simpl. apply app_nil_r.
Qed.

(** [b[-k:]] of a sequence that ends with the [k > 0] items [suf]. *)
Lemma slice_from_suffix {A} (pre suf : list A) :
  suf <> [] -> slice_from (pre ++ suf) (- len suf) = suf.
Proof.
  intros Hne. pose proof (len_nonneg pre).
  assert (0 < len suf) by (destruct suf; [congruence | rewrite len_cons; pose proof (len_nonneg suf); lia]).
  unfold slice_from, slice, clamp. rewrite len_app.
  replace (- len suf <? 0) with true by (symmetry; apply Z.ltb_lt; lia).
  replace (len pre + len suf <? 0) with false by (symmetry; apply Z.ltb_ge; lia).
  rewrite Z.max_r, Z.min_l by lia.
  replace (Z.to_nat (- len suf + (len pre + len suf))) with (length pre)
    by (unfold len; lia).
  replace (Z.to_nat (len pre + len suf - (- len suf + (len pre + len suf))))
    with (length suf) by (unfold len in *; lia).
  rewrite skipn_app, skipn_all, Nat.sub_diag. simpl. apply firstn_all.
Qed.

Lemma find_in_first (x : byte) (a r : bytes) (pos : Z) :
  ~ In x a -> find_in x (a ++ x :: r) pos = pos + len a.
Proof.
  revert pos. induction a as [|y a IH]; intros pos Hin; simpl.
  - replace (Byte.eqb x x) with true
      by (symmetry; now apply Byte.byte_dec_lb).
    unfold len. simpl. lia.
  - destruct (Byte.eqb y x) eqn:E.
    + apply Byte.byte_dec_bl in E. subst. exfalso. apply Hin. now left.
    + rewrite IH by (intros H; apply Hin; now right).
      rewrite len_cons. lia.
Qed.

(** A search that starts right after [pre] finds the first [x] at the
    end of the [x]-free stretch [a]. *)
Lemma find_after (x : byte) (pre a r : bytes) :
  ~ In x a -> find (pre ++ a ++ x :: r) x (len pre) = len pre + len a.
Proof.
  intros Hin. pose proof (len_nonneg pre).
  pose proof (len_nonneg (a ++ x :: r)).
  unfold find. rewrite len_app, clamp_inside by lia.
  replace (Z.to_nat (len pre)) with (length pre) by (unfold len; lia).
  rewrite skipn_app, skipn_all, Nat.sub_diag. simpl.
  now apply find_in_first.
Qed.

Opaque Z.lor Z.land Z.shiftr.

Lemma encode_point_no_nul (c : Z) (b : bytes) :
  encode_point c = inr b -> c <> 0 -> ~ In x00 b.
Proof.
  unfold encode_point, cont. intros H Hc.
  destruct (c <? 0) eqn:E0; [discriminate|]. apply Z.ltb_ge in E0.
  assert (Hhigh : forall k m, Z.testbit k 7 = true -> byte_of_Z (Z.lor k m) <> x00)
    by (intros k m Hk; apply byte_of_Z_nonzero; now apply lor_high_mod).
  destruct (c <? 128) eqn:E1.
  { apply Z.ltb_lt in E1. injection H as <-. intros [Hb|[]].
    revert Hb. apply byte_of_Z_nonzero. rewrite Z.mod_small; lia. }
  destruct (c <? 2048).
  { injection H as <-. cbn [In]. intros [Hb|[Hb|[]]]; revert Hb; now apply Hhigh. }
  destruct ((55296 <=? c) && (c <=? 57343)); [discriminate|].
  destruct (c <? 65536).
  { injection H as <-. cbn [In].
    intros [Hb|[Hb|[Hb|[]]]]; revert Hb; now apply Hhigh. }
  destruct (c <=? 1114111); [|discriminate].
  injection H as <-. cbn [In].
  intros [Hb|[Hb|[Hb|[Hb|[]]]]]; revert Hb; now apply Hhigh.
Qed.

Transparent Z.lor Z.land Z.shiftr.

Lemma encode_utf8_no_nul (s : str) (p : bytes) :
  encode_utf8 s = inr p -> ~ In 0 s -> ~ In x00 p.
Proof.
  revert p. induction s as [|c s IH]; intros p H Hs; simpl in H.
  - injection H as <-. intros [].
  - destruct (encode_point c) as [e|b] eqn:Ec; [discriminate|].
    destruct (encode_utf8 s) as [e|bs]; [discriminate|].
    injection H as <-. intros Hin. apply in_app_or in Hin as [Hin|Hin].
    + eapply encode_point_no_nul; eauto. intros ->. apply Hs. now left.
    + eapply IH; eauto. intros H. apply Hs. now right.
Qed.

Lemma encode_utf8_error (s : str) (e : exn) :
  encode_utf8 s = inl e -> e = UnicodeEncodeError.
Proof.
  induction s as [|c s IH]; simpl; [discriminate|].
  destruct (encode_point c) as [e'|b] eqn:Ec.
  - intros [= <-]. unfold encode_point in Ec.
    repeat match type of Ec with
           | (if ?t then _ else _) = _ => destruct t
           end; congruence.
  - destruct (encode_utf8 s) as [e'|bs]; [|discriminate].
    intros [= <-]. now apply IH.
Qed.

Lemma encode_utf8_surrogate (s : str) (c : Z) :
  In c s -> 0xD800 <= c <= 0xDFFF -> encode_utf8 s = inl UnicodeEncodeError.
Proof.
  intros Hin Hc.
  destruct (encode_utf8 s) as [e|p] eqn:E.
  - f_equal. eapply encode_utf8_error; eauto.
  - exfalso. revert p E. induction s as [|c' s IH]; intros p E; [destruct Hin|].
    simpl in E. destruct (encode_point c') as [e|b] eqn:Ec; [discriminate|].
    destruct (encode_utf8 s) as [e|bs] eqn:Es; [discriminate|].
    destruct Hin as [->|Hin]; [|eapply IH; eauto].
    unfold encode_point in Ec.
    replace (c <? 0) with false in Ec by (symmetry; apply Z.ltb_ge; lia).
    replace (c <? 128) with false in Ec by (symmetry; apply Z.ltb_ge; lia).
    replace (c <? 2048) with false in Ec by (symmetry; apply Z.ltb_ge; lia).
    replace ((55296 <=? c) && (c <=? 57343)) with true in Ec
      by (symmetry; apply andb_true_iff; split; apply Z.leb_le; lia).
    discriminate.
Qed.

(** X1.  For a path without NUL characters the terminator is
    unambiguous: in the packet that [build_packet] returns, the first
    zero byte at or after offset 2 is the terminator, and the bytes
    between offset 2 and it are the UTF-8 bytes of the path. *)
Theorem build_packet_terminator (cmd : Z) (path : str) (payload : bytes) :
  Forall encodable path ->
  ~ In 0 path ->
  0 <= cmd <= 0xFFFF ->
  exists p pkt,
    encode_utf8 path = inr p
    /\ Device.build_packet cmd path payload = inr pkt
    /\ len pkt = 2 + len p + 1 + len payload
    /\ find pkt x00 2 = 2 + len p
    /\ slice pkt 2 (find pkt x00 2) = p.
Proof.
  intros Hpath Hnul Hcmd.
  destruct (encode_utf8_ok path Hpath) as (p & Hp & _).
  pose proof (encode_utf8_no_nul path p Hp Hnul) as Hfree.
  set (hdr := [byte_of_Z (Z.shiftr cmd 8); byte_of_Z cmd]).
  exists p, (hdr ++ p ++ x00 :: payload).
  assert (Hfind : find (hdr ++ p ++ x00 :: payload) x00 2 = 2 + len p)
    by (apply (find_after x00 hdr p payload Hfree)).
  split; [exact Hp|]. split; [|split; [|split]].
  - unfold Device.build_packet, struct_pack_H. rewrite Hp.
    replace ((0 <=? cmd) && (cmd <=? 65535)) with true
      by (symmetry; apply andb_true_iff; split; apply Z.leb_le; lia).
    fold hdr. rewrite <- app_assoc. reflexivity.
  - rewrite !len_app, len_cons. change (len hdr) with 2. lia.
  - exact Hfind.
  - rewrite Hfind. apply (slice_mid hdr p (x00 :: payload)).
Qed.

Lemma build_packet_terminator_witness :
  Forall encodable [0x2F; 0xE9]
  /\ exists p pkt,
       encode_utf8 [0x2F; 0xE9] = inr p
       /\ Device.build_packet 0x0701 [0x2F; 0xE9] [x00; x07] = inr pkt
       /\ len pkt = 2 + len p + 1 + len [x00; x07]
       /\ find pkt x00 2 = 2 + len p
       /\ slice pkt 2 (find pkt x00 2) = p.
Proof.
  assert (H : Forall encodable [0x2F; 0xE9])
    by (repeat constructor; unfold encodable; lia).
  split; [exact H|].
  eapply (build_packet_terminator 0x0701 [0x2F; 0xE9] [x00; x07] H);
    [ simpl; lia | lia ].
Defined.

(** X2.  The path is encoded before the command is packed: a surrogate
    code point anywhere in the path makes [build_packet] raise
    [UnicodeEncodeError] whatever the command code is, and a command
    code outside 0..0xFFFF raises [struct.error] only when the path is
    encodable. *)
Theorem build_packet_errors (cmd : Z) (path : str) (payload : bytes) :
  (forall c, In c path -> 0xD800 <= c <= 0xDFFF ->
     Device.build_packet cmd path payload = inl UnicodeEncodeError)
  /\ (Forall encodable path -> ~ (0 <= cmd <= 0xFFFF) ->
      Device.build_packet cmd path payload = inl StructError).
Proof.
  split.
  - intros c Hin Hc. unfold Device.build_packet.
    rewrite (encode_utf8_surrogate path c Hin Hc). reflexivity.
  - intros Hpath Hcmd. destruct (encode_utf8_ok path Hpath) as (p & Hp & _).
    unfold Device.build_packet, struct_pack_H. rewrite Hp.
    replace ((0 <=? cmd) && (cmd <=? 65535)) with false; [reflexivity|].
    symmetry. apply andb_false_iff.
    destruct (Z.lt_ge_cases cmd 0); [left; apply Z.leb_gt; lia|].
    right. apply Z.leb_gt. lia.
Qed.

Lemma build_packet_errors_witness :
  In 0xD800 [0x61; 0xD800]
  /\ Forall encodable [0x61]
  /\ ~ (0 <= 0x10000 <= 0xFFFF)
  /\ Device.build_packet 0x10000 [0x61; 0xD800] [] = inl UnicodeEncodeError
  /\ Device.build_packet 0x10000 [0x61] [] = inl StructError.
Proof.
  assert (H1 : In 0xD800 [0x61; 0xD800]) by (simpl; auto).
  assert (H2 : Forall encodable [0x61])
    by (repeat constructor; unfold encodable; lia).
  assert (H3 : ~ (0 <= 0x10000 <= 0xFFFF)) by lia.
  split; [exact H1|]. split; [exact H2|]. split; [exact H3|]. split.
  - apply (proj1 (build_packet_errors 0x10000 [0x61; 0xD800] []) 0xD800 H1). lia.
  - apply (proj2 (build_packet_errors 0x10000 [0x61] []) H2 H3).
Defined.

(** X3.  The length that [file_write] packs at the end of its init
    packet is read back unchanged by the unpacking that [file_read]
    applies to the size field of a header: the last four bytes of the
    init packet unpack to [len(file_content)]. *)
Theorem init_packet_size (path : str) (file_content p : bytes) :
  encode_utf8 path = inr p ->
  len file_content <= 0xFFFFFFFF ->
  exists size init,
    struct_pack_I (len file_content) = inr size
    /\ Device.build_packet 0x0301 path size = inr init
    /\ len init = len p + 7
    /\ struct_unpack_I (slice_from init (-4)) = inr (len file_content).
Proof.
  intros Hp Hmax. pose proof (len_nonneg file_content) as Hnn.
  destruct (struct_pack_unpack_I (len file_content)) as (size & Hs & Hl & Hu);
    [lia|].
  exists size, (([x03; x01] ++ p ++ [x00]) ++ size).
  split; [exact Hs|]. split; [|split].
  - unfold Device.build_packet. rewrite Hp.
    change (struct_pack_H 769) with (@inr exn bytes [x03; x01]).
    rewrite <- !app_assoc. reflexivity.
  - assert (Hl4 : len size = 4) by (unfold len; rewrite Hl; reflexivity).
    rewrite !len_app, Hl4.
    change (len [x03; x01]) with 2. change (len [x00]) with 1. lia.
  - replace (-4) with (- len size) by (unfold len; rewrite Hl; reflexivity).
    rewrite slice_from_suffix; [exact Hu|].
    destruct size; [discriminate | discriminate].
Qed.

Lemma init_packet_size_witness :
  len (repeat x41 300) <= 0xFFFFFFFF
  /\ exists size init,
       struct_pack_I (len (repeat x41 300)) = inr size
       /\ Device.build_packet 0x0301 (str_of_string "/a") size = inr init
       /\ len init = len [x2f; x61] + 7
       /\ struct_unpack_I (slice_from init (-4)) = inr (len (repeat x41 300)).
Proof.
  assert (H : len (repeat x41 300) <= 0xFFFFFFFF) by (vm_compute; discriminate).
  split; [exact H|].
  eapply (init_packet_size (str_of_string "/a") (repeat x41 300) [x2f; x61]);
    [ reflexivity | exact H ].
Defined.

(* ================================================================== *)
(** * Further properties of the upload *)
(* ================================================================== *)

(** A slice and what follows it make up the rest of the sequence. *)
Lemma slice_skipn_step {A} (b : list A) (lo k : Z) :
  0 <= lo -> 0 <= k ->
  slice b lo (lo + k) ++ skipn (Z.to_nat (lo + k)) b = skipn (Z.to_nat lo) b.
Proof.
  intros Hlo Hk. unfold slice, clamp.
  replace (lo <? 0) with false by (symmetry; apply Z.ltb_ge; lia).
  replace (lo + k <? 0) with false by (symmetry; apply Z.ltb_ge; lia).
  unfold len. destruct (Z.le_gt_cases (Z.of_nat (length b)) lo) as [Hout|Hin].
  - rewrite !Z.min_r by lia. rewrite Z.sub_diag. simpl firstn.
    rewrite !skipn_all2 by lia. reflexivity.
  - rewrite (Z.min_l lo) by lia.
    destruct (Z.le_gt_cases (lo + k) (Z.of_nat (length b))) as [Hfit|Hcut].
    + rewrite Z.min_l by lia.
      replace (Z.to_nat (lo + k - lo)) with (Z.to_nat k) by lia.
      replace (Z.to_nat (lo + k)) with (Z.to_nat k + Z.to_nat lo)%nat by lia.
      rewrite <- skipn_skipn. apply firstn_skipn.
    + rewrite Z.min_r by lia.
      rewrite firstn_all2 by (rewrite length_skipn; lia).
      rewrite (skipn_all2 b (n := Z.to_nat (lo + k))) by lia.
      apply app_nil_r.
Qed.

(** The chunks from the i-th on are the content from offset 253 i on. *)
Lemma chunks_concat (b : bytes) (n : nat) :
  forall i,
    len b <= 253 * Z.of_nat (i + n) ->
    concat (map (chunk_payload b) (seq i n)) = skipn (Z.to_nat (253 * Z.of_nat i)) b.
Proof.
  induction n as [|n IH]; intros i H; cbn [seq map concat].
  - rewrite skipn_all2; [reflexivity|]. unfold len in H. lia.
  - rewrite IH by (unfold len in *; lia). unfold chunk_payload.
    replace (253 * Z.of_nat (S i)) with (253 * Z.of_nat i + 253) by lia.
    apply slice_skipn_step; lia.
Qed.

Lemma n_chunks_bounds (b : bytes) :
  len b <= 253 * Z.of_nat (n_chunks b) < len b + 253.
Proof.
  pose proof (len_nonneg b). unfold n_chunks.
  rewrite Z2Nat.id by (apply Z.div_pos; lia).
  pose proof (Z.mul_div_le (len b + 252) 253).
  pose proof (Z.mul_succ_div_gt (len b + 252) 253). lia.
Qed.

Lemma chunk_payload_len (b : bytes) (i : nat) :
  (i < n_chunks b)%nat -> 1 <= len (chunk_payload b i) <= 253.
Proof.
  intros Hi. pose proof (n_chunks_bounds b). pose proof (len_nonneg b).
  unfold chunk_payload. rewrite slice_len by lia. lia.
Qed.

(** X4.  On a handle that accepts every write, whatever the length of
    the content, once the init frame is accepted the upload writes one
    frame per chunk, each the marker 05 followed by 1 to 253 data bytes,
    and the data bytes of these frames put end to end are exactly
    [file_content]; the call that follows them is the read of the final
    response. *)
Theorem file_write_payload (path : str) (file_content : bytes) (d : usb)
    (c p r : bytes) :
  accepts d ->
  encode_utf8 path = inr p ->
  len file_content <= 0xFFFFFFFF ->
  rx d (reads d) = Frame c ->
  rx d (S (reads d)) = Frame (x04 :: r) ->
  exists size rest,
    added d (snd (Device.file_write path file_content d))
    = init_events c ([x03; x01] ++ (p ++ [x00]) ++ size) (x04 :: r)
      ++ map (fun i => Wrote (x05 :: chunk_payload file_content i))
           (seq 0 (n_chunks file_content))
      ++ Readn 512 (rx d (S (S (reads d)))) :: rest
    /\ concat (map (chunk_payload file_content) (seq 0 (n_chunks file_content)))
       = file_content
    /\ Forall (fun i => 1 <= len (chunk_payload file_content i) <= 253)
         (seq 0 (n_chunks file_content)).
Proof.
  intros Hacc Hp Hmax Hc Hr.
  destruct (file_write_sent path file_content d c p r Hacc Hp Hmax Hc Hr)
    as (size & d5 & Hsize & Hd5 & Hrun).
  assert (Hacc5 : accepts d5) by (rewrite Hd5; now apply accepts_after).
  assert (Hread : rx d5 (reads d5) = rx d (S (S (reads d))))
    by (rewrite Hd5, rx_after, reads_after; f_equal; lia).
  assert (Ht5 : trace d5
                = trace d
                  ++ init_events c ([x03; x01] ++ (p ++ [x00]) ++ size) (x04 :: r)
                  ++ map (fun i => Wrote (x05 :: chunk_payload file_content i))
                       (seq 0 (n_chunks file_content)))
    by (rewrite Hd5; apply trace_after).
  clear Hd5. exists size.
  assert (Hrest : exists rest,
             trace (snd (Device.file_write path file_content d))
             = trace d5 ++ Readn 512 (rx d (S (S (reads d)))) :: rest).
  { rewrite Hrun, file_write_final by exact Hacc5.
    rewrite <- Hread.
    destruct (rx d5 (reads d5)) as [fin|] eqn:E.
    - destruct (negb (bytes_eqb (slice_from fin (-2)) [xff; x00])).
      + exists []. cbn [snd]. rewrite trace_answered, E. reflexivity.
      + exists [Wrote [x04]]. cbn [snd].
        rewrite trace_wrote, trace_answered, E, <- app_assoc. reflexivity.
    - exists []. cbn [snd]. rewrite trace_answered, E. reflexivity. }
  destruct Hrest as (rest & Hrest). exists rest. split; [|split].
  - apply added_app. rewrite Hrest, Ht5, <- !app_assoc. reflexivity.
  - rewrite chunks_concat
      by (pose proof (n_chunks_bounds file_content); rewrite Nat.add_0_l; lia).
    reflexivity.
  - apply Forall_forall. intros i Hi. apply in_seq in Hi.
    apply chunk_payload_len. lia.
Qed.

Lemma file_write_payload_witness :
  accepts (scripted [[x00]; [x04]; [xff; x00]])
  /\ len (repeat x41 600) <= 0xFFFFFFFF
  /\ exists size rest,
       added (scripted [[x00]; [x04]; [xff; x00]])
         (snd (Device.file_write (str_of_string "/a") (repeat x41 600)
                 (scripted [[x00]; [x04]; [xff; x00]])))
       = init_events [x00] ([x03; x01] ++ ([x2f; x61] ++ [x00]) ++ size) [x04]
         ++ map (fun i => Wrote (x05 :: chunk_payload (repeat x41 600) i))
              (seq 0 (n_chunks (repeat x41 600)))
         ++ Readn 512 (rx (scripted [[x00]; [x04]; [xff; x00]]) 2%nat) :: rest
       /\ concat (map (chunk_payload (repeat x41 600))
                    (seq 0 (n_chunks (repeat x41 600))))
          = repeat x41 600
       /\ Forall (fun i => 1 <= len (chunk_payload (repeat x41 600) i) <= 253)
            (seq 0 (n_chunks (repeat x41 600))).
Proof.
  assert (H : len (repeat x41 600) <= 0xFFFFFFFF) by (vm_compute; discriminate).
  split; [apply accepts_scripted|]. split; [exact H|].
  eapply (file_write_payload (str_of_string "/a") (repeat x41 600)
            (scripted [[x00]; [x04]; [xff; x00]]) [x00] [x2f; x61] []);
    [ apply accepts_scripted | reflexivity | exact H | reflexivity | reflexivity ].
Defined.

(** [b[-2:]] is the given pair exactly when the sequence ends with it. *)
Lemma slice_from_last2 {A} (b : list A) (x y : A) :
  slice_from b (-2) = [x; y] <-> exists pre, b = pre ++ [x; y].
Proof.
  split.
  - intros H. exists (firstn (length b - 2) b).
    rewrite <- H. unfold slice_from, slice, clamp.
    change (-2 <? 0) with true.
    pose proof (len_nonneg b) as Hb.
    replace (len b <? 0) with false by (symmetry; apply Z.ltb_ge; lia).
    rewrite Z.min_l by lia.
    replace (Z.to_nat (Z.max 0 (-2 + len b))) with (length b - 2)%nat
      by (unfold len; lia).
    rewrite (firstn_all2 (n := Z.to_nat _))
      by (rewrite length_skipn; unfold len; lia).
    symmetry. apply firstn_skipn.
  - intros (pre & ->). apply (slice_from_suffix pre [x; y]). discriminate.
Qed.

(** X5.  On a handle that accepts every write, after an accepted init
    frame the upload reports success exactly when the final response
    ends with the two bytes FF 00: it then writes the disconnect marker
    04 as its last call; with any other final response, a shorter one
    included, it raises "File upload failed or not confirmed by
    device.". *)
Theorem file_write_confirmed (path : str) (file_content : bytes) (d : usb)
    (c p r fin : bytes) :
  accepts d ->
  encode_utf8 path = inr p ->
  len file_content <= 0xFFFFFFFF ->
  rx d (reads d) = Frame c ->
  rx d (S (reads d)) = Frame (x04 :: r) ->
  rx d (S (S (reads d))) = Frame fin ->
  ((exists pre, fin = pre ++ [xff; x00]) ->
     fst (Device.file_write path file_content d) = Ok tt
     /\ exists evs,
          added d (snd (Device.file_write path file_content d))
          = evs ++ [Readn 512 (Frame fin); Wrote [x04]])
  /\ (~ (exists pre, fin = pre ++ [xff; x00]) ->
      fst (Device.file_write path file_content d)
      = Raise (Exception "File upload failed or not confirmed by device.")).
Proof.
  intros Hacc Hp Hmax Hc Hr Hfin.
  destruct (file_write_sent path file_content d c p r Hacc Hp Hmax Hc Hr)
    as (size & d5 & Hsize & Hd5 & Hrun).
  assert (Hacc5 : accepts d5) by (rewrite Hd5; now apply accepts_after).
  assert (Hread : rx d5 (reads d5) = Frame fin)
    by (rewrite Hd5, rx_after, reads_after, <- Hfin; f_equal; lia).
  assert (Ht5 : trace d5
                = trace d
                  ++ init_events c ([x03; x01] ++ (p ++ [x00]) ++ size) (x04 :: r)
                  ++ map (fun i => Wrote (x05 :: chunk_payload file_content i))
                       (seq 0 (n_chunks file_content)))
    by (rewrite Hd5; apply trace_after).
  clear Hd5.
  rewrite Hrun, file_write_final, Hread by exact Hacc5. clear Hrun.
  split.
  - intros Hend. apply slice_from_last2 in Hend.
    rewrite Hend. change (negb (bytes_eqb [xff; x00] [xff; x00])) with false.
    cbv iota. split; [reflexivity|].
    exists (init_events c ([x03; x01] ++ (p ++ [x00]) ++ size) (x04 :: r)
            ++ map (fun i => Wrote (x05 :: chunk_payload file_content i))
                 (seq 0 (n_chunks file_content))).
    apply added_app. cbn [snd].
    rewrite trace_wrote, trace_answered, Hread, Ht5, <- !app_assoc.
    reflexivity.
  - intros Hend.
    replace (negb (bytes_eqb (slice_from fin (-2)) [xff; x00])) with true;
      [reflexivity|].
    symmetry. apply negb_true_iff. apply bytes_eqb_neq.
    intros E. apply Hend. now apply slice_from_last2.
Qed.

Lemma file_write_confirmed_witness :
  accepts (scripted [[x00]; [x04]; [x07; xff; x00]])
  /\ accepts (scripted [[x00]; [x04]; [x00]])
  /\ len [x41; x42] <= 0xFFFFFFFF
  /\ (exists pre, [x07; xff; x00] = pre ++ [xff; x00])
  /\ ~ (exists pre, [x00] = pre ++ [xff; x00])
  /\ fst (Device.file_write (str_of_string "/a") [x41; x42]
            (scripted [[x00]; [x04]; [x07; xff; x00]])) = Ok tt
  /\ (exists evs,
        added (scripted [[x00]; [x04]; [x07; xff; x00]])
          (snd (Device.file_write (str_of_string "/a") [x41; x42]
                  (scripted [[x00]; [x04]; [x07; xff; x00]])))
        = evs ++ [Readn 512 (Frame [x07; xff; x00]); Wrote [x04]])
  /\ fst (Device.file_write (str_of_string "/a") [x41; x42]
            (scripted [[x00]; [x04]; [x00]]))
     = Raise (Exception "File upload failed or not confirmed by device.").
Proof.
  assert (H : len [x41; x42] <= 0xFFFFFFFF) by (vm_compute; discriminate).
  assert (Hyes : exists pre, [x07; xff; x00] = pre ++ [xff; x00])
    by (exists [x07]; reflexivity).
  assert (Hno : ~ (exists pre, [x00] = pre ++ [xff; x00])).
  { intros (pre & E). apply (f_equal (@length byte)) in E.
    rewrite length_app in E. simpl in E. lia. }
  split; [apply accepts_scripted|]. split; [apply accepts_scripted|].
  split; [exact H|]. split; [exact Hyes|]. split; [exact Hno|].
  destruct (file_write_confirmed (str_of_string "/a") [x41; x42]
              (scripted [[x00]; [x04]; [x07; xff; x00]])
              [x00] [x2f; x61] [] [x07; xff; x00]
              (accepts_scripted _) eq_refl H eq_refl eq_refl eq_refl) as (Hok & _).
  destruct (file_write_confirmed (str_of_string "/a") [x41; x42]
              (scripted [[x00]; [x04]; [x00]])
              [x00] [x2f; x61] [] [x00]
              (accepts_scripted _) eq_refl H eq_refl eq_refl eq_refl) as (_ & Hfail).
  destruct (Hok Hyes) as (H1 & H2).
  split; [exact H1|]. split; [exact H2|]. exact (Hfail Hno).
Defined.

(** X6.  An empty response to the init frame is not reported as a
    rejected init: when the service identifier and the init frame were
    written, reading the first byte of the response raises
    [IndexError], after the init frame was written and before any chunk
    is sent. *)
Theorem file_write_empty_response (path : str) (file_content : bytes) (d : usb)
    (c p : bytes) :
  tx d (writes d) = true ->
  tx d (S (writes d)) = true ->
  encode_utf8 path = inr p ->
  len file_content <= 0xFFFFFFFF ->
  rx d (reads d) = Frame c ->
  rx d (S (reads d)) = Frame [] ->
  exists size d',
    Device.file_write path file_content d = (Raise IndexError, d')
    /\ added d d' = init_events c ([x03; x01] ++ (p ++ [x00]) ++ size) [].
Proof.
  intros Hw0 Hw1 Hp Hmax Hc Hr. pose proof (len_nonneg file_content).
  destruct (struct_pack_I_ok (len file_content)) as (size & Hsize); [lia|].
  destruct (file_write_init path file_content d c p [] size
              Hw0 Hw1 Hp Hsize Hc Hr)
    as (d4 & Hd4 & Hrun).
  exists size, d4. split.
  - rewrite Hrun. reflexivity.
  - apply added_app. rewrite Hd4. apply trace_after.
Qed.

Lemma file_write_empty_response_witness :
  tx (scripted [[x00]; []]) (writes (scripted [[x00]; []])) = true
  /\ tx (scripted [[x00]; []]) (S (writes (scripted [[x00]; []]))) = true
  /\ len [x41] <= 0xFFFFFFFF
  /\ exists size d',
       Device.file_write (str_of_string "/a") [x41] (scripted [[x00]; []])
       = (Raise IndexError, d')
       /\ added (scripted [[x00]; []]) d'
          = init_events [x00] ([x03; x01] ++ ([x2f; x61] ++ [x00]) ++ size) [].
Proof.
  assert (H : len [x41] <= 0xFFFFFFFF) by (vm_compute; discriminate).
  split; [reflexivity|]. split; [reflexivity|]. split; [exact H|].
  eapply (file_write_empty_response (str_of_string "/a") [x41]
            (scripted [[x00]; []]) [x00] [x2f; x61]);
    [ reflexivity | reflexivity | reflexivity | exact H
    | reflexivity | reflexivity ].
Defined.

(* ================================================================== *)
(** * Failure of the connection *)
(* ================================================================== *)

Lemma device_connect_fault (d : usb) :
  tx d (writes d) = true ->
  rx d (reads d) = Fault ->
  Device.connect_service Device.SERVICE_FILE d
  = (Raise USBError, answered (wrote d [x40; x60]) 512).
Proof.
  intros Hw H. unfold Device.connect_service.
  erewrite bind_ok by (apply lift_ok; reflexivity).
  erewrite bind_ok by (apply device_write_run; exact Hw).
  erewrite bind_raise by (apply device_read_fault; simpl; exact H).
  reflexivity.
Qed.

(** X7.  When the service identifier was written and the device does
    not answer it, the upload, the download and the listing all raise
    [USBError] at once: the only calls made are the write of 40 60 and
    the failed read, so no command and no disconnect marker is sent. *)
Theorem connect_fault (fuel : nat) (path : str) (file_content : bytes) (d : usb) :
  tx d (writes d) = true ->
  rx d (reads d) = Fault ->
  Device.file_write path file_content d
  = (Raise USBError, answered (wrote d [x40; x60]) 512)
  /\ Device.file_read fuel path d
     = (Raise USBError, answered (wrote d [x40; x60]) 512)
  /\ ListFiles.list_directory fuel path d
     = (Raise USBError, answered (wrote d [x40; x60]) 512)
  /\ added d (answered (wrote d [x40; x60]) 512)
     = [Wrote [x40; x60]; Readn 512 Fault].
Proof.
  intros Hw H. split; [|split; [|split]].
  - unfold Device.file_write.
    erewrite bind_raise by (apply device_connect_fault; assumption). reflexivity.
  - unfold Device.file_read.
    erewrite bind_raise by (apply device_connect_fault; assumption). reflexivity.
  - unfold ListFiles.list_directory.
    erewrite bind_raise; [reflexivity|].
    unfold ListFiles.connect_service.
    erewrite bind_ok by (apply lift_ok; reflexivity).
    erewrite bind_ok by (apply device_write_run; exact Hw).
    erewrite bind_raise by (apply device_read_fault; simpl; exact H).
    reflexivity.
  - apply added_app. autorewrite with usb. rewrite H, <- app_assoc. reflexivity.
Qed.

Lemma connect_fault_witness :
  tx (scripted []) (writes (scripted [])) = true
  /\ rx (scripted []) (reads (scripted [])) = Fault
  /\ Device.file_write (str_of_string "/a") [x41] (scripted [])
     = (Raise USBError, answered (wrote (scripted []) [x40; x60]) 512)
  /\ Device.file_read 3 (str_of_string "/a") (scripted [])
     = (Raise USBError, answered (wrote (scripted []) [x40; x60]) 512)
  /\ ListFiles.list_directory 3 (str_of_string "/a") (scripted [])
     = (Raise USBError, answered (wrote (scripted []) [x40; x60]) 512)
  /\ added (scripted []) (answered (wrote (scripted []) [x40; x60]) 512)
     = [Wrote [x40; x60]; Readn 512 Fault].
Proof.
  split; [reflexivity|]. split; [reflexivity|].
  apply (connect_fault 3 (str_of_string "/a") [x41] (scripted []));
    reflexivity.
Defined.

(* ================================================================== *)
(** * Further properties of the download *)
(* ================================================================== *)

(** [file_read] up to the begin-transfer byte, when the header is
    accepted and the first three writes went through. *)
Lemma file_read_accepted (fuel : nat) (path : str) (d : usb)
    (c p h : bytes) (total : Z) :
  tx d (writes d) = true ->
  tx d (S (writes d)) = true ->
  tx d (S (S (writes d))) = true ->
  rx d (reads d) = Frame c ->
  encode_utf8 path = inr p ->
  rx d (S (reads d)) = Frame h ->
  16 <= len h ->
  slice_to h 2 = [x03; x01] ->
  struct_unpack_I (slice h 12 16) = inr total ->
  exists d5,
    d5 = after d 2 3 (header_events c p h ++ [Wrote [x04]])
    /\ Device.file_read fuel path d
       = (data_received <- Device.recv_loop fuel total [] ;;
          ack <- lift (struct_pack_H 0xFF00) ;;
          Device.write ack ;;
          Device.close_service ;;
          ret data_received) d5.
Proof.
  intros Hw0 Hw1 Hw2 Hc Hp Hh Hlen Htag Htot.
  destruct (file_read_header fuel path d c p h Hw0 Hw1 Hc Hp Hh) as [Ht Hfr].
  eexists. split; [reflexivity|].
  rewrite Hfr.
  replace ((len h <? 16) || negb (bytes_eqb (slice_to h 2) [x03; x01]))
    with false.
  2:{ symmetry. apply orb_false_iff. split.
      - apply Z.ltb_ge. lia.
      - apply negb_false_iff. now apply bytes_eqb_eq. }
  erewrite bind_ok by (apply lift_ok; exact Htot).
  erewrite bind_ok by (apply device_write_run; unfold header_read; accepted).
  f_equal. unfold header_read.
  rewrite (wrote_is_after d), answered_after, wrote_after, answered_after,
    wrote_after.
  apply after_eq; [reflexivity | reflexivity |].
  rewrite Nat.add_0_r, Nat.add_1_r, Hc, Hh. reflexivity.
Qed.

(** A download that returns has had its first two writes accepted, and
    the third one too when the header was a good one. *)
Lemma file_read_ok_writes (fuel : nat) (path : str) (d d' : usb)
    (c p h data : bytes) :
  rx d (reads d) = Frame c ->
  encode_utf8 path = inr p ->
  rx d (S (reads d)) = Frame h ->
  16 <= len h ->
  slice_to h 2 = [x03; x01] ->
  Device.file_read fuel path d = (Ok data, d') ->
  tx d (writes d) = true
  /\ tx d (S (writes d)) = true
  /\ tx d (S (S (writes d))) = true.
Proof.
  intros Hc Hp Hh Hlen Htag Hrun.
  destruct (tx d (writes d)) eqn:W0.
  2:{ unfold Device.file_read in Hrun.
      erewrite bind_raise in Hrun by (apply connect_service_refused; exact W0).
      discriminate. }
  destruct (tx d (S (writes d))) eqn:W1.
  2:{ unfold Device.file_read in Hrun.
      erewrite bind_ok in Hrun by (eapply connect_service_run; eauto).
      erewrite bind_ok in Hrun by (apply lift_ok; reflexivity).
      erewrite bind_ok in Hrun by (apply lift_ok; exact Hp).
      erewrite bind_raise in Hrun by (apply device_write_refused; exact W1).
      discriminate. }
  destruct (tx d (S (S (writes d)))) eqn:W2; [repeat split|].
  destruct (file_read_header fuel path d c p h W0 W1 Hc Hp Hh) as [_ Hfr].
  rewrite Hfr in Hrun.
  replace ((len h <? 16) || negb (bytes_eqb (slice_to h 2) [x03; x01]))
    with false in Hrun.
  2:{ symmetry. apply orb_false_iff. split.
      - apply Z.ltb_ge. lia.
      - apply negb_false_iff. now apply bytes_eqb_eq. }
  apply bind_ok_inv in Hrun as (total & d1 & Hlift & Hrun).
  apply lift_ok_inv in Hlift as [_ ->].
  apply bind_ok_inv in Hrun as (u & d2 & Hw & _).
  unfold Device.write in Hw. rewrite device_write_refused in Hw; [discriminate|].
  unfold header_read. autorewrite with usb. exact W2.
Qed.

(** What the receive loop returns holds at least the bytes it had plus
    the bytes that were left. *)
Lemma recv_loop_lower (fuel : nat) :
  forall bl acc d data d',
    Device.recv_loop fuel bl acc d = (Ok data, d') ->
    len acc + bl <= len data
    /\ exists more, data = acc ++ more.
Proof.
  induction fuel as [|fuel IH]; intros bl acc d data d' Hrun;
    simpl in Hrun; destruct (bl >? 0) eqn:Epos;
    pose proof (Zgt_cases bl 0) as Hcmp; rewrite Epos in Hcmp;
    try discriminate;
    try (injection Hrun as <- _; split; [lia | exists []; now rewrite app_nil_r]).
  unfold bind in Hrun. rewrite recv_chunk_run in Hrun.
  destruct (rx d (reads d)) as [[|x r]|]; try discriminate.
  cbn [fst snd] in Hrun. apply IH in Hrun as (Hlen & more & ->).
  rewrite len_app in Hlen. split; [lia|].
  exists (r ++ more). now rewrite app_assoc.
Qed.

(** X8.  A download that returns never returns fewer bytes than the
    header announced, whatever the lengths of the frames: a transfer is
    never silently cut short. *)
Theorem file_read_not_short (fuel : nat) (path : str) (d d' : usb)
    (c p h data : bytes) (total : Z) :
  rx d (reads d) = Frame c ->
  encode_utf8 path = inr p ->
  rx d (S (reads d)) = Frame h ->
  16 <= len h ->
  slice_to h 2 = [x03; x01] ->
  struct_unpack_I (slice h 12 16) = inr total ->
  Device.file_read fuel path d = (Ok data, d') ->
  total <= len data.
Proof.
  intros Hc Hp Hh Hlen Htag Htot Hrun.
  destruct (file_read_ok_writes fuel path d d' c p h data Hc Hp Hh Hlen Htag Hrun)
    as (Hw0 & Hw1 & Hw2).
  destruct (file_read_accepted fuel path d c p h total
              Hw0 Hw1 Hw2 Hc Hp Hh Hlen Htag Htot)
    as (d5 & _ & Hfr).
  rewrite Hfr in Hrun.
  apply bind_ok_inv in Hrun as (got & d6 & Eloop & Hrun).
  apply recv_loop_lower in Eloop as (Hlow & _).
  apply bind_ok_inv in Hrun as (ack & d7 & _ & Hrun).
  apply bind_ok_inv in Hrun as (u & d8 & _ & Hrun).
  apply bind_ok_inv in Hrun as (u' & d9 & _ & Hrun).
  injection Hrun as <- _. change (len (@nil byte)) with 0 in Hlow. lia.
Qed.

Lemma file_read_not_short_witness :
  16 <= len (header_for 2)
  /\ Device.file_read 3 (str_of_string "/a")
       (scripted [[x00]; header_for 2; [x05; x41; x42; x43; x44]])
     = (Ok [x41; x42; x43; x44],
        snd (Device.file_read 3 (str_of_string "/a")
               (scripted [[x00]; header_for 2; [x05; x41; x42; x43; x44]])))
  /\ 2 <= len [x41; x42; x43; x44].
Proof.
  assert (H : 16 <= len (header_for 2)) by (vm_compute; discriminate).
  assert (Hrun : Device.file_read 3 (str_of_string "/a")
                   (scripted [[x00]; header_for 2; [x05; x41; x42; x43; x44]])
                 = (Ok [x41; x42; x43; x44],
                    snd (Device.file_read 3 (str_of_string "/a")
                           (scripted [[x00]; header_for 2; [x05; x41; x42; x43; x44]]))))
    by reflexivity.
  split; [exact H|]. split; [exact Hrun|].
  eapply (file_read_not_short 3 (str_of_string "/a")
            (scripted [[x00]; header_for 2; [x05; x41; x42; x43; x44]]) _
            [x00] [x2f; x61] (header_for 2) [x41; x42; x43; x44] 2);
    [ reflexivity | reflexivity | reflexivity | exact H | reflexivity
    | reflexivity | exact Hrun ].
Defined.

(** X9.  On a handle that accepts every write, a file of size zero is
    downloaded without any read after the header: whatever the fuel,
    the result is the empty byte string and the calls after the header
    are the begin-transfer byte 04, the acknowledgment FF 00 and the
    disconnect marker 04. *)
Theorem file_read_empty_file (fuel : nat) (path : str) (d : usb) (c p h : bytes) :
  accepts d ->
  rx d (reads d) = Frame c ->
  encode_utf8 path = inr p ->
  rx d (S (reads d)) = Frame h ->
  16 <= len h ->
  slice_to h 2 = [x03; x01] ->
  struct_unpack_I (slice h 12 16) = inr 0 ->
  exists d',
    Device.file_read fuel path d = (Ok [], d')
    /\ added d d'
       = header_events c p h ++ [Wrote [x04]; Wrote [xff; x00]; Wrote [x04]]
    /\ reads d' = S (S (reads d)).
Proof.
  intros Hacc Hc Hp Hh Hlen Htag Htot.
  destruct (file_read_run fuel path d c p h 0 Hacc Hc Hp Hh Hlen Htag Htot)
    as (d5 & Ht5 & _ & Hreads5 & Hfr).
  exists (wrote (wrote d5 [xff; x00]) [x04]). split; [|split].
  - rewrite Hfr.
    replace (Device.recv_loop fuel 0 [] d5) with (@Ok bytes [], d5)
      by (destruct fuel; reflexivity).
    reflexivity.
  - apply added_app. rewrite !trace_wrote, Ht5, <- !app_assoc. reflexivity.
  - rewrite !reads_wrote. exact Hreads5.
Qed.

Lemma file_read_empty_file_witness :
  accepts (scripted [[x00]; header_for 0])
  /\ 16 <= len (header_for 0)
  /\ exists d',
       Device.file_read 0 (str_of_string "/a") (scripted [[x00]; header_for 0])
       = (Ok [], d')
       /\ added (scripted [[x00]; header_for 0]) d'
          = header_events [x00] [x2f; x61] (header_for 0)
            ++ [Wrote [x04]; Wrote [xff; x00]; Wrote [x04]]
       /\ reads d' = S (S (reads (scripted [[x00]; header_for 0]))).
Proof.
  assert (H : 16 <= len (header_for 0)) by (vm_compute; discriminate).
  split; [apply accepts_scripted|]. split; [exact H|].
  eapply (file_read_empty_file 0 (str_of_string "/a")
            (scripted [[x00]; header_for 0]) [x00] [x2f; x61] (header_for 0));
    [ apply accepts_scripted
    | reflexivity | reflexivity | reflexivity | exact H | reflexivity
    | reflexivity ].
Defined.

(** X10.  The receive loop never writes, and every read it makes asks
    for at least 2 and at most 254 bytes, whatever the device sends and
    however many bytes are left. *)
Theorem recv_loop_requests (fuel : nat) (bl : Z) (acc : bytes) (d : usb) :
  exists evs,
    trace (snd (Device.recv_loop fuel bl acc d)) = trace d ++ evs
    /\ Forall loop_request evs.
Proof.
  revert bl acc d. induction fuel as [|fuel IH]; intros bl acc d.
  - exists []. split; [|constructor]. rewrite app_nil_r. simpl.
    destruct (bl >? 0); reflexivity.
  - simpl. destruct (bl >? 0) eqn:Epos.
    2:{ exists []. split; [|constructor]. now rewrite app_nil_r. }
    pose proof (Zgt_cases bl 0) as Hcmp. rewrite Epos in Hcmp.
    unfold bind. rewrite recv_chunk_run.
    assert (Hreq : forall r, loop_request (Readn (Z.min (bl + 1) 254) r))
      by (intros r; simpl; lia).
    destruct (rx d (reads d)) as [[|x r]|] eqn:E.
    + exists [Readn (Z.min (bl + 1) 254) (Frame [])]. split.
      * cbn [snd]. rewrite trace_answered, E. reflexivity.
      * constructor; [apply Hreq | constructor].
    + cbn [fst snd].
      destruct (IH (bl - len r) (acc ++ r) (answered d (Z.min (bl + 1) 254)))
        as (evs & Ht & Hall).
      exists (Readn (Z.min (bl + 1) 254) (Frame (x :: r)) :: evs). split.
      * rewrite Ht, trace_answered, E, <- app_assoc. reflexivity.
      * constructor; [apply Hreq | assumption].
    + exists [Readn (Z.min (bl + 1) 254) Fault]. split.
      * cbn [snd]. rewrite trace_answered, E. reflexivity.
      * constructor; [apply Hreq | constructor].
Qed.

(* ================================================================== *)
(** * Further properties of the directory listing *)
(* ================================================================== *)

(** X11.  In a well-formed entry buffer (twelve header bytes, a name
    without zero byte, the terminator, anything after it) decoding reads
    the type from offset 1, the size as the big-endian value of offsets
    4..8 and the name from the bytes between offset 12 and the first
    zero byte; what follows the terminator is ignored, and the only
    possible error is that of the UTF-8 decoding of the name. *)
Theorem decode_entry_fields (b0 t b2 b3 s0 s1 s2 s3 d0 d1 d2 d3 : byte)
    (nm rest : bytes) :
  ~ In x00 nm ->
  ListFiles.decode_entry
    ([b0; t; b2; b3; s0; s1; s2; s3; d0; d1; d2; d3] ++ nm ++ x00 :: rest)
  = match decode_utf8 nm with
    | inl e => inl e
    | inr filename =>
        inr (ListFiles.mk_entry filename (be32 s0 s1 s2 s3)
               (if Byte.eqb t x00 then ListFiles.file else ListFiles.dir))
    end.
Proof.
  intros Hnm.
  set (hd := [b0; t; b2; b3; s0; s1; s2; s3; d0; d1; d2; d3]).
  set (buf := hd ++ nm ++ x00 :: rest).
  assert (Hsize : slice buf 4 8 = [s0; s1; s2; s3])
    by apply (slice_mid [b0; t; b2; b3] [s0; s1; s2; s3]
                ([d0; d1; d2; d3] ++ nm ++ x00 :: rest)).
  assert (Hdate : slice buf 8 12 = [d0; d1; d2; d3])
    by apply (slice_mid [b0; t; b2; b3; s0; s1; s2; s3] [d0; d1; d2; d3]
                (nm ++ x00 :: rest)).
  assert (Hfind : find buf x00 12 = 12 + len nm)
    by apply (find_after x00 hd nm rest Hnm).
  assert (Hname : slice buf 12 (12 + len nm) = nm)
    by apply (slice_mid hd nm (x00 :: rest)).
  unfold ListFiles.decode_entry.
  change (index buf 1) with (@inr exn byte t).
  rewrite Hsize, Hdate, Hfind, Hname, !struct_unpack_I_be32.
  reflexivity.
Qed.

Lemma decode_entry_fields_witness :
  ~ In x00 [xc3; xa9]
  /\ ListFiles.decode_entry
       ([x00; x01; x00; x00; x00; x01; x02; x03; x00; x00; x00; x00]
          ++ [xc3; xa9] ++ x00 :: [x41; x00])
     = inr (ListFiles.mk_entry [0xE9] 66051 ListFiles.dir).
Proof.
  assert (H : ~ In x00 [xc3; xa9])
    by (simpl; intros [E|[E|[]]]; discriminate).
  split; [exact H|].
  rewrite (decode_entry_fields x00 x01 x00 x00 x00 x01 x02 x03 x00 x00 x00 x00
             [xc3; xa9] [x41; x00] H).
  reflexivity.
Defined.

Lemma count_written_app (b : bytes) (t1 t2 : list event) :
  count_written b (t1 ++ t2) = (count_written b t1 + count_written b t2)%nat.
Proof.
  induction t1 as [|[w|n r|w] t1 IH]; simpl; auto.
  destruct (bytes_eqb w b); simpl; auto.
Qed.

Lemma count_entry_reads (fs : list bytes) :
  count_written [x0e] (entry_reads fs) = length fs
  /\ count_written [x04] (entry_reads fs) = 0%nat.
Proof. induction fs as [|f fs [IH1 IH2]]; simpl; auto. Qed.

(** The listing loop over a run of entry frames. *)
Lemma next_entries_prefix (fs : list bytes) (es : list ListFiles.entry) :
  Forall2 entry_frame fs es ->
  forall k files d,
    accepts d ->
    (forall i f, nth_error fs i = Some f -> rx d (reads d + i) = Frame f) ->
    ListFiles.next_entries (length fs + k) files d
    = ListFiles.next_entries k (files ++ es)
        (after d (length fs) (length fs) (entry_reads fs)).
Proof.
  induction 1 as [|f e fs es Hfe _ IH]; intros k files d Hacc Hrx.
  - simpl. rewrite app_nil_r, after_nil. reflexivity.
  - cbn [length Nat.add].
    assert (Hf : rx d (reads d) = Frame f)
      by (rewrite <- (Nat.add_0_r (reads d)); now apply Hrx).
    rewrite (next_entries_entry _ files d f e (Hacc _) Hf Hfe).
    rewrite IH.
    + f_equal; [now rewrite <- app_assoc|].
      rewrite (wrote_is_after d), answered_after, after_after.
      apply after_eq; [reflexivity | reflexivity |].
      rewrite Nat.add_0_r, Hf. reflexivity.
    + now apply accepts_answered, accepts_wrote.
    + intros i g Hi. autorewrite with usb.
      replace (S (reads d) + i)%nat with (reads d + S i)%nat by lia.
      now apply Hrx.
Qed.

(** [list_directory] up to the listing loop. *)
Lemma list_directory_start (fuel : nat) (path : str) (d : usb) (p c a : bytes) :
  tx d (writes d) = true ->
  tx d (S (writes d)) = true ->
  encode_utf8 path = inr p ->
  rx d (reads d) = Frame c ->
  rx d (1 + reads d) = Frame a ->
  exists d4,
    d4 = after d 2 2 [Wrote [x40; x60]; Readn 512 (Frame c);
                      Wrote ([x0d] ++ p ++ [x00]); Readn 512 (Frame a)]
    /\ ListFiles.list_directory fuel path d
       = (files <- ListFiles.next_entries fuel [] ;;
          ListFiles.disconnect_service ;;
          ret files) d4.
Proof.
  intros Hw0 Hw1 Hp Hc Ha.
  eexists. split; [reflexivity|].
  unfold ListFiles.list_directory.
  erewrite bind_ok by (eapply list_connect_service_run; eauto).
  erewrite bind_ok by (apply lift_ok; exact Hp).
  erewrite bind_ok by (apply device_write_run; accepted).
  erewrite bind_ok by (apply device_read_frame; simpl; exact Ha).
  f_equal.
  rewrite (wrote_is_after d), answered_after, wrote_after, answered_after.
  apply after_eq; [reflexivity | reflexivity |].
  simpl plus in Ha. rewrite Nat.add_0_r, Nat.add_1_r, Hc, Ha. reflexivity.
Qed.

(** The listing loop of [list_directory] over the entry frames [fs],
    up to the request that follows them. *)
Lemma list_directory_entries (fuel : nat) (path : str) (d : usb)
    (p c a : bytes) (fs : list bytes) (es : list ListFiles.entry) :
  accepts d ->
  encode_utf8 path = inr p ->
  rx d (reads d) = Frame c ->
  rx d (1 + reads d) = Frame a ->
  (forall i f, nth_error fs i = Some f -> rx d (2 + reads d + i) = Frame f) ->
  Forall2 entry_frame fs es ->
  (length fs < fuel)%nat ->
  exists d5,
    d5 = after d (2 + length fs) (2 + length fs)
           ([Wrote [x40; x60]; Readn 512 (Frame c);
             Wrote ([x0d] ++ p ++ [x00]); Readn 512 (Frame a)]
            ++ entry_reads fs)
    /\ ListFiles.list_directory fuel path d
       = (files <- ListFiles.next_entries (S (fuel - S (length fs))) es ;;
          ListFiles.disconnect_service ;;
          ret files) d5.
Proof.
  intros Hacc Hp Hc Ha Hfs Hdec Hfuel.
  destruct (list_directory_start fuel path d p c a (Hacc _) (Hacc _) Hp Hc Ha)
    as (d4 & Hd4 & Hrun).
  eexists. split; [reflexivity|].
  rewrite Hrun. unfold bind at 1 3.
  replace fuel with (length fs + S (fuel - S (length fs)))%nat at 1 by lia.
  rewrite (next_entries_prefix fs es Hdec).
  - rewrite Hd4, after_after. reflexivity.
  - rewrite Hd4. now apply accepts_after.
  - intros i f Hi. rewrite Hd4, rx_after, reads_after.
    replace (reads d + 2 + i)%nat with (2 + reads d + i)%nat by lia.
    now apply Hfs.
Qed.

(** X12.  A listing of any number of entries on a handle that accepts
    every write: when the device sends the frames [fs], which decode to
    the entries [es], and then a frame that starts with FF,
    [list_directory] returns exactly [es] in the order received, has
    written one next-entry request 0E per entry and one more for the end
    marker, and ends with the disconnect marker 04. *)
Theorem list_directory_all (fuel : nat) (path : str) (d : usb)
    (p c a fin : bytes) (fs : list bytes) (es : list ListFiles.entry) :
  accepts d ->
  encode_utf8 path = inr p ->
  rx d (reads d) = Frame c ->
  rx d (1 + reads d) = Frame a ->
  (forall i f, nth_error fs i = Some f -> rx d (2 + reads d + i) = Frame f) ->
  rx d (2 + reads d + length fs) = Frame (xff :: fin) ->
  Forall2 entry_frame fs es ->
  (length fs < fuel)%nat ->
  exists d',
    ListFiles.list_directory fuel path d = (Ok es, d')
    /\ added d d'
       = [Wrote [x40; x60]; Readn 512 (Frame c);
          Wrote ([x0d] ++ p ++ [x00]); Readn 512 (Frame a)]
         ++ entry_reads fs
         ++ [Wrote [x0e]; Readn 512 (Frame (xff :: fin)); Wrote [x04]]
    /\ count_written [x0e] (added d d') = S (length fs).
Proof.
  intros Hacc Hp Hc Ha Hfs Hend Hdec Hfuel.
  destruct (list_directory_entries fuel path d p c a fs es
              Hacc Hp Hc Ha Hfs Hdec Hfuel)
    as (d5 & Hd5 & Hrun).
  assert (Hacc5 : accepts d5) by (rewrite Hd5; now apply accepts_after).
  assert (Hrx5 : rx d5 (reads d5) = Frame (xff :: fin)).
  { rewrite Hd5, rx_after, reads_after, <- Hend. f_equal. lia. }
  assert (Ht5 : trace d5
                = trace d
                  ++ [Wrote [x40; x60]; Readn 512 (Frame c);
                      Wrote ([x0d] ++ p ++ [x00]); Readn 512 (Frame a)]
                  ++ entry_reads fs)
    by (rewrite Hd5; apply trace_after).
  clear Hd5.
  exists (wrote (answered (wrote d5 [x0e]) 512) [x04]).
  assert (Hadd : added d (wrote (answered (wrote d5 [x0e]) 512) [x04])
                 = [Wrote [x40; x60]; Readn 512 (Frame c);
                    Wrote ([x0d] ++ p ++ [x00]); Readn 512 (Frame a)]
                   ++ entry_reads fs
                   ++ [Wrote [x0e]; Readn 512 (Frame (xff :: fin)); Wrote [x04]]).
  { apply added_app. autorewrite with usb.
    rewrite Hrx5, Ht5, <- !app_assoc. reflexivity. }
  split; [|split].
  - rewrite Hrun.
    erewrite bind_ok by (apply (next_entries_end _ _ d5 fin (Hacc5 _) Hrx5)).
    erewrite bind_ok
      by (unfold ListFiles.disconnect_service; apply device_write_run;
          by_accepts).
    reflexivity.
  - exact Hadd.
  - rewrite Hadd, !count_written_app, (proj1 (count_entry_reads fs)).
    simpl. destruct p; simpl; lia.
Qed.

Lemma list_directory_all_witness :
  Forall2 entry_frame
    [entry_head x00 ++ [x41; x00]; entry_head x01 ++ [x42; x00]]
    [ListFiles.mk_entry [0x41] 7 ListFiles.file;
     ListFiles.mk_entry [0x42] 7 ListFiles.dir]
  /\ accepts (scripted [[x00]; [x00; x00]; entry_head x00 ++ [x41; x00];
                        entry_head x01 ++ [x42; x00]; [xff]])
  /\ exists d',
       ListFiles.list_directory 3 (str_of_string "/")
         (scripted [[x00]; [x00; x00]; entry_head x00 ++ [x41; x00];
                    entry_head x01 ++ [x42; x00]; [xff]])
       = (Ok [ListFiles.mk_entry [0x41] 7 ListFiles.file;
              ListFiles.mk_entry [0x42] 7 ListFiles.dir], d')
       /\ added (scripted [[x00]; [x00; x00]; entry_head x00 ++ [x41; x00];
                           entry_head x01 ++ [x42; x00]; [xff]]) d'
          = [Wrote [x40; x60]; Readn 512 (Frame [x00]);
             Wrote ([x0d] ++ [x2f] ++ [x00]); Readn 512 (Frame [x00; x00])]
            ++ entry_reads [entry_head x00 ++ [x41; x00]; entry_head x01 ++ [x42; x00]]
            ++ [Wrote [x0e]; Readn 512 (Frame [xff]); Wrote [x04]]
       /\ count_written [x0e]
            (added (scripted [[x00]; [x00; x00]; entry_head x00 ++ [x41; x00];
                              entry_head x01 ++ [x42; x00]; [xff]]) d')
          = 3%nat.
Proof.
  assert (H : Forall2 entry_frame
                [entry_head x00 ++ [x41; x00]; entry_head x01 ++ [x42; x00]]
                [ListFiles.mk_entry [0x41] 7 ListFiles.file;
                 ListFiles.mk_entry [0x42] 7 ListFiles.dir]).
  { repeat constructor;
      try (exists x00; eexists; split; [reflexivity | discriminate]). }
  split; [exact H|]. split; [apply accepts_scripted|].
  eapply (list_directory_all 3 (str_of_string "/")
            (scripted [[x00]; [x00; x00]; entry_head x00 ++ [x41; x00];
                       entry_head x01 ++ [x42; x00]; [xff]])
            [x2f] [x00] [x00; x00] []
            [entry_head x00 ++ [x41; x00]; entry_head x01 ++ [x42; x00]]);
    [ apply accepts_scripted | reflexivity | reflexivity | reflexivity
    | intros [|[|[|i]]] f Hi; simpl in Hi; try discriminate;
      injection Hi as <-; reflexivity
    | reflexivity | exact H | repeat constructor ].
Defined.

(** X13.  When a frame of the listing cannot be used (it is empty, or
    it is not the end marker and its decoding fails), [list_directory],
    on a handle that accepts every write, raises the error of that
    frame: the entries received before it are not returned, and no
    disconnect marker 04 is written, the failed frame being the last
    call on the handle. *)
Theorem list_directory_bad_frame (fuel : nat) (path : str) (d : usb)
    (p c a bad : bytes) (fs : list bytes) (es : list ListFiles.entry) (e : exn) :
  accepts d ->
  encode_utf8 path = inr p ->
  rx d (reads d) = Frame c ->
  rx d (1 + reads d) = Frame a ->
  (forall i f, nth_error fs i = Some f -> rx d (2 + reads d + i) = Frame f) ->
  rx d (2 + reads d + length fs) = Frame bad ->
  Forall2 entry_frame fs es ->
  bad_frame bad e ->
  (length fs < fuel)%nat ->
  exists d',
    ListFiles.list_directory fuel path d = (Raise e, d')
    /\ added d d'
       = [Wrote [x40; x60]; Readn 512 (Frame c);
          Wrote ([x0d] ++ p ++ [x00]); Readn 512 (Frame a)]
         ++ entry_reads fs
         ++ [Wrote [x0e]; Readn 512 (Frame bad)]
    /\ count_written [x04] (added d d') = 0%nat.
Proof.
  intros Hacc Hp Hc Ha Hfs Hbad Hdec Hwhy Hfuel.
  destruct (list_directory_entries fuel path d p c a fs es
              Hacc Hp Hc Ha Hfs Hdec Hfuel)
    as (d5 & Hd5 & Hrun).
  assert (Hacc5 : accepts d5) by (rewrite Hd5; now apply accepts_after).
  assert (Hrx5 : rx d5 (reads d5) = Frame bad).
  { rewrite Hd5, rx_after, reads_after, <- Hbad. f_equal. lia. }
  assert (Ht5 : trace d5
                = trace d
                  ++ [Wrote [x40; x60]; Readn 512 (Frame c);
                      Wrote ([x0d] ++ p ++ [x00]); Readn 512 (Frame a)]
                  ++ entry_reads fs)
    by (rewrite Hd5; apply trace_after).
  clear Hd5.
  assert (Hloop : ListFiles.next_entries (S (fuel - S (length fs))) es d5
                  = (Raise e, answered (wrote d5 [x0e]) 512)).
  { cbn [ListFiles.next_entries].
    erewrite bind_ok by (apply device_write_run; apply Hacc5).
    erewrite bind_ok by (apply device_read_frame; simpl; exact Hrx5).
    destruct Hwhy as [[-> ->]|(b & r & -> & Hb & Hfail)].
    - reflexivity.
    - erewrite (bind_ok _ _ _ _ b) by (apply lift_ok; reflexivity).
      replace (Byte.eqb b xff) with false.
      + erewrite bind_raise; [reflexivity|]. unfold lift. rewrite Hfail.
        reflexivity.
      + symmetry. destruct (Byte.eqb b xff) eqn:E; [|reflexivity].
        apply Byte.byte_dec_bl in E. contradiction. }
  exists (answered (wrote d5 [x0e]) 512).
  assert (Hadd : added d (answered (wrote d5 [x0e]) 512)
                 = [Wrote [x40; x60]; Readn 512 (Frame c);
                    Wrote ([x0d] ++ p ++ [x00]); Readn 512 (Frame a)]
                   ++ entry_reads fs
                   ++ [Wrote [x0e]; Readn 512 (Frame bad)]).
  { apply added_app. autorewrite with usb.
    rewrite Hrx5, Ht5, <- !app_assoc. reflexivity. }
  split; [|split].
  - rewrite Hrun. erewrite bind_raise by exact Hloop. reflexivity.
  - exact Hadd.
  - rewrite Hadd, !count_written_app, (proj2 (count_entry_reads fs)).
    reflexivity.
Qed.

Lemma list_directory_bad_frame_witness :
  Forall2 entry_frame [entry_head x00 ++ [x41; x00]]
    [ListFiles.mk_entry [0x41] 7 ListFiles.file]
  /\ bad_frame [x00; x01; x00] StructError
  /\ accepts (scripted [[x00]; [x00; x00]; entry_head x00 ++ [x41; x00];
                        [x00; x01; x00]])
  /\ exists d',
       ListFiles.list_directory 5 (str_of_string "/")
         (scripted [[x00]; [x00; x00]; entry_head x00 ++ [x41; x00]; [x00; x01; x00]])
       = (Raise StructError, d')
       /\ added (scripted [[x00]; [x00; x00]; entry_head x00 ++ [x41; x00];
                           [x00; x01; x00]]) d'
          = [Wrote [x40; x60]; Readn 512 (Frame [x00]);
             Wrote ([x0d] ++ [x2f] ++ [x00]); Readn 512 (Frame [x00; x00])]
            ++ entry_reads [entry_head x00 ++ [x41; x00]]
            ++ [Wrote [x0e]; Readn 512 (Frame [x00; x01; x00])]
       /\ count_written [x04]
            (added (scripted [[x00]; [x00; x00]; entry_head x00 ++ [x41; x00];
                              [x00; x01; x00]]) d')
          = 0%nat.
Proof.
  assert (H : Forall2 entry_frame [entry_head x00 ++ [x41; x00]]
                [ListFiles.mk_entry [0x41] 7 ListFiles.file]).
  { repeat constructor;
      try (exists x00; eexists; split; [reflexivity | discriminate]). }
  assert (Hbad : bad_frame [x00; x01; x00] StructError).
  { right. exists x00, [x01; x00]. repeat split. discriminate. }
  split; [exact H|]. split; [exact Hbad|]. split; [apply accepts_scripted|].
  eapply (list_directory_bad_frame 5 (str_of_string "/")
            (scripted [[x00]; [x00; x00]; entry_head x00 ++ [x41; x00];
                       [x00; x01; x00]])
            [x2f] [x00] [x00; x00] [x00; x01; x00]
            [entry_head x00 ++ [x41; x00]]);
    [ apply accepts_scripted | reflexivity | reflexivity | reflexivity
    | intros [|[|i]] f Hi; simpl in Hi; try discriminate;
      injection Hi as <-; reflexivity
    | reflexivity | exact H | exact Hbad | repeat constructor ].
Defined.

Lemma next_entries_endless (fuel : nat) :
  forall files d,
    accepts d ->
    (forall k, (reads d <= k)%nat -> exists f e, rx d k = Frame f /\ entry_frame f e) ->
    fst (ListFiles.next_entries fuel files d) = Spin.
Proof.
  induction fuel as [|fuel IH]; intros files d Hacc Hrx; [reflexivity|].
  destruct (Hrx (reads d) (le_n _)) as (f & e & Hf & He).
  rewrite (next_entries_entry fuel files d f e (Hacc _) Hf He).
  apply IH; [now apply accepts_answered, accepts_wrote|].
  intros k Hk. autorewrite with usb in *. apply Hrx. lia.
Qed.

(** X14.  The listing has no bound of its own: against a device that,
    on a handle that accepts every write, goes on sending frames that
    decode to entries and never sends the end marker, [list_directory]
    is still in its loop after any number of rounds. *)
Theorem list_directory_unbounded (fuel : nat) (path : str) (d : usb) (p c a : bytes) :
  accepts d ->
  encode_utf8 path = inr p ->
  rx d (reads d) = Frame c ->
  rx d (1 + reads d) = Frame a ->
  (forall k, (2 + reads d <= k)%nat ->
     exists f e, rx d k = Frame f /\ entry_frame f e) ->
  fst (ListFiles.list_directory fuel path d) = Spin.
Proof.
  intros Hacc Hp Hc Ha Hrx.
  destruct (list_directory_start fuel path d p c a (Hacc _) (Hacc _) Hp Hc Ha)
    as (d4 & Hd4 & Hrun).
  rewrite Hrun. unfold bind at 1.
  pose proof (next_entries_endless fuel [] d4) as Hspin.
  destruct (ListFiles.next_entries fuel [] d4) as [o d6].
  cbn [fst] in Hspin. rewrite Hspin; [reflexivity | |].
  - rewrite Hd4. now apply accepts_after.
  - intros k Hk. rewrite Hd4, rx_after, reads_after in *. apply Hrx. lia.
Qed.

Lemma list_directory_unbounded_witness :
  accepts (mk_usb (fun _ => Frame (entry_head x00 ++ [x41; x00])) (fun _ => true) 0 0 [])
  /\ (forall k, (2 + 0 <= k)%nat ->
     exists f e,
       rx (mk_usb (fun _ => Frame (entry_head x00 ++ [x41; x00])) (fun _ => true) 0 0 []) k = Frame f
       /\ entry_frame f e)
  /\ fst (ListFiles.list_directory 50 (str_of_string "/")
            (mk_usb (fun _ => Frame (entry_head x00 ++ [x41; x00])) (fun _ => true) 0 0 []))
     = Spin.
Proof.
  assert (H : forall k, (2 + 0 <= k)%nat ->
     exists f e,
       rx (mk_usb (fun _ => Frame (entry_head x00 ++ [x41; x00])) (fun _ => true) 0 0 []) k = Frame f
       /\ entry_frame f e).
  { intros k _. exists (entry_head x00 ++ [x41; x00]),
      (ListFiles.mk_entry [0x41] 7 ListFiles.file).
    split; [reflexivity|]. split; [|reflexivity].
    exists x00. eexists. split; [reflexivity | discriminate]. }
  assert (Hacc : accepts (mk_usb (fun _ => Frame (entry_head x00 ++ [x41; x00])) (fun _ => true) 0 0 []))
    by (intros k; reflexivity).
  split; [exact Hacc|]. split; [exact H|].
  apply (list_directory_unbounded 50 (str_of_string "/") _ [x2f]
           (entry_head x00 ++ [x41; x00]) (entry_head x00 ++ [x41; x00]));
    [ exact Hacc | reflexivity | reflexivity | reflexivity | exact H ].
Defined.

(* ================================================================== *)
(** * UTF-8: decoding what was encoded *)
(* ================================================================== *)

Lemma in_range_true (lo hi : Z) (b : byte) :
  lo <= Z_of_byte b <= hi -> in_range lo hi b = true.
Proof.
  intros H. unfold in_range. apply andb_true_iff. split; apply Z.leb_le; lia.
Qed.

Lemma in_range_false (lo hi : Z) (b : byte) :
  Z_of_byte b < lo \/ hi < Z_of_byte b -> in_range lo hi b = false.
Proof.
  intros H. unfold in_range. apply andb_false_iff.
  destruct H; [left | right]; apply Z.leb_gt; lia.
Qed.

Lemma lor_const (K x k : Z) :
  0 <= k -> K mod 2 ^ k = 0 -> 0 <= x < 2 ^ k -> Z.lor K x = K + x.
Proof.
  intros Hk HK Hx.
  assert (Hpos : 0 < 2 ^ k) by (apply Z.pow_pos_nonneg; lia).
  replace K with (Z.shiftl (K / 2 ^ k) k) at 1.
  - rewrite lor_shiftl_add by assumption.
    pose proof (Z.div_mod K (2 ^ k) ltac:(lia)). lia.
  - rewrite Z.shiftl_mul_pow2 by assumption.
    pose proof (Z.div_mod K (2 ^ k) ltac:(lia)). lia.
Qed.

Lemma land_low (z k : Z) : 0 <= k -> Z.land z (2 ^ k - 1) = z mod 2 ^ k.
Proof.
  intros Hk. rewrite <- Z.land_ones by assumption.
  f_equal. rewrite Z.ones_equiv. lia.
Qed.

(** The bytes of the encoder: a continuation byte and a lead byte. *)
Lemma cont_value (z : Z) : Z_of_byte (cont z) = 128 + z mod 64.
Proof.
  unfold cont. rewrite Z_of_byte_of_Z.
  rewrite (land_low z 6 ltac:(lia) : Z.land z 63 = z mod 2 ^ 6).
  change (2 ^ 6) with 64.
  pose proof (Z.mod_pos_bound z 64 ltac:(lia)).
  rewrite (lor_const 128 (z mod 64) 6) by (try reflexivity; lia).
  apply Z.mod_small. lia.
Qed.

Lemma lead_value (K x k : Z) :
  0 <= k -> K mod 2 ^ k = 0 -> 0 <= x < 2 ^ k -> 0 <= K -> K + x < 256 ->
  Z_of_byte (byte_of_Z (Z.lor K x)) = K + x.
Proof.
  intros Hk HK Hx HK0 Hlt. rewrite Z_of_byte_of_Z, (lor_const K x k) by assumption.
  apply Z.mod_small. lia.
Qed.

Lemma low6_value (b : byte) (m : Z) :
  Z_of_byte b = 128 + m -> 0 <= m < 64 -> low6 b = m.
Proof.
  intros Hb Hm. unfold low6. rewrite Hb.
  rewrite (land_low (128 + m) 6 ltac:(lia) : Z.land (128 + m) 63 = _).
  change (2 ^ 6) with 64.
  replace (128 + m) with (m + 2 * 64) by lia.
  rewrite Z.mod_add by lia. apply Z.mod_small. lia.
Qed.

Opaque Z.lor Z.land Z.shiftr Z.shiftl.

Lemma decode_step1 (fuel : nat) (b0 : byte) (rest : bytes) :
  Z_of_byte b0 < 128 ->
  decode_utf8_aux (S fuel) (b0 :: rest)
  = prepend (Z_of_byte b0) (decode_utf8_aux fuel rest).
Proof.
  intros H. cbn [decode_utf8_aux].
  replace (Z_of_byte b0 <? 128) with true by (symmetry; apply Z.ltb_lt; lia).
  reflexivity.
Qed.

Lemma decode_step2 (fuel : nat) (b0 b1 : byte) (rest : bytes) :
  0xC2 <= Z_of_byte b0 <= 0xDF ->
  0x80 <= Z_of_byte b1 <= 0xBF ->
  decode_utf8_aux (S fuel) (b0 :: b1 :: rest)
  = prepend (Z.lor (Z.shiftl (Z.land (Z_of_byte b0) 0x1F) 6) (low6 b1))
      (decode_utf8_aux fuel rest).
Proof.
  intros H0 H1. cbn [decode_utf8_aux].
  replace (Z_of_byte b0 <? 128) with false by (symmetry; apply Z.ltb_ge; lia).
  rewrite (in_range_true 194 223 b0), (in_range_true 128 191 b1) by lia.
  reflexivity.
Qed.

Lemma decode_step3 (fuel : nat) (b0 b1 b2 : byte) (rest : bytes) :
  0xE0 <= Z_of_byte b0 <= 0xEF ->
  (Z_of_byte b0 = 0xE0 -> 0xA0 <= Z_of_byte b1) ->
  (Z_of_byte b0 = 0xED -> Z_of_byte b1 <= 0x9F) ->
  0x80 <= Z_of_byte b1 <= 0xBF ->
  0x80 <= Z_of_byte b2 <= 0xBF ->
  decode_utf8_aux (S fuel) (b0 :: b1 :: b2 :: rest)
  = prepend (Z.lor (Z.shiftl (Z.land (Z_of_byte b0) 0x0F) 12)
               (Z.lor (Z.shiftl (low6 b1) 6) (low6 b2)))
      (decode_utf8_aux fuel rest).
Proof.
  intros H0 Hlo Hhi H1 H2. cbn [decode_utf8_aux].
  replace (Z_of_byte b0 <? 128) with false by (symmetry; apply Z.ltb_ge; lia).
  rewrite (in_range_false 194 223 b0), (in_range_true 224 239 b0) by lia.
  assert (Hl : (if Byte.eqb b0 xe0 then 160 else 128) <= Z_of_byte b1).
  { destruct (Byte.eqb b0 xe0) eqn:E; [|lia].
    apply Byte.byte_dec_bl in E. subst b0. apply Hlo. reflexivity. }
  assert (Hh : Z_of_byte b1 <= (if Byte.eqb b0 xed then 159 else 191)).
  { destruct (Byte.eqb b0 xed) eqn:E; [|lia].
    apply Byte.byte_dec_bl in E. subst b0. apply Hhi. reflexivity. }
  rewrite (in_range_true _ _ b1), (in_range_true 128 191 b2) by lia.
  reflexivity.
Qed.

Lemma decode_step4 (fuel : nat) (b0 b1 b2 b3 : byte) (rest : bytes) :
  0xF0 <= Z_of_byte b0 <= 0xF4 ->
  (Z_of_byte b0 = 0xF0 -> 0x90 <= Z_of_byte b1) ->
  (Z_of_byte b0 = 0xF4 -> Z_of_byte b1 <= 0x8F) ->
  0x80 <= Z_of_byte b1 <= 0xBF ->
  0x80 <= Z_of_byte b2 <= 0xBF ->
  0x80 <= Z_of_byte b3 <= 0xBF ->
  decode_utf8_aux (S fuel) (b0 :: b1 :: b2 :: b3 :: rest)
  = prepend (Z.lor (Z.shiftl (Z.land (Z_of_byte b0) 0x07) 18)
               (Z.lor (Z.shiftl (low6 b1) 12)
                  (Z.lor (Z.shiftl (low6 b2) 6) (low6 b3))))
      (decode_utf8_aux fuel rest).
Proof.
  intros H0 Hlo Hhi H1 H2 H3. cbn [decode_utf8_aux].
  replace (Z_of_byte b0 <? 128) with false by (symmetry; apply Z.ltb_ge; lia).
  rewrite (in_range_false 194 223 b0), (in_range_false 224 239 b0),
    (in_range_true 240 244 b0) by lia.
  assert (Hl : (if Byte.eqb b0 xf0 then 144 else 128) <= Z_of_byte b1).
  { destruct (Byte.eqb b0 xf0) eqn:E; [|lia].
    apply Byte.byte_dec_bl in E. subst b0. apply Hlo. reflexivity. }
  assert (Hh : Z_of_byte b1 <= (if Byte.eqb b0 xf4 then 143 else 191)).
  { destruct (Byte.eqb b0 xf4) eqn:E; [|lia].
    apply Byte.byte_dec_bl in E. subst b0. apply Hhi. reflexivity. }
  rewrite (in_range_true _ _ b1), (in_range_true 128 191 b2),
    (in_range_true 128 191 b3) by lia.
  reflexivity.
Qed.

(** Decoding the bytes of one encoded code point gives the code point
    back and goes on with the rest. *)
Lemma decode_encode_point (c : Z) (b : bytes) (fuel : nat) (rest : bytes) :
  encode_point c = inr b ->
  decode_utf8_aux (S fuel) (b ++ rest) = prepend c (decode_utf8_aux fuel rest).
Proof.
  unfold encode_point. intros H.
  destruct (c <? 0) eqn:E0; [discriminate|]. apply Z.ltb_ge in E0.
  destruct (c <? 128) eqn:E1.
  { apply Z.ltb_lt in E1. injection H as <-. cbn [app].
    assert (Hv : Z_of_byte (byte_of_Z c) = c)
      by (rewrite Z_of_byte_of_Z; apply Z.mod_small; lia).
    rewrite decode_step1 by lia. now rewrite Hv. }
  apply Z.ltb_ge in E1.
  assert (Hq1 : Z.shiftr c 6 = c / 64) by (now rewrite Z.shiftr_div_pow2 by lia).
  assert (Hq2 : Z.shiftr c 12 = c / 4096) by (now rewrite Z.shiftr_div_pow2 by lia).
  assert (Hq3 : Z.shiftr c 18 = c / 262144) by (now rewrite Z.shiftr_div_pow2 by lia).
  assert (Hd2 : c / 4096 = c / 64 / 64) by (rewrite Z.div_div by lia; reflexivity).
  assert (Hd3 : c / 262144 = c / 4096 / 64) by (rewrite Z.div_div by lia; reflexivity).
  pose proof (Z.div_mod c 64 ltac:(lia)) as Hm1.
  pose proof (Z.mod_pos_bound c 64 ltac:(lia)) as Hb1.
  pose proof (Z.div_mod (c / 64) 64 ltac:(lia)) as Hm2.
  pose proof (Z.mod_pos_bound (c / 64) 64 ltac:(lia)) as Hb2.
  pose proof (Z.div_mod (c / 4096) 64 ltac:(lia)) as Hm3.
  pose proof (Z.mod_pos_bound (c / 4096) 64 ltac:(lia)) as Hb3.
  pose proof (cont_value c) as Hc0.
  pose proof (cont_value (Z.shiftr c 6)) as Hc1. rewrite Hq1 in Hc1.
  pose proof (cont_value (Z.shiftr c 12)) as Hc2. rewrite Hq2 in Hc2.
  destruct (c <? 2048) eqn:E2.
  { apply Z.ltb_lt in E2. injection H as <-. cbn [app]. rewrite ?Hq1, ?Hq2, ?Hq3.
    assert (Hv0 : Z_of_byte (byte_of_Z (Z.lor 192 (c / 64))) = 192 + c / 64)
      by (apply (lead_value 192 (c / 64) 6); try reflexivity; lia).
    rewrite decode_step2 by lia.
    rewrite Hv0, (low6_value (cont c) (c mod 64) Hc0 Hb1).
    rewrite (land_low (192 + c / 64) 5 ltac:(lia) : Z.land _ 31 = _).
    change (2 ^ 5) with 32.
    replace ((192 + c / 64) mod 32) with (c / 64)
      by (replace (192 + c / 64) with (c / 64 + 6 * 32) by lia;
          rewrite Z.mod_add by lia; symmetry; apply Z.mod_small; lia).
    rewrite lor_shiftl_add by lia. f_equal. change (2 ^ 6) with 64. lia. }
  apply Z.ltb_ge in E2.
  destruct ((55296 <=? c) && (c <=? 57343)) eqn:Esur; [discriminate|].
  assert (Hns : c < 55296 \/ 57343 < c).
  { apply andb_false_iff in Esur as [E|E]; apply Z.leb_gt in E; lia. }
  destruct (c <? 65536) eqn:E3.
  { apply Z.ltb_lt in E3. injection H as <-. cbn [app]. rewrite ?Hq1, ?Hq2, ?Hq3.
    assert (Hv0 : Z_of_byte (byte_of_Z (Z.lor 224 (c / 4096))) = 224 + c / 4096)
      by (apply (lead_value 224 (c / 4096) 5); try reflexivity; lia).
    rewrite decode_step3 by lia.
    rewrite Hv0, (low6_value (cont (c / 64)) ((c / 64) mod 64) Hc1 Hb2),
      (low6_value (cont c) (c mod 64) Hc0 Hb1).
    rewrite (land_low (224 + c / 4096) 4 ltac:(lia) : Z.land _ 15 = _).
    change (2 ^ 4) with 16.
    replace ((224 + c / 4096) mod 16) with (c / 4096)
      by (replace (224 + c / 4096) with (c / 4096 + 14 * 16) by lia;
          rewrite Z.mod_add by lia; symmetry; apply Z.mod_small; lia).
    rewrite (lor_shiftl_add ((c / 64) mod 64)) by lia.
    rewrite lor_shiftl_add by (change (2 ^ 6) with 64; change (2 ^ 12) with 4096; lia).
    f_equal. change (2 ^ 6) with 64. change (2 ^ 12) with 4096. lia. }
  apply Z.ltb_ge in E3.
  destruct (c <=? 1114111) eqn:E4; [|discriminate].
  apply Z.leb_le in E4. injection H as <-. cbn [app]. rewrite ?Hq1, ?Hq2, ?Hq3.
  pose proof (Z.div_mod (c / 262144) 64 ltac:(lia)) as Hm4.
  assert (Hv0 : Z_of_byte (byte_of_Z (Z.lor 240 (c / 262144))) = 240 + c / 262144)
    by (apply (lead_value 240 (c / 262144) 4); try reflexivity; lia).
  rewrite decode_step4 by lia.
  rewrite Hv0, (low6_value (cont (c / 4096)) ((c / 4096) mod 64) Hc2 Hb3),
    (low6_value (cont (c / 64)) ((c / 64) mod 64) Hc1 Hb2),
    (low6_value (cont c) (c mod 64) Hc0 Hb1).
  rewrite (land_low (240 + c / 262144) 3 ltac:(lia) : Z.land _ 7 = _).
  change (2 ^ 3) with 8.
  replace ((240 + c / 262144) mod 8) with (c / 262144)
    by (replace (240 + c / 262144) with (c / 262144 + 30 * 8) by lia;
        rewrite Z.mod_add by lia; symmetry; apply Z.mod_small; lia).
  rewrite (lor_shiftl_add ((c / 64) mod 64)) by lia.
  rewrite (lor_shiftl_add ((c / 4096) mod 64))
    by (change (2 ^ 6) with 64; change (2 ^ 12) with 4096; lia).
  rewrite lor_shiftl_add
    by (change (2 ^ 6) with 64; change (2 ^ 12) with 4096;
        change (2 ^ 18) with 262144; lia).
  f_equal. change (2 ^ 6) with 64. change (2 ^ 12) with 4096.
  change (2 ^ 18) with 262144. lia.
Qed.

Transparent Z.lor Z.land Z.shiftr Z.shiftl.

Lemma encode_point_nonempty (c : Z) (b : bytes) :
  encode_point c = inr b -> b <> [].
Proof.
  unfold encode_point. intros H.
  repeat match type of H with
         | (if ?t then _ else _) = _ => destruct t
         end; try discriminate; injection H as <-; discriminate.
Qed.

Lemma decode_encode_fuel (s : str) :
  forall p fuel,
    encode_utf8 s = inr p -> (length p <= fuel)%nat ->
    decode_utf8_aux fuel p = inr s.
Proof.
  induction s as [|c s IH]; intros p fuel H Hfuel; simpl in H.
  - injection H as <-. destruct fuel; reflexivity.
  - destruct (encode_point c) as [e|b] eqn:Ec; [discriminate|].
    destruct (encode_utf8 s) as [e|bs] eqn:Es; [discriminate|].
    injection H as <-. rewrite length_app in Hfuel.
    pose proof (encode_point_nonempty c b Ec) as Hne.
    destruct fuel as [|fuel]; [destruct b; [congruence | simpl in Hfuel; lia]|].
    rewrite (decode_encode_point c b fuel bs Ec).
    rewrite (IH bs fuel eq_refl); [reflexivity|].
    destruct b; [congruence | simpl in Hfuel; lia].
Qed.

(** Decoding inverts encoding. *)
Lemma decode_encode_utf8 (s : str) (p : bytes) :
  encode_utf8 s = inr p -> decode_utf8 p = inr s.
Proof.
  intros H. unfold decode_utf8. now apply (decode_encode_fuel s p).
Qed.

(** X15.  The path can be read back from a packet: for a path without
    NUL characters, decoding the bytes of the packet between offset 2
    and the first zero byte gives the path that [build_packet] was
    called with. *)
Theorem build_packet_path_round_trip (cmd : Z) (path : str) (payload pkt : bytes) :
  ~ In 0 path ->
  Device.build_packet cmd path payload = inr pkt ->
  decode_utf8 (slice pkt 2 (find pkt x00 2)) = inr path.
Proof.
  intros Hnul H. unfold Device.build_packet in H.
  destruct (encode_utf8 path) as [e|p] eqn:Hp; [discriminate|].
  destruct (struct_pack_H cmd) as [e|hdr] eqn:Hh; [discriminate|].
  injection H as <-.
  assert (Hhdr : len hdr = 2).
  { unfold struct_pack_H in Hh.
    destruct ((0 <=? cmd) && (cmd <=? 65535)); [|discriminate].
    injection Hh as <-. reflexivity. }
  pose proof (encode_utf8_no_nul path p Hp Hnul) as Hfree.
  rewrite <- app_assoc. cbn [app].
  rewrite <- Hhdr, (find_after x00 hdr p payload Hfree),
    (slice_mid hdr p (x00 :: payload)).
  now apply decode_encode_utf8.
Qed.

Lemma build_packet_path_round_trip_witness :
  ~ In 0 [0x2F; 0x20AC; 0x1F600]
  /\ Device.build_packet 0x0701 [0x2F; 0x20AC; 0x1F600] [x00; x09]
     = inr [x07; x01; x2f; xe2; x82; xac; xf0; x9f; x98; x80; x00; x00; x09]
  /\ decode_utf8
       (slice [x07; x01; x2f; xe2; x82; xac; xf0; x9f; x98; x80; x00; x00; x09] 2
          (find [x07; x01; x2f; xe2; x82; xac; xf0; x9f; x98; x80; x00; x00; x09] x00 2))
     = inr [0x2F; 0x20AC; 0x1F600].
Proof.
  assert (H : ~ In 0 [0x2F; 0x20AC; 0x1F600])
    by (simpl; intros [E|[E|[E|[]]]]; discriminate).
  assert (Hb : Device.build_packet 0x0701 [0x2F; 0x20AC; 0x1F600] [x00; x09]
               = inr [x07; x01; x2f; xe2; x82; xac; xf0; x9f; x98; x80; x00; x00; x09])
    by reflexivity.
  split; [exact H|]. split; [exact Hb|].
  exact (build_packet_path_round_trip 0x0701 [0x2F; 0x20AC; 0x1F600] [x00; x09] _ H Hb).
Defined.

(** X16.  A directory entry is listed under the name the device
    encoded: when the bytes from offset 12 up to the terminator are the
    UTF-8 encoding of a name without NUL characters, decoding gives that
    name, with the size of offsets 4..8 and the type of offset 1. *)
Theorem decode_entry_name (b0 t b2 b3 s0 s1 s2 s3 d0 d1 d2 d3 : byte)
    (filename : str) (nm rest : bytes) :
  encode_utf8 filename = inr nm ->
  ~ In 0 filename ->
  ListFiles.decode_entry
    ([b0; t; b2; b3; s0; s1; s2; s3; d0; d1; d2; d3] ++ nm ++ x00 :: rest)
  = inr (ListFiles.mk_entry filename (be32 s0 s1 s2 s3)
           (if Byte.eqb t x00 then ListFiles.file else ListFiles.dir)).
Proof.
  intros Henc Hnul.
  pose proof (encode_utf8_no_nul filename nm Henc Hnul) as Hfree.
  set (hd := [b0; t; b2; b3; s0; s1; s2; s3; d0; d1; d2; d3]).
  set (buf := hd ++ nm ++ x00 :: rest).
  assert (Hsize : slice buf 4 8 = [s0; s1; s2; s3])
    by apply (slice_mid [b0; t; b2; b3] [s0; s1; s2; s3]
                ([d0; d1; d2; d3] ++ nm ++ x00 :: rest)).
  assert (Hdate : slice buf 8 12 = [d0; d1; d2; d3])
    by apply (slice_mid [b0; t; b2; b3; s0; s1; s2; s3] [d0; d1; d2; d3]
                (nm ++ x00 :: rest)).
  assert (Hfind : find buf x00 12 = 12 + len nm)
    by apply (find_after x00 hd nm rest Hfree).
  assert (Hname : slice buf 12 (12 + len nm) = nm)
    by apply (slice_mid hd nm (x00 :: rest)).
  unfold ListFiles.decode_entry.
  change (index buf 1) with (@inr exn byte t).
  rewrite Hsize, Hdate, Hfind, Hname, !struct_unpack_I_be32.
  rewrite (decode_encode_utf8 filename nm Henc). reflexivity.
Qed.

Lemma decode_entry_name_witness :
  encode_utf8 [0x61; 0xE9] = inr [x61; xc3; xa9]
  /\ ~ In 0 [0x61; 0xE9]
  /\ ListFiles.decode_entry
       ([x00; x00; x00; x00; x00; x00; x01; x00; x00; x00; x00; x00]
          ++ [x61; xc3; xa9] ++ x00 :: [x7a])
     = inr (ListFiles.mk_entry [0x61; 0xE9] (be32 x00 x00 x01 x00)
              (if Byte.eqb x00 x00 then ListFiles.file else ListFiles.dir)).
Proof.
  assert (H1 : encode_utf8 [0x61; 0xE9] = inr [x61; xc3; xa9]) by reflexivity.
  assert (H2 : ~ In 0 [0x61; 0xE9]) by (simpl; intros [E|[E|[]]]; discriminate).
  split; [exact H1|]. split; [exact H2|].
  exact (decode_entry_name x00 x00 x00 x00 x00 x00 x01 x00 x00 x00 x00 x00
           [0x61; 0xE9] [x61; xc3; xa9] [x7a] H1 H2).
Defined.

(* ================================================================== *)
(** * Interrupted transfers and late errors *)
(* ================================================================== *)

Lemma len_concat_nonneg (fs : list bytes) : 0 <= len (concat (map (@tl byte) fs)).
Proof. apply len_nonneg. Qed.

(** The receive loop over a run of non-empty frames that do not yet
    complete the transfer. *)
Lemma recv_loop_prefix (fs : list bytes) :
  forall k bl acc d,
    Forall (fun f => f <> []) fs ->
    len (concat (map (@tl byte) fs)) < bl ->
    (forall i f, nth_error fs i = Some f -> rx d (reads d + i) = Frame f) ->
    Device.recv_loop (length fs + k) bl acc d
    = Device.recv_loop k (bl - len (concat (map (@tl byte) fs)))
        (acc ++ concat (map (@tl byte) fs))
        (after d (length fs) 0 (loop_reads bl fs)).
Proof.
  induction fs as [|f fs IH]; intros k bl acc d Hne Hlt Hrx.
  - cbn [length map concat loop_reads Nat.add].
    change (len (@nil byte)) with 0.
    rewrite Z.sub_0_r, app_nil_r, after_nil. reflexivity.
  - inversion Hne as [|? ? Hf Hfs]; subst.
    destruct f as [|x r]; [congruence|].
    cbn [map concat tl] in Hlt |- *. rewrite len_app in Hlt.
    pose proof (len_nonneg r). pose proof (len_concat_nonneg fs).
    cbn [length Nat.add Device.recv_loop].
    replace (bl >? 0) with true by (symmetry; apply Z.gtb_lt; lia).
    unfold bind at 1. rewrite recv_chunk_run.
    assert (Hhead : rx d (reads d) = Frame (x :: r))
      by (rewrite <- (Nat.add_0_r (reads d)); now apply Hrx).
    rewrite Hhead. cbn [fst snd].
    rewrite IH.
    + f_equal.
      * rewrite len_app. lia.
      * now rewrite <- app_assoc.
      * rewrite answered_is_after, after_after.
        apply after_eq; [reflexivity | reflexivity |].
        cbn [loop_reads tl]. rewrite Hhead. reflexivity.
    + exact Hfs.
    + lia.
    + intros i g Hi. autorewrite with usb.
      replace (S (reads d) + i)%nat with (reads d + S i)%nat by lia.
      now apply Hrx.
Qed.

(** X17.  A download whose three writes up to the begin-transfer byte
    went through and that is interrupted after any number of frames, by
    a transport fault or by a zero-length read while bytes remain,
    raises the error of that read: the data received so far is not
    returned, and neither the acknowledgment FF 00 nor the disconnect
    marker is written, the failed read being the last call. *)
Theorem file_read_interrupted (fuel : nat) (path : str) (d : usb)
    (c p h : bytes) (total : Z) (fs : list bytes) (last : reply) (e : exn) :
  tx d (writes d) = true ->
  tx d (S (writes d)) = true ->
  tx d (S (S (writes d))) = true ->
  rx d (reads d) = Frame c ->
  encode_utf8 path = inr p ->
  rx d (S (reads d)) = Frame h ->
  16 <= len h ->
  slice_to h 2 = [x03; x01] ->
  struct_unpack_I (slice h 12 16) = inr total ->
  Forall (fun f => f <> []) fs ->
  len (concat (map (@tl byte) fs)) < total ->
  (forall i f, nth_error fs i = Some f -> rx d (2 + reads d + i) = Frame f) ->
  rx d (2 + reads d + length fs) = last ->
  failed_read last e ->
  (length fs < fuel)%nat ->
  exists d',
    Device.file_read fuel path d = (Raise e, d')
    /\ added d d'
       = header_events c p h ++ [Wrote [x04]] ++ loop_reads total fs
         ++ [Readn (Z.min (total - len (concat (map (@tl byte) fs)) + 1) 254) last].
Proof.
  intros Hw0 Hw1 Hw2 Hc Hp Hh Hlen Htag Htot Hne Hlt Hfs Hlast Hwhy Hfuel.
  destruct (file_read_accepted fuel path d c p h total
              Hw0 Hw1 Hw2 Hc Hp Hh Hlen Htag Htot)
    as (d5 & Hd5 & Hfr).
  set (left := total - len (concat (map (@tl byte) fs))).
  set (d6 := after d5 (length fs) 0 (loop_reads total fs)).
  assert (Hrx6 : rx d6 (reads d6) = last).
  { unfold d6. rewrite rx_after, reads_after, Hd5, rx_after, reads_after.
    rewrite <- Hlast. f_equal. lia. }
  assert (Hloop : Device.recv_loop fuel total [] d5
                  = (Raise e, answered d6 (Z.min (left + 1) 254))).
  { replace fuel with (length fs + S (fuel - S (length fs)))%nat by lia.
    rewrite (recv_loop_prefix fs _ total [] d5 Hne Hlt).
    2:{ intros i f Hi. rewrite Hd5, rx_after, reads_after.
        replace (reads d + 2 + i)%nat with (2 + reads d + i)%nat by lia.
        now apply Hfs. }
    fold left. fold d6. cbn [Device.recv_loop].
    replace (left >? 0) with true by (symmetry; apply Z.gtb_lt; unfold left; lia).
    unfold bind. rewrite recv_chunk_run, Hrx6.
    destruct Hwhy as [[-> ->]|[-> ->]]; reflexivity. }
  exists (answered d6 (Z.min (left + 1) 254)). split.
  - rewrite Hfr. erewrite bind_raise by exact Hloop. reflexivity.
  - apply added_app. rewrite trace_answered, Hrx6. unfold d6.
    rewrite trace_after, Hd5, trace_after, <- !app_assoc. reflexivity.
Qed.

Lemma file_read_interrupted_witness :
  tx (scripted [[x00]; header_for 5; [x05; x41; x42]]) 0%nat = true
  /\ tx (scripted [[x00]; header_for 5; [x05; x41; x42]]) 1%nat = true
  /\ tx (scripted [[x00]; header_for 5; [x05; x41; x42]]) 2%nat = true
  /\ 16 <= len (header_for 5)
  /\ Forall (fun f => f <> []) [[x05; x41; x42]]
  /\ len (concat (map (@tl byte) [[x05; x41; x42]])) < 5
  /\ failed_read Fault USBError
  /\ exists d',
       Device.file_read 4 (str_of_string "/a")
         (scripted [[x00]; header_for 5; [x05; x41; x42]])
       = (Raise USBError, d')
       /\ added (scripted [[x00]; header_for 5; [x05; x41; x42]]) d'
          = header_events [x00] [x2f; x61] (header_for 5) ++ [Wrote [x04]]
            ++ loop_reads 5 [[x05; x41; x42]]
            ++ [Readn (Z.min (5 - len (concat (map (@tl byte) [[x05; x41; x42]])) + 1) 254)
                  Fault].
Proof.
  assert (H1 : 16 <= len (header_for 5)) by (vm_compute; discriminate).
  assert (H2 : Forall (fun f : bytes => f <> []) [[x05; x41; x42]])
    by (repeat constructor; discriminate).
  assert (H3 : len (concat (map (@tl byte) [[x05; x41; x42]])) < 5)
    by reflexivity.
  assert (H4 : failed_read Fault USBError) by (left; split; reflexivity).
  split; [reflexivity|]. split; [reflexivity|]. split; [reflexivity|].
  split; [exact H1|]. split; [exact H2|]. split; [exact H3|]. split; [exact H4|].
  eapply (file_read_interrupted 4 (str_of_string "/a")
            (scripted [[x00]; header_for 5; [x05; x41; x42]])
            [x00] [x2f; x61] (header_for 5) 5 [[x05; x41; x42]] Fault USBError);
    [ reflexivity | reflexivity | reflexivity
    | reflexivity | reflexivity | reflexivity | exact H1 | reflexivity
    | reflexivity | exact H2 | exact H3
    | intros [|[|i]] f Hi; simpl in Hi; try discriminate;
      injection Hi as <-; reflexivity
    | reflexivity | exact H4 | repeat constructor ].
Defined.

(** X18.  A path that cannot be encoded is found out only after the
    service has been connected: when the service identifier was written
    and answered, the upload, the download and the listing raise
    [UnicodeEncodeError] after the write of 40 60 and the read of its
    answer, without sending a command and without a disconnect
    marker. *)
Theorem unencodable_path (fuel : nat) (path : str) (file_content : bytes)
    (d : usb) (cr : bytes) (c : Z) :
  tx d (writes d) = true ->
  In c path ->
  0xD800 <= c <= 0xDFFF ->
  len file_content <= 0xFFFFFFFF ->
  rx d (reads d) = Frame cr ->
  Device.file_write path file_content d
  = (Raise UnicodeEncodeError, answered (wrote d [x40; x60]) 512)
  /\ Device.file_read fuel path d
     = (Raise UnicodeEncodeError, answered (wrote d [x40; x60]) 512)
  /\ ListFiles.list_directory fuel path d
     = (Raise UnicodeEncodeError, answered (wrote d [x40; x60]) 512)
  /\ added d (answered (wrote d [x40; x60]) 512)
     = [Wrote [x40; x60]; Readn 512 (Frame cr)].
Proof.
  intros Hw Hin Hc Hmax Hrx.
  pose proof (encode_utf8_surrogate path c Hin Hc) as Henc.
  pose proof (len_nonneg file_content).
  destruct (struct_pack_I_ok (len file_content)) as (size & Hsize); [lia|].
  split; [|split; [|split]].
  - unfold Device.file_write.
    erewrite bind_ok by (eapply connect_service_run; eauto).
    erewrite bind_ok by (apply lift_ok; exact Hsize).
    erewrite bind_raise; [reflexivity|].
    unfold Device.build_packet. rewrite Henc. reflexivity.
  - unfold Device.file_read.
    erewrite bind_ok by (eapply connect_service_run; eauto).
    erewrite bind_ok by (apply lift_ok; reflexivity).
    erewrite bind_raise; [reflexivity|]. rewrite Henc. reflexivity.
  - unfold ListFiles.list_directory.
    erewrite bind_ok by (eapply list_connect_service_run; eauto).
    erewrite bind_raise; [reflexivity|]. rewrite Henc. reflexivity.
  - apply added_app. autorewrite with usb. rewrite Hrx, <- app_assoc. reflexivity.
Qed.

Lemma unencodable_path_witness :
  tx (scripted [[x00]]) (writes (scripted [[x00]])) = true
  /\ In 0xDC00 [0x2F; 0xDC00]
  /\ len [x41] <= 0xFFFFFFFF
  /\ Device.file_write [0x2F; 0xDC00] [x41] (scripted [[x00]])
     = (Raise UnicodeEncodeError, answered (wrote (scripted [[x00]]) [x40; x60]) 512)
  /\ Device.file_read 2 [0x2F; 0xDC00] (scripted [[x00]])
     = (Raise UnicodeEncodeError, answered (wrote (scripted [[x00]]) [x40; x60]) 512)
  /\ ListFiles.list_directory 2 [0x2F; 0xDC00] (scripted [[x00]])
     = (Raise UnicodeEncodeError, answered (wrote (scripted [[x00]]) [x40; x60]) 512)
  /\ added (scripted [[x00]]) (answered (wrote (scripted [[x00]]) [x40; x60]) 512)
     = [Wrote [x40; x60]; Readn 512 (Frame [x00])].
Proof.
  assert (H1 : In 0xDC00 [0x2F; 0xDC00]) by (simpl; auto).
  assert (H2 : len [x41] <= 0xFFFFFFFF) by (vm_compute; discriminate).
  split; [reflexivity|]. split; [exact H1|]. split; [exact H2|].
  apply (unencodable_path 2 [0x2F; 0xDC00] [x41] (scripted [[x00]]) [x00] 0xDC00
           eq_refl H1);
    [ lia | exact H2 | reflexivity ].
Defined.
